(** * Reference checker: extraction and validation pipeline

    A shallow embedding of the TypeScript sources of the reference checker
    (string matching, author normalisation, the regex reference parser, the
    source connectors, the validation analyzers and the two orchestrators,
    the page layout of the PDF text extractor, the store of the application
    and the rate limiter of the server), followed by the properties
    established about them.

    Conventions of the embedding.
    - A JavaScript string is a [string]; the inputs modelled are ASCII
      texts, and the character classes [\w], [\d], [\s] and [toLowerCase]
      are the ASCII ones.  The non-ASCII members of [\s] and the curly
      quotes and dashes rewritten by [normalizeBibliographyText] have no
      counterpart in this alphabet.
    - A JavaScript number holding a score is an exact rational ([Q]); no
      division below is ever reached with a zero divisor.  Lengths, indices
      and citation numbers are [nat], parsed years are [Z], and [NaN] coming
      out of [parseInt] is [None].
    - Regular expressions are terms of [regex], run by a backtracking matcher
      that follows the ECMAScript rules (leftmost match, greedy or lazy
      iteration, ordered alternation, atomic lookahead).
    - Network and LLM calls are oracles that receive the history of events
      so far.  A callback handed in by a caller is an oracle too: it returns
      or throws, possibly depending on the events so far, it leaves the
      value it is given as it is, and every call of it is recorded as an
      event.  An [async] function is a computation in the monad [M], which threads
      that history and may throw; the connectors started together by
      [Promise.all] run in the order of the array.
    - A JavaScript [Map] with string keys is the list of its entries in
      insertion order.  An action of the store is a function on the state
      of the store, and the middleware of the server is a function on the
      map it keeps; times are milliseconds in [nat].
    - The vertical position of a text item of pdf.js is a rational. *)

From Stdlib Require Import Strings.String Strings.Ascii.
From Stdlib Require Import Lists.List Arith.Arith Arith.PeanoNat Bool.Bool.
From Stdlib Require Import ZArith.ZArith QArith.QArith QArith.Qround Lia Lqa.
From Stdlib Require Import DecimalString.
From Stdlib Require Import QArith.Qabs.
Import ListNotations.

Local Open Scope string_scope.
Local Open Scope list_scope.
Local Open Scope nat_scope.

(* ================================================================= *)
(** ** Characters and JavaScript string primitives *)

Module JS.

Definition code (c : ascii) : nat := nat_of_ascii c.

Definition in_range (lo hi : nat) (c : ascii) : bool :=
  (lo <=? code c) && (code c <=? hi).

Definition is_digit : ascii -> bool := in_range 48 57.
Definition is_upper : ascii -> bool := in_range 65 90.
Definition is_lower : ascii -> bool := in_range 97 122.
Definition is_alpha (c : ascii) : bool := is_upper c || is_lower c.

(** [\w] is [[A-Za-z0-9_]]. *)
Definition is_word (c : ascii) : bool :=
  is_alpha c || is_digit c || (code c =? 95).

(** [\s], restricted to the 8-bit alphabet: TAB, LF, VT, FF, CR, space. *)
Definition is_space (c : ascii) : bool :=
  in_range 9 13 c || (code c =? 32).

Definition lower_char (c : ascii) : ascii :=
  if is_upper c then ascii_of_nat (code c + 32) else c.

Definition is_char (x : ascii) (c : ascii) : bool := Ascii.eqb x c.

(** A literal character under the [i] flag. *)
Definition is_char_ci (x : ascii) (c : ascii) : bool :=
  Ascii.eqb (lower_char x) (lower_char c).

Fixpoint one_of (cs : string) (c : ascii) : bool :=
  match cs with
  | EmptyString => false
  | String x cs' => Ascii.eqb x c || one_of cs' c
  end.

Definition none_of (cs : string) (c : ascii) : bool := negb (one_of cs c).

Fixpoint toLowerCase (s : string) : string :=
  match s with
  | EmptyString => EmptyString
  | String c s' => String (lower_char c) (toLowerCase s')
  end.

Fixpoint drop (n : nat) (s : string) : string :=
  match n, s with
  | O, _ => s
  | S n', String _ s' => drop n' s'
  | S _, EmptyString => EmptyString
  end.

Fixpoint take (n : nat) (s : string) : string :=
  match n, s with
  | S n', String c s' => String c (take n' s')
  | _, _ => EmptyString
  end.

(** [s.substring(i, j)] for [i <= j]. *)
Definition substring (i j : nat) (s : string) : string :=
  take (j - i) (drop i s).

Fixpoint char_at (n : nat) (s : string) : option ascii :=
  match s with
  | EmptyString => None
  | String c s' => match n with O => Some c | S n' => char_at n' s' end
  end.

Fixpoint rev_onto (s acc : string) : string :=
  match s with
  | EmptyString => acc
  | String c s' => rev_onto s' (String c acc)
  end.

Definition rev_string (s : string) : string := rev_onto s EmptyString.

Fixpoint trimStart (s : string) : string :=
  match s with
  | EmptyString => EmptyString
  | String c s' => if is_space c then trimStart s' else s
  end.

Definition trimEnd (s : string) : string :=
  rev_string (trimStart (rev_string s)).

Definition trim (s : string) : string := trimEnd (trimStart s).

Fixpoint starts_with (p s : string) : bool :=
  match p, s with
  | EmptyString, _ => true
  | String a p', String b s' => Ascii.eqb a b && starts_with p' s'
  | String _ _, EmptyString => false
  end.

(** [s.indexOf(p, from)], [None] for [-1]. *)
Fixpoint index_from (p s : string) (pos : nat) : option nat :=
  if starts_with p s then Some pos
  else match s with
       | EmptyString => None
       | String _ s' => index_from p s' (S pos)
       end.

Definition indexOf (p s : string) (from : nat) : option nat :=
  if String.length s <? from then
    (if String.eqb p EmptyString then Some (String.length s) else None)
  else index_from p (drop from s) from.

Definition includes (s p : string) : bool :=
  match index_from p s 0 with Some _ => true | None => false end.

Definition endsWith (s p : string) : bool :=
  starts_with (rev_string p) (rev_string s).

(** [s.split(sep)] for a non-empty separator string. *)
Fixpoint split_str_aux (fuel : nat) (sep s cur : string) : list string :=
  match fuel with
  | O => [rev_string cur]
  | S fuel' =>
      match s with
      | EmptyString => [rev_string cur]
      | String c s' =>
          if starts_with sep s
          then rev_string cur
               :: split_str_aux fuel' sep (drop (String.length sep) s) EmptyString
          else split_str_aux fuel' sep s' (String c cur)
      end
  end.

Definition split_str (sep s : string) : list string :=
  split_str_aux (S (String.length s)) sep s EmptyString.

(** [xs.join(sep)]. *)
Fixpoint join (sep : string) (xs : list string) : string :=
  match xs with
  | [] => EmptyString
  | [x] => x
  | x :: rest => (x ++ sep ++ join sep rest)%string
  end.

(** [xs.pop()] as an expression: the last element, [None] for [undefined]. *)
Definition pop (xs : list string) : option string :=
  match rev xs with [] => None | x :: _ => Some x end.

(** Truthiness of a string. *)
Definition truthy (s : string) : bool := negb (String.eqb s EmptyString).

(** [a || b] on strings. *)
Definition or_else (a b : string) : string := if truthy a then a else b.

Definition mem_string (x : string) (xs : list string) : bool :=
  existsb (String.eqb x) xs.

(** [new Set(xs)] keeps the first occurrence of every element, in insertion
    order; [xs] is consumed from the left. *)
Fixpoint set_add_all (acc : list string) (xs : list string) : list string :=
  match xs with
  | [] => acc
  | x :: rest =>
      set_add_all (if mem_string x acc then acc else acc ++ [x]) rest
  end.

Definition new_Set (xs : list string) : list string := set_add_all [] xs.

(** Digits of a decimal prefix. *)
Definition digit_val (c : ascii) : Z := Z.of_nat (code c - 48).

Fixpoint digits_prefix (s : string) (acc : Z) (seen : bool) : option Z :=
  match s with
  | EmptyString => if seen then Some acc else None
  | String c s' =>
      if is_digit c then digits_prefix s' (10 * acc + digit_val c)%Z true
      else if seen then Some acc else None
  end.

Definition hex_val (c : ascii) : option Z :=
  if is_digit c then Some (digit_val c)
  else if in_range 97 102 c then Some (Z.of_nat (code c - 87))
  else if in_range 65 70 c then Some (Z.of_nat (code c - 55))
  else None.

Fixpoint hex_prefix (s : string) (acc : Z) (seen : bool) : option Z :=
  match s with
  | EmptyString => if seen then Some acc else None
  | String c s' =>
      match hex_val c with
      | Some d => hex_prefix s' (16 * acc + d)%Z true
      | None => if seen then Some acc else None
      end
  end.

Definition parse_sign (s : string) : bool * string :=
  match s with
  | String "-" s' => (true, s')
  | String "+" s' => (false, s')
  | _ => (false, s)
  end.

Definition apply_sign (neg : bool) (v : option Z) : option Z :=
  match v with
  | Some z => Some (if neg then (- z)%Z else z)
  | None => None
  end.

(** [parseInt(s, 10)]; [None] is [NaN]. *)
Definition parseInt10 (s : string) : option Z :=
  let '(neg, body) := parse_sign (trimStart s) in
  apply_sign neg (digits_prefix body 0%Z false).

(** [parseInt(s)] without a radix: a [0x] prefix selects base 16. *)
Definition parseInt (s : string) : option Z :=
  let '(neg, body) := parse_sign (trimStart s) in
  match body with
  | String "0" (String "x" h) | String "0" (String "X" h) =>
      apply_sign neg (hex_prefix h 0%Z false)
  | _ => apply_sign neg (digits_prefix body 0%Z false)
  end.

End JS.

(* ================================================================= *)
(** ** Regular expressions *)

Module Regex.

Import JS.

Inductive regex : Type :=
| Eps                                   (* the empty pattern *)
| Cls (p : ascii -> bool)               (* one character of a class *)
| Cat (r1 r2 : regex)                   (* r1r2 *)
| Alt (r1 r2 : regex)                   (* r1|r2 *)
| Star (greedy : bool) (r : regex)      (* r* and r*? *)
| Grp (n : nat) (r : regex)             (* capture group number n *)
| Look (positive : bool) (r : regex)    (* (?=r) and (?!r) *)
| Bol                                   (* ^ *)
| Eol                                   (* $ *)
| WordB.                                (* \b *)

Definition Plus (r : regex) : regex := Cat r (Star true r).
Definition Opt (r : regex) : regex := Alt r Eps.
Definition Chr (c : ascii) : regex := Cls (is_char c).
Definition ChrI (c : ascii) : regex := Cls (is_char_ci c).

Fixpoint Lit (s : string) : regex :=
  match s with
  | EmptyString => Eps
  | String c EmptyString => Chr c
  | String c s' => Cat (Chr c) (Lit s')
  end.

Fixpoint LitI (s : string) : regex :=
  match s with
  | EmptyString => Eps
  | String c EmptyString => ChrI c
  | String c s' => Cat (ChrI c) (LitI s')
  end.

Definition Any : regex := Cls (fun _ => true).        (* [^] *)
Definition Digit : regex := Cls is_digit.             (* \d *)
Definition Space : regex := Cls is_space.             (* \s *)

(** The matcher's position: index, previous character, remaining input. *)
Record rstate : Type := mkState {
  pos : nat;
  prev : option ascii;
  rest : string
}.

Definition captures : Type := list (nat * string).

Fixpoint cap (n : nat) (cs : captures) : option string :=
  match cs with
  | [] => None
  | (m, s) :: cs' => if n =? m then Some s else cap n cs'
  end.

Definition at_word_boundary (st : rstate) : bool :=
  let before := match prev st with Some c => is_word c | None => false end in
  let after := match rest st with String c _ => is_word c | EmptyString => false end in
  xorb before after.

Fixpoint rmatch (R : Type) (r : regex) (st : rstate) (cs : captures)
         (k : rstate -> captures -> option R) {struct r} : option R :=
  match r with
  | Eps => k st cs
  | Cls p =>
      match rest st with
      | String c s' =>
          if p c then k (mkState (S (pos st)) (Some c) s') cs else None
      | EmptyString => None
      end
  | Cat r1 r2 =>
      rmatch R r1 st cs (fun st' cs' => rmatch R r2 st' cs' k)
  | Alt r1 r2 =>
      match rmatch R r1 st cs k with
      | Some x => Some x
      | None => rmatch R r2 st cs k
      end
  | Star greedy r1 =>
      (fix loop (fuel : nat) (st0 : rstate) (cs0 : captures) : option R :=
         match fuel with
         | O => k st0 cs0
         | S fuel' =>
             if greedy then
               match rmatch R r1 st0 cs0
                       (fun st' cs' =>
                          if pos st' =? pos st0 then None
                          else loop fuel' st' cs') with
               | Some x => Some x
               | None => k st0 cs0
               end
             else
               match k st0 cs0 with
               | Some x => Some x
               | None =>
                   rmatch R r1 st0 cs0
                     (fun st' cs' =>
                        if pos st' =? pos st0 then None
                        else loop fuel' st' cs')
               end
         end) (String.length (rest st)) st cs
  | Grp n r1 =>
      rmatch R r1 st cs
        (fun st' cs' =>
           k st' ((n, take (pos st' - pos st) (rest st)) :: cs'))
  | Look positive r1 =>
      match rmatch captures r1 st cs (fun _ cs' => Some cs') with
      | Some cs' => if positive then k st cs' else None
      | None => if positive then None else k st cs
      end
  | Bol => if pos st =? 0 then k st cs else None
  | Eol => match rest st with EmptyString => k st cs | _ => None end
  | WordB => if at_word_boundary st then k st cs else None
  end.

(** One match: [index], end index, [match[0]] and the groups. *)
Record rmatch_result : Type := mkMatch {
  m_index : nat;
  m_end : nat;
  m_text : string;
  m_caps : captures
}.

Definition group (n : nat) (m : rmatch_result) : string :=
  match cap n (m_caps m) with Some s => s | None => EmptyString end.

Definition match_at (r : regex) (st : rstate) : option rmatch_result :=
  rmatch rmatch_result r st []
    (fun st' cs =>
       Some (mkMatch (pos st) (pos st') (take (pos st' - pos st) (rest st)) cs)).

(** Leftmost match at or after the current position. *)
Fixpoint search_state (r : regex) (fuel : nat) (st : rstate)
  : option rmatch_result :=
  match match_at r st with
  | Some m => Some m
  | None =>
      match fuel, rest st with
      | S fuel', String c s' =>
          search_state r fuel' (mkState (S (pos st)) (Some c) s')
      | _, _ => None
      end
  end.

Definition state_at (s : string) (i : nat) : rstate :=
  mkState i (match i with O => None | S j => char_at j s end) (drop i s).

Definition search_from (r : regex) (s : string) (from : nat)
  : option rmatch_result :=
  if String.length s <? from then None
  else search_state r (String.length s) (state_at s from).

(** [s.match(r)] for a pattern without the [g] flag, and [r.exec(s)] on a
    fresh pattern. *)
Definition exec (r : regex) (s : string) : option rmatch_result :=
  search_from r s 0.

(** [r.test(s)]. *)
Definition test (r : regex) (s : string) : bool :=
  match exec r s with Some _ => true | None => false end.

(** [s.search(r)]. *)
Definition search (r : regex) (s : string) : option nat :=
  match exec r s with Some m => Some (m_index m) | None => None end.

(** All matches of a [g] pattern, as produced by [matchAll] and by a
    [while ((m = r.exec(s)) !== null)] loop; after an empty match the
    search resumes one character further. *)
Fixpoint match_all_from (fuel : nat) (r : regex) (s : string) (from : nat)
  : list rmatch_result :=
  match fuel with
  | O => []
  | S fuel' =>
      match search_from r s from with
      | None => []
      | Some m =>
          m :: match_all_from fuel' r s
                 (if m_end m =? m_index m then S (m_end m) else m_end m)
      end
  end.

Definition matchAll (r : regex) (s : string) : list rmatch_result :=
  match_all_from (S (String.length s)) r s 0.

(** [s.replace(r, f)] with the [g] flag. *)
Fixpoint splice (s : string) (from : nat) (ms : list rmatch_result)
         (f : rmatch_result -> string) : string :=
  match ms with
  | [] => drop from s
  | m :: ms' =>
      (substring from (m_index m) s ++ f m ++ splice s (m_end m) ms' f)%string
  end.

Definition replace_all (r : regex) (f : rmatch_result -> string) (s : string)
  : string :=
  splice s 0 (matchAll r s) f.

(** [s.replace(r, f)] without the [g] flag: the first match only. *)
Definition replace_first (r : regex) (f : rmatch_result -> string) (s : string)
  : string :=
  match exec r s with
  | None => s
  | Some m => (take (m_index m) s ++ f m ++ drop (m_end m) s)%string
  end.

Definition const_str (x : string) : rmatch_result -> string := fun _ => x.

(** [s.split(r)] for a pattern without capture groups. *)
Fixpoint split_loop (fuel : nat) (r : regex) (s : string) (p q : nat)
  : list string :=
  match fuel with
  | O => [drop p s]
  | S fuel' =>
      if String.length s <=? q then [drop p s]
      else
        match match_at r (state_at s q) with
        | None => split_loop fuel' r s p (S q)
        | Some m =>
            let e := Nat.min (m_end m) (String.length s) in
            if e =? p then split_loop fuel' r s p (S q)
            else substring p q s :: split_loop fuel' r s e e
        end
  end.

Definition split (r : regex) (s : string) : list string :=
  match s with
  | EmptyString =>
      match match_at r (state_at s 0) with Some _ => [] | None => [s] end
  | _ => split_loop (S (String.length s)) r s 0 0
  end.

End Regex.

(* ================================================================= *)
(** ** Scores *)

Module Num.

Definition Q_of_nat (n : nat) : Q := inject_Z (Z.of_nat n).

(** [a < b] and [a > b] on numbers. *)
Definition Qlt_bool (a b : Q) : bool := negb (Qle_bool b a).
Definition Qgt_bool (a b : Q) : bool := Qlt_bool b a.
Definition Qge_bool (a b : Q) : bool := Qle_bool b a.

(** [Math.max(a, b)]. *)
Definition Qmax_js (a b : Q) : Q := if Qle_bool a b then b else a.

End Num.

(* ================================================================= *)
(** ** utils/stringMatching.ts *)

Module StringMatching.

Import JS Regex Num.

(** One row of the matrix: [above] is row [i-1] from column [j-1] on,
    [left] is [matrix[i][j-1]], and the result lists [matrix[i][j..]]. *)
Fixpoint lev_row (bc : ascii) (a : string) (above : list nat) (left : nat)
  : list nat :=
  match a, above with
  | String ac a', diag :: ((up :: _) as above') =>
      let v := if Ascii.eqb bc ac then diag
               else Nat.min (diag + 1) (Nat.min (left + 1) (up + 1)) in
      v :: lev_row bc a' above' v
  | _, _ => []
  end.

(** Rows [1..b.length], starting from the row [previous] and its index. *)
Fixpoint lev_rows (b a : string) (previous : list nat) (i : nat) : list nat :=
  match b with
  | EmptyString => previous
  | String bc b' => lev_rows b' a (S i :: lev_row bc a previous (S i)) (S i)
  end.

(** [levenshteinDistance(a, b)]: [matrix[b.length][a.length]]. *)
Definition levenshteinDistance (a b : string) : nat :=
  last (lev_rows b a (seq 0 (S (String.length a))) 0) 0.

(** [/[^\w\s]/g] *)
Definition re_punct : regex := Cls (fun c => negb (is_word c || is_space c)).
(** [/\s+/g] *)
Definition re_spaces : regex := Plus Space.
(** [/^(the|a|an)\s+/i] *)
Definition re_article : regex :=
  Cat Bol (Cat (Grp 1 (Alt (LitI "the") (Alt (LitI "a") (LitI "an"))))
               (Plus Space)).

Definition normalizeString (str : string) : string :=
  trim (replace_all re_spaces (const_str " ")
          (replace_all re_punct (const_str " ") (toLowerCase str))).

Definition normalizeTitle (str : string) : string :=
  trim (replace_all re_spaces (const_str " ")
          (replace_all re_punct (const_str " ")
             (replace_first re_article (const_str EmptyString) (toLowerCase str)))).

Definition stringSimilarity (a b : string) : Q :=
  let normalizedA := normalizeString a in
  let normalizedB := normalizeString b in
  if String.eqb normalizedA normalizedB then 1
  else if (String.length normalizedA =? 0) || (String.length normalizedB =? 0)
  then 0
  else
    let distance := levenshteinDistance normalizedA normalizedB in
    let maxLength := Nat.max (String.length normalizedA)
                             (String.length normalizedB) in
    1 - Q_of_nat distance / Q_of_nat maxLength.

Definition tokens (s : string) : list string :=
  filter (fun t => 2 <? String.length t) (split_str " " (normalizeString s)).

(** The inner loop of [tokenSimilarity]: what one [tokenA] adds to
    [matchCount], stopping at the first [tokenB] that matches. *)
Fixpoint token_gain (tokenA : string) (tokensB : list string) : Q :=
  match tokensB with
  | [] => 0
  | tokenB :: more =>
      if String.eqb tokenA tokenB then 1
      else if (4 <? String.length tokenA) && (4 <? String.length tokenB) then
        let sim := stringSimilarity tokenA tokenB in
        if Qgt_bool sim (8 # 10) then sim else token_gain tokenA more
      else token_gain tokenA more
  end.

Fixpoint match_count (tokensA tokensB : list string) : Q :=
  match tokensA with
  | [] => 0
  | tokenA :: more => token_gain tokenA tokensB + match_count more tokensB
  end.

Definition tokenSimilarity (a b : string) : Q :=
  let tokensA := tokens a in
  let tokensB := tokens b in
  if (length tokensA =? 0) || (length tokensB =? 0) then 0
  else
    let matchCount := match_count tokensA tokensB in
    let totalTokens := length (new_Set (tokensA ++ tokensB)) in
    matchCount / Q_of_nat totalTokens.

Definition combinedSimilarity (a b : string) : Q :=
  let levenshteinSim := stringSimilarity a b in
  let tokenSim := tokenSimilarity a b in
  Qmax_js levenshteinSim tokenSim.

Definition titleSimilarity (a b : string) : Q :=
  let normA := normalizeTitle a in
  let normB := normalizeTitle b in
  if String.eqb normA normB then 1
  else if (String.length normA =? 0) || (String.length normB =? 0) then 0
  else if includes normA normB || includes normB normA then
    let shorter := Nat.min (String.length normA) (String.length normB) in
    let longer := Nat.max (String.length normA) (String.length normB) in
    Q_of_nat shorter / Q_of_nat longer
  else combinedSimilarity a b.

End StringMatching.

(* ================================================================= *)
(** ** Shared helpers: stable sorting *)

Module Sorting.

Section StableSort.
Context {A : Type}.
(** [before x y] says that the comparator does not put [y] strictly
    before [x], so [x] may stay in front of [y]. *)
Variable before : A -> A -> bool.

Fixpoint insert (x : A) (l : list A) : list A :=
  match l with
  | [] => [x]
  | y :: l' => if before x y then x :: l else y :: insert x l'
  end.

(** [xs.sort(cmp)]: a stable sort, as ECMAScript requires. *)
Fixpoint sort (l : list A) : list A :=
  match l with
  | [] => []
  | x :: l' => insert x (sort l')
  end.
End StableSort.

End Sorting.

(* ================================================================= *)
(** ** utils/authorNormalization.ts *)

Module AuthorNormalization.

Import JS Regex Num.

(** [s.replace(p, '')] for a string pattern: first occurrence only. *)
Definition remove_first (p s : string) : string :=
  match index_from p s 0 with
  | Some i => (take i s ++ drop (i + String.length p) s)%string
  | None => s
  end.

(** [/\./g] *)
Definition re_dot : regex := Chr ".".
(** [/^[a-zA-Z]+$/] *)
Definition re_letters : regex := Cat Bol (Cat (Plus (Cls is_alpha)) Eol).

Definition looks_like_initial (s : string) : bool :=
  (String.length s <=? 2) && test re_letters s.

Definition extractLastName (name : string) : string :=
  let parts := split (Plus Space) (trim name) in
  match parts with
  | [] => EmptyString
  | part0 :: _ =>
      let partN := List.last parts EmptyString in
      if endsWith part0 "," then toLowerCase (remove_first "," part0)
      else
        let last := replace_all re_dot (const_str EmptyString) partN in
        if looks_like_initial last && (2 <=? length parts)
        then toLowerCase part0
        else
          let first := replace_all re_dot (const_str EmptyString) part0 in
          if looks_like_initial first && (2 <=? length parts)
          then toLowerCase partN
          else toLowerCase partN
  end.

Definition compareAuthorLists (authors1 authors2 : list string) : Q :=
  if (length authors1 =? 0) || (length authors2 =? 0) then 0
  else
    let lastNames1 := new_Set (map extractLastName authors1) in
    let lastNames2 := new_Set (map extractLastName authors2) in
    let intersection :=
      filter (fun name => mem_string name lastNames2) lastNames1 in
    let minSize := Nat.min (length lastNames1) (length lastNames2) in
    Q_of_nat (length intersection) / Q_of_nat minSize.

(** [/^et\s*al\.?$/i] *)
Definition re_et_al : regex :=
  Cat Bol (Cat (LitI "et") (Cat (Star true Space)
    (Cat (LitI "al") (Cat (Opt (Chr ".")) Eol)))).

Definition separators : list string := ["; "; ", and "; " and "; ", "; ";"].

Definition parseAuthors (authorString : string) : list string :=
  let authors :=
    fold_left (fun acc sep => flat_map (split_str sep) acc)
              separators [authorString] in
  filter (fun a => (0 <? String.length a) && negb (test re_et_al a))
         (map trim authors).

End AuthorNormalization.

(* ================================================================= *)
(** ** extraction/regexExtractor.ts *)

Declare Scope regex_scope.
Delimit Scope regex_scope with re.
Notation "a >> b" := (Regex.Cat a b)
  (at level 41, right associativity) : regex_scope.
Notation "a <|> b" := (Regex.Alt a b)
  (at level 51, right associativity) : regex_scope.

Module RegexExtractor.

Import JS Regex Num AuthorNormalization.
Local Open Scope regex_scope.

Definition LF : ascii := "010"%char.
Definition DQUOTE : ascii := "034"%char.
Definition SQUOTE : ascii := "039"%char.

(** The extractor's output record.  The fields [id] (a fresh uuid),
    [venue], [doi], [urls] and [bounding_box] of the source record are
    computed independently of the ones kept here and are left out. *)
Record ExtractedReferenceWithIndex : Type := mkExtracted {
  raw_text : string;
  title : string;
  authors : list string;
  year : string;
  page_number : option nat;
  citation_number : option nat;
  relativeIndex : nat
}.

(** [/[^[\n]/] *)
Definition not_bracket_nl : regex :=
  Cls (fun c => negb (is_char "[" c || is_char LF c)).

(** [/\[(\d+)\]\s*([^[\n]+(?:\n(?!\s*\[\d+\])[^[\n]+)* )/g], written here
    with a blank before the last parenthesis. *)
Definition BRACKETED_REF_PATTERN : regex :=
  Chr "[" >> Grp 1 (Plus Digit) >> Chr "]" >> Star true Space >>
  Grp 2 (Plus not_bracket_nl >>
         Star true (Chr LF >>
                    Look false (Star true Space >> Chr "[" >> Plus Digit >> Chr "]") >>
                    Plus not_bracket_nl)).

(** [/\b(19|20)\d{2}[a-z]?\b/g] *)
Definition YEAR_PATTERN : regex :=
  WordB >> Grp 1 (Lit "19" <|> Lit "20") >> Digit >> Digit >>
  Opt (Cls is_lower) >> WordB.

(** [/[DDD]([^DDD]+)[DDD]|[SSS]([^SSS]+)[SSS]/], where D is the straight
    double quote and S the straight single quote. *)
Definition QUOTED_TITLE_PATTERN : regex :=
  (Chr DQUOTE >> Grp 1 (Plus (Cls (fun c => negb (is_char DQUOTE c)))) >> Chr DQUOTE)
  <|> (Chr SQUOTE >> Grp 2 (Plus (Cls (fun c => negb (is_char SQUOTE c)))) >> Chr SQUOTE).

(** [/([a-z])-\s*\n\s*([a-z])/gi] *)
Definition re_hyphen_break : regex :=
  Grp 1 (Cls is_alpha) >> Chr "-" >> Star true Space >> Chr LF >>
  Star true Space >> Grp 2 (Cls is_alpha).

(** [/\s+/g] *)
Definition re_spaces : regex := Plus Space.

(** The four replacements of step 3 rewrite characters that lie outside
    the 8-bit alphabet and leave every modelled string unchanged. *)
Definition normalizeBibliographyText (text : string) : string :=
  let text := replace_all re_hyphen_break
                (fun m => (group 1 m ++ group 2 m)%string) text in
  let text := replace_all re_spaces (const_str " ") text in
  trim (replace_all re_spaces (const_str " ") text).

(** [parseInt(digits, 10)] on the digits captured by [(\d+)]. *)
Definition number_of (digits : string) : nat :=
  match parseInt10 digits with Some z => Z.to_nat z | None => 0 end.

(** [/[a-z]$/] *)
Definition re_year_suffix : regex := Cls is_lower >> Eol.

Definition plausible_year (y : string) : bool :=
  match parseInt10 (replace_first re_year_suffix (const_str EmptyString) y) with
  | Some num => (1900 <=? num)%Z && (num <=? 2099)%Z
  | None => false
  end.

Definition extractYear (cleanText : string) : string :=
  let yearMatches := matchAll YEAR_PATTERN cleanText in
  let plausibleYears := filter plausible_year (map m_text yearMatches) in
  List.last plausibleYears EmptyString.

(** [/\.\s+/] *)
Definition re_sentence_break : regex := Chr "." >> Plus Space.
(** [/^[A-Z]/] *)
Definition re_starts_upper : regex := Bol >> Cls is_upper.
(** [/^\d+/] *)
Definition re_starts_digits : regex := Bol >> Plus Digit.
(** [/^Accessed\s/i] *)
Definition re_accessed : regex := Bol >> LitI "Accessed" >> Space.
(** [/^https?:/] *)
Definition re_http : regex := Bol >> Lit "http" >> Opt (Chr "s") >> Chr ":".
(** [/^arXiv/] and [/^arXiv/i] *)
Definition re_arxiv : regex := Bol >> Lit "arXiv".
Definition re_arxiv_i : regex := Bol >> LitI "arXiv".
(** [/^In\s+/i] *)
Definition re_in : regex := Bol >> LitI "In" >> Plus Space.
(** [/^Proceedings/i] *)
Definition re_proceedings : regex := Bol >> LitI "Proceedings".
(** [/[A-Z][^.!?]*(?::|[.!?])/] *)
Definition re_capital_segment : regex :=
  Cls is_upper >> Star true (Cls (none_of ".!?")) >>
  (Chr ":" <|> Cls (one_of ".!?")).
(** [/^[A-Z][a-z]+,\s*[A-Z][A-Z]?\./] *)
Definition re_author_like : regex :=
  Bol >> Cls is_upper >> Plus (Cls is_lower) >> Chr "," >> Star true Space >>
  Cls is_upper >> Opt (Cls is_upper) >> Chr ".".
(** [/[.!?:]$/] *)
Definition re_final_punct : regex := Cls (one_of ".!?:") >> Eol.

Definition extractTitle (text : string) : string :=
  let quoted :=
    match exec QUOTED_TITLE_PATTERN text with
    | Some quotedMatch =>
        let title := or_else (group 1 quotedMatch)
                       (or_else (group 2 quotedMatch)
                          (or_else (group 3 quotedMatch) EmptyString)) in
        if 5 <? String.length title then Some (trim title) else None
    | None => None
    end in
  match quoted with
  | Some t => t
  | None =>
      let sentences := split re_sentence_break text in
      let second :=
        if 2 <=? length sentences then
          let potentialTitle := nth 1 sentences EmptyString in
          if truthy potentialTitle
             && (10 <? String.length potentialTitle)
             && (String.length potentialTitle <? 300)
             && test re_starts_upper potentialTitle
             && negb (test re_starts_digits potentialTitle)
             && negb (test re_accessed potentialTitle)
             && negb (test re_http potentialTitle)
             && negb (test re_arxiv potentialTitle)
             && negb (test re_in potentialTitle)
             && negb (test re_proceedings potentialTitle)
          then Some (trim potentialTitle) else None
        else None in
      match second with
      | Some t => t
      | None =>
          match exec re_capital_segment text with
          | Some titleMatch =>
              let potentialTitle := m_text titleMatch in
              if negb (test re_author_like potentialTitle)
                 && negb (test re_in potentialTitle)
                 && negb (test re_proceedings potentialTitle)
                 && negb (test re_arxiv_i potentialTitle)
                 && (10 <? String.length potentialTitle)
                 && (String.length potentialTitle <? 300)
              then trim (replace_first re_final_punct (const_str EmptyString) potentialTitle)
              else EmptyString
          | None => EmptyString
          end
      end
  end.

(** [/[,\s]and\s/i] *)
Definition re_and : regex :=
  Cls (fun c => is_char "," c || is_space c) >> LitI "and" >> Space.
(** [/[D\DD]/g], D being the straight double quote. *)
Definition re_dquote : regex := Chr DQUOTE.
(** [/\.\s*$/] *)
Definition re_trailing_period : regex := Chr "." >> Star true Space >> Eol.
(** [/^\d+\s*/] *)
Definition re_leading_number : regex := Bol >> Plus Digit >> Star true Space.

Definition extractAuthorsFromReference (text title year : string)
  : list string :=
  let authorText :=
    if truthy title && includes text title then
      match indexOf title text 0 with
      | Some titleIndex => substring 0 titleIndex text
      | None => text
      end
    else if truthy year then
      match indexOf year text 0 with
      | Some yearIndex => if 0 <? yearIndex then substring 0 yearIndex text else text
      | None => text
      end
    else text in
  let authorText :=
    match indexOf (String DQUOTE EmptyString) text 0 with
    | Some firstQuoteIndex =>
        if (0 <? firstQuoteIndex) && (2 * firstQuoteIndex <? String.length text)
        then
          let beforeQuote := substring 0 firstQuoteIndex text in
          if test re_and beforeQuote
             || (1 <? length (split_str "," beforeQuote))
          then beforeQuote else authorText
        else authorText
    | None => authorText
    end in
  let authorText :=
    trim (replace_first re_leading_number (const_str EmptyString)
            (replace_first re_trailing_period (const_str EmptyString)
               (replace_all re_dquote (const_str EmptyString)
                  (replace_first QUOTED_TITLE_PATTERN (const_str EmptyString) authorText)))) in
  firstn 10 (parseAuthors authorText).

Definition parseReferenceText (text : string) (citationNumber pageNumber
                               relativeIndex : nat)
  : ExtractedReferenceWithIndex :=
  let cleanText := trim (replace_all re_spaces (const_str " ") text) in
  let year := extractYear cleanText in
  let title := extractTitle cleanText in
  let authors := extractAuthorsFromReference cleanText title year in
  mkExtracted cleanText title authors year (Some pageNumber)
              (Some citationNumber) relativeIndex.

(** [reference.title || reference.authors.length > 0] *)
Definition meaningful (reference : ExtractedReferenceWithIndex) : bool :=
  truthy (title reference) || (0 <? length (authors reference)).

Definition extractBracketedReferences (text : string) (startPage : nat)
  : list ExtractedReferenceWithIndex :=
  map (fun m =>
         let citationNumber := number_of (group 1 m) in
         let refText := trim (group 2 m) in
         parseReferenceText refText citationNumber startPage (m_index m))
      (matchAll BRACKETED_REF_PATTERN text).

(** [/(?:^|\s)(\d+)\.\s+([A-Z][^]*?)(?=\s+\d+\.\s+[A-Z]|$)/g] *)
Definition period_pattern : regex :=
  (Bol <|> Space) >> Grp 1 (Plus Digit) >> Chr "." >> Plus Space >>
  Grp 2 (Cls is_upper >> Star false Any) >>
  Look true ((Plus Space >> Plus Digit >> Chr "." >> Plus Space >> Cls is_upper)
             <|> Eol).

Definition extractPeriodNumberedReferences (text : string) (startPage : nat)
  : list ExtractedReferenceWithIndex :=
  flat_map
    (fun m =>
       let citationNumber := number_of (group 1 m) in
       let refText := trim (group 2 m) in
       if String.length refText <? 20 then []
       else if (1 <=? citationNumber) && (citationNumber <=? 1000) then
         let reference :=
           parseReferenceText refText citationNumber startPage (m_index m) in
         if meaningful reference then [reference] else []
       else [])
    (matchAll period_pattern text).

(** A detected entry start: the numeric label and its offset. *)
Record boundary : Type := mkBoundary { number : nat; index : nat }.

Definition by_index (a b : boundary) : bool := index a <=? index b.

(** [/(?:^|\s)(\d+)\s*(?=[A-Za-z])/g] *)
Definition two_column_pattern : regex :=
  (Bol <|> Space) >> Grp 1 (Plus Digit) >> Star true Space >>
  Look true (Cls is_alpha).

Definition char_or_space (o : option ascii) : ascii :=
  match o with Some c => c | None => " "%char end.

(** The body of the detection loop of [extractTwoColumnReferences].  The
    matched text always holds a digit, so [search] finds one. *)
Definition two_column_candidate (text : string) (m : rmatch_result)
  : list boundary :=
  let num := number_of (group 1 m) in
  if (1 <=? num) && (num <=? 100) then
    let matchStart := m_index m in
    let matchEnd := matchStart + String.length (m_text m) in
    let numberStartInMatch :=
      match search Digit (m_text m) with Some i => i | None => 0 end in
    let actualNumberStart := matchStart + numberStartInMatch in
    let charBeforeNumber :=
      if 0 <? actualNumberStart
      then char_or_space (char_at (actualNumberStart - 1) text)
      else " "%char in
    let charAfterNumber :=
      if matchEnd <? String.length text
      then char_or_space (char_at matchEnd text)
      else " "%char in
    let isPartOfLargerNumber :=
      is_digit charBeforeNumber || is_digit charAfterNumber in
    if negb isPartOfLargerNumber then [mkBoundary num matchStart] else []
  else [].

(** Keep the labels that continue the sequence by +1..+3. *)
Fixpoint filter_sequential (lastAcceptedNumber : nat) (ms : list boundary)
  : list boundary :=
  match ms with
  | [] => []
  | m :: more =>
      if (lastAcceptedNumber + 1 <=? number m)
         && (number m <=? lastAcceptedNumber + 3)
      then m :: filter_sequential (number m) more
      else filter_sequential lastAcceptedNumber more
  end.

(** The slicing loop shared by the two-column and fallback strategies:
    entry [i] runs from its boundary to the next one, [strip] removes the
    leading label and [label i m] is the citation number handed to
    [parseReferenceText]. *)
Fixpoint slice_entries (text : string) (startPage : nat) (strip : regex)
         (label : nat -> boundary -> nat) (i : nat) (ms : list boundary)
  : list ExtractedReferenceWithIndex :=
  match ms with
  | [] => []
  | m :: more =>
      let startIdx := index m in
      let endIdx := match more with
                    | next :: _ => index next
                    | [] => String.length text
                    end in
      let refText := trim (substring startIdx endIdx text) in
      let refText := trim (replace_first strip (const_str EmptyString) refText) in
      let here :=
        if 20 <=? String.length refText then
          let reference :=
            parseReferenceText refText (label i m) startPage startIdx in
          if meaningful reference then [reference] else []
        else [] in
      here ++ slice_entries text startPage strip label (S i) more
  end.

Definition set_citation_number (n : nat) (r : ExtractedReferenceWithIndex)
  : ExtractedReferenceWithIndex :=
  mkExtracted (raw_text r) (title r) (authors r) (year r) (page_number r)
              (Some n) (relativeIndex r).

(** [results.forEach((ref, index) => { ref.citation_number = index + 1 })] *)
Fixpoint renumber (index : nat) (results : list ExtractedReferenceWithIndex)
  : list ExtractedReferenceWithIndex :=
  match results with
  | [] => []
  | ref :: more => set_citation_number (index + 1) ref :: renumber (S index) more
  end.

Definition extractTwoColumnReferences (text : string) (startPage : nat)
  : list ExtractedReferenceWithIndex :=
  let matches :=
    flat_map (two_column_candidate text) (matchAll two_column_pattern text) in
  let matches := Sorting.sort by_index matches in
  let filteredMatches := filter_sequential 0 matches in
  let results :=
    if 3 <=? length filteredMatches then
      slice_entries text startPage re_leading_number (fun i _ => i + 1) 0
                    filteredMatches
    else [] in
  renumber 0 results.

(** [/\n\n+/] *)
Definition re_blank_lines : regex := Chr LF >> Plus (Chr LF).

(** The [forEach] of [extractAuthorYearReferences], threading
    [currentIndex]. *)
Fixpoint author_year_entries (text : string) (startPage : nat)
         (currentIndex : nat) (index : nat) (entries : list string)
  : list ExtractedReferenceWithIndex :=
  match entries with
  | [] => []
  | entry :: more =>
      let trimmed := trim entry in
      if 50 <? String.length trimmed then
        match indexOf trimmed text currentIndex with
        | Some entryIndex =>
            let reference :=
              parseReferenceText trimmed (index + 1) startPage entryIndex in
            (if meaningful reference then [reference] else [])
            ++ author_year_entries text startPage
                 (entryIndex + String.length trimmed) (S index) more
        | None => author_year_entries text startPage currentIndex (S index) more
        end
      else author_year_entries text startPage currentIndex (S index) more
  end.

Definition extractAuthorYearReferences (text : string) (startPage : nat)
  : list ExtractedReferenceWithIndex :=
  author_year_entries text startPage 0 0 (split re_blank_lines text).

(** [/(?:^|\s)(\d+)[\.\)]\s+([A-Z])|(?:^|\s)\[(\d+)\]\s+/g] *)
Definition fallback_pattern : regex :=
  ((Bol <|> Space) >> Grp 1 (Plus Digit) >> Cls (one_of ".)") >> Plus Space >>
   Grp 2 (Cls is_upper))
  <|> ((Bol <|> Space) >> Chr "[" >> Grp 3 (Plus Digit) >> Chr "]" >> Plus Space).

(** [/^(\d+[\.\)]|\[\d+\])\s*/] *)
Definition re_leading_label : regex :=
  Bol >> Grp 1 ((Plus Digit >> Cls (one_of ".)"))
                <|> (Chr "[" >> Plus Digit >> Chr "]")) >>
  Star true Space.

(** [/\s(\d+)(?=\s*[A-Z])/g] *)
Definition sequential_pattern : regex :=
  Space >> Grp 1 (Plus Digit) >> Look true (Star true Space >> Cls is_upper).

Definition extractFallbackReferences (text : string) (startPage : nat)
  : list ExtractedReferenceWithIndex :=
  let matches :=
    flat_map
      (fun m =>
         let num := if truthy (group 1 m) then number_of (group 1 m)
                    else number_of (group 3 m) in
         if (1 <=? num) && (num <=? 1000)
         then [mkBoundary num (m_index m)] else [])
      (matchAll fallback_pattern text) in
  if 3 <=? length matches then
    slice_entries text startPage re_leading_label (fun _ m => number m) 0
                  (Sorting.sort by_index matches)
  else
    let seqMatches :=
      flat_map
        (fun seqMatch =>
           let num := number_of (group 1 seqMatch) in
           if (1 <=? num) && (num <=? 100)
           then [mkBoundary num (m_index seqMatch + 1)] else [])
        (matchAll sequential_pattern text) in
    if 3 <=? length seqMatches then
      slice_entries text startPage re_leading_number (fun _ m => number m) 0
                    (Sorting.sort by_index seqMatches)
    else [].

Definition extractReferencesWithRegex (bibliographyText : string)
           (startPage : nat) : list ExtractedReferenceWithIndex :=
  let normalizedText := normalizeBibliographyText bibliographyText in
  let bracketedRefs := extractBracketedReferences normalizedText startPage in
  if 3 <=? length bracketedRefs then bracketedRefs
  else
    let twoColumnRefs := extractTwoColumnReferences normalizedText startPage in
    if 3 <=? length twoColumnRefs then twoColumnRefs
    else
      let periodRefs := extractPeriodNumberedReferences normalizedText startPage in
      if 3 <=? length periodRefs then periodRefs
      else
        let authorYearRefs := extractAuthorYearReferences normalizedText startPage in
        if 3 <=? length authorYearRefs then authorYearRefs
        else extractFallbackReferences normalizedText startPage.

End RegexExtractor.

(* ================================================================= *)
(** ** types/reference.ts and types/validation.ts *)

Module Reference.
Record BoundingBox : Type := mkBox { x : Q; y : Q; width : Q; height : Q }.

Record t : Type := mk {
  id : string;
  raw_text : string;
  title : string;
  authors : list string;
  year : string;
  venue : string;
  doi : option string;
  urls : list string;
  page_number : option nat;
  bounding_box : option BoundingBox;
  citation_number : option nat
}.
End Reference.

Module RetrievedReferenceData.
Record t : Type := mk {
  title : string;
  authors : list string;
  year : string;
  venue : string;
  doi : option string;
  url : option string
}.
End RetrievedReferenceData.

Inductive ValidationStatus : Type :=
| verified | warning | error | unverified | pending.

Inductive SourceName : Type :=
| crossref | semantic_scholar | openalex | arxiv | web_search.

Inductive Step : Type := step_api | step_query_enhanced | step_web_search.

Module ValidationSource.
Record t : Type := mk {
  name : SourceName;
  found : bool;
  matchScore : Q;
  retrievedData : option RetrievedReferenceData.t;
  errors : list string;
  confidence : option Q;
  step : option Step
}.

(** [{ ...r, step: s }] *)
Definition with_step (s : Step) (r : t) : t :=
  mk (name r) (found r) (matchScore r) (retrievedData r) (errors r)
     (confidence r) (Some s).
End ValidationSource.

Inductive IssueType : Type :=
| title_mismatch | author_mismatch | year_mismatch
| doi_mismatch | venue_mismatch | not_found.

Inductive Severity : Type := sev_warning | sev_error.

Module ValidationIssue.
Record t : Type := mk {
  type : IssueType;
  severity : Severity;
  message : string;
  expected : string;
  found : string
}.
End ValidationIssue.

(** The fields [explanation] and [explanationData] of the source record
    only feed the display and are left out; the calls made while building
    them are kept (see [buildValidationExplanation]). *)
Module ValidationResult.
Record t : Type := mk {
  referenceId : string;
  status : ValidationStatus;
  sources : list ValidationSource.t;
  issues : list ValidationIssue.t;
  bestMatch : option RetrievedReferenceData.t
}.
End ValidationResult.

Module ValidationProgress.
Record t : Type := mk {
  total : nat;
  completed : nat;
  current : option string
}.
End ValidationProgress.

Inductive ValidationMode : Type := api_only | agent_based.
Inductive LLM : Type := openai | anthropic | gemini.

Module AppSettings.
Record t : Type := mk {
  mode : ValidationMode;
  enableCrossRef : bool;
  enableSemanticScholar : bool;
  enableOpenAlex : bool;
  enableArxiv : bool;
  rateLimitDelay : nat;
  preferredLLM : LLM;
  key_openai : string;
  key_anthropic : string;
  key_gemini : string;
  key_semanticScholar : string
}.

(** [apiKeys[preferredLLM]] *)
Definition llm_key (s : t) : string :=
  match preferredLLM s with
  | openai => key_openai s
  | anthropic => key_anthropic s
  | gemini => key_gemini s
  end.
End AppSettings.

(* ================================================================= *)
(** ** Effects: history, oracles and the monad of [async] functions *)

Module Effects.

(** The remote endpoints reached by the connectors. *)
Inductive Endpoint : Type :=
| CrossRefDOI | CrossRefSearch
| S2DOI | S2Arxiv | S2Search
| OpenAlexDOI | OpenAlexSearch
| ArxivId | ArxivSearch.

(** The injected capabilities of the staged orchestrator. *)
Inductive Capability : Type :=
| QueryEnhancement      (* retryAPIsWithEnhancedQueries *)
| WebSearch             (* searchWebForReference *)
| Explanation.          (* generateExplanation *)

Inductive Event : Type :=
| Requested (e : Endpoint) (arg : string)           (* a fetch was issued *)
| Invoked (c : Capability) (referenceId : string)   (* a capability was entered *)
| AskedLLM (c : Capability)                         (* an LLM or Perplexity call *)
| Slept (ms : nat)
| Progressed (p : ValidationProgress.t)             (* onProgress(p) *)
| Reported (r : ValidationResult.t).                (* onResult(r) *)

Definition History : Type := list Event.

(** What a remote call produces: a decoded payload or a thrown [Error]. *)
Inductive Fetch (A : Type) : Type :=
| Fetched (a : A)
| Failed (msg : string).
Arguments Fetched {A} a.
Arguments Failed {A} msg.

(** [{title, authors, year, description}] as decoded from the LLM's JSON,
    which nothing validates: [authors] and [year] may be missing. *)
Record EnhancedQuery : Type := mkQuery {
  q_title : string;
  q_authors : option (list string);
  q_year : option string;
  q_description : string
}.

(** The outside world.  A work is handed over already converted by the
    connector's [extract...Data]; every answer may depend on the history. *)
Record World : Type := mkWorld {
  lookup : Endpoint -> string -> History -> Fetch (option RetrievedReferenceData.t);
  candidates : Endpoint -> string -> History -> Fetch (list RetrievedReferenceData.t);
  llm_queries : Reference.t -> History -> Fetch (list EnhancedQuery);
  perplexity : Reference.t -> History -> Fetch (option RetrievedReferenceData.t);
  llm_explanation : Reference.t -> History -> Fetch string
}.

Inductive Outcome (A : Type) : Type :=
| Returned (a : A)
| Threw (msg : string).
Arguments Returned {A} a.
Arguments Threw {A} msg.

Definition M (A : Type) : Type := History -> Outcome A * History.

Definition ret {A} (a : A) : M A := fun h => (Returned a, h).

Definition bind {A B} (m : M A) (k : A -> M B) : M B :=
  fun h => match m h with
           | (Returned a, h') => k a h'
           | (Threw e, h') => (Threw e, h')
           end.

Definition throw {A} (msg : string) : M A := fun h => (Threw msg, h).

(** [try { m } catch (e) { handler(e) }] and [m.catch(handler)]. *)
Definition try_catch {A} (m : M A) (handler : string -> M A) : M A :=
  fun h => match m h with
           | (Returned a, h') => (Returned a, h')
           | (Threw e, h') => handler e h'
           end.

Definition emit (e : Event) : M unit := fun h => (Returned tt, h ++ [e]).

(** A remote call: the oracle answers from the history before the call. *)
Definition remote {A} (e : Event) (oracle : History -> Fetch A) : M A :=
  fun h => match oracle h with
           | Fetched a => (Returned a, h ++ [e])
           | Failed msg => (Threw msg, h ++ [e])
           end.

(** A function [(a) => void] handed in by a caller: a call returns or
    throws, and which of the two may depend on the events so far.  The
    value handed to it is not modified by the call. *)
Definition Callback (A : Type) : Type := A -> History -> Outcome unit.

(** [callback(a)]: the call is recorded, whatever comes of it. *)
Definition call {A} (record : A -> Event) (callback : Callback A) (a : A)
  : M unit :=
  fun h => (callback a h, h ++ [record a]).

(** A callback that returns normally at every call, such as a setter of
    the store. *)
Definition returning {A} : Callback A := fun _ _ => Returned tt.

End Effects.

Declare Scope monad_scope.
Delimit Scope monad_scope with monad.
Notation "x <- c1 ;; c2" := (Effects.bind c1 (fun x => c2))
  (at level 61, c1 at next level, right associativity) : monad_scope.
Notation "c1 ;;; c2" := (Effects.bind c1 (fun _ => c2))
  (at level 61, right associativity) : monad_scope.

(* ================================================================= *)
(** ** The source connectors *)

Module Connectors.

Import JS Regex Num StringMatching Effects.
Local Open Scope monad_scope.
Local Open Scope regex_scope.

Definition Work : Type := RetrievedReferenceData.t.

(** The source object every connector starts from. *)
Definition blank (n : SourceName) : ValidationSource.t :=
  ValidationSource.mk n false 0 None [] None None.

Definition not_found_in (n : SourceName) (msg : string) : ValidationSource.t :=
  ValidationSource.mk n false 0 None [msg] None None.

Definition found_with (n : SourceName) (data : Work) (score : Q)
  : ValidationSource.t :=
  ValidationSource.mk n true score (Some data) [] None None.

(** [str || null] as a condition, for [string | null]. *)
Definition present (o : option string) : bool :=
  match o with Some s => truthy s | None => false end.

Definition text_of (o : option string) : string :=
  match o with Some s => s | None => EmptyString end.

(** [(a.split(' ').pop() || a).toLowerCase()] *)
Definition last_word (a : string) : string :=
  toLowerCase (match pop (split_str " " a) with
               | Some w => or_else w a
               | None => a
               end).

Definition year_score (yearDiff : Z) : Q :=
  if (yearDiff =? 0)%Z then 1%Q
  else if (yearDiff =? 1)%Z then (9 # 10)%Q
  else if (yearDiff =? 2)%Z then (7 # 10)%Q
  else (3 # 10)%Q.

(** [calculateMatchScore] of the CrossRef, Semantic Scholar and OpenAlex
    connectors (three identical copies in the source).  The pair is
    [(score, weights)]. *)
Definition calculateMatchScore (reference : Reference.t) (retrieved : Work) : Q :=
  let acc := (0, 0)%Q in
  let acc :=
    if truthy (Reference.title reference)
       && truthy (RetrievedReferenceData.title retrieved)
    then
      let titleScore := titleSimilarity (Reference.title reference)
                          (RetrievedReferenceData.title retrieved) in
      (fst acc + titleScore * (5 # 10), snd acc + (5 # 10))%Q
    else acc in
  let acc :=
    if (0 <? length (Reference.authors reference))
       && (0 <? length (RetrievedReferenceData.authors retrieved))
    then
      let refLastNames := map last_word (Reference.authors reference) in
      let retLastNames := map last_word (RetrievedReferenceData.authors retrieved) in
      let matchCount :=
        length (filter (fun name =>
                          existsb (fun n => includes n name || includes name n)
                                  retLastNames)
                       refLastNames) in
      let authorScore :=
        (Q_of_nat matchCount
         / Q_of_nat (Nat.max (length refLastNames) (length retLastNames)))%Q in
      (fst acc + authorScore * (3 # 10), snd acc + (3 # 10))%Q
    else acc in
  let acc :=
    if truthy (Reference.year reference)
       && truthy (RetrievedReferenceData.year retrieved)
    then
      match parseInt (Reference.year reference),
            parseInt (RetrievedReferenceData.year retrieved) with
      | Some refYear, Some retYear =>
          let yearDiff := Z.abs (refYear - retYear) in
          (fst acc + year_score yearDiff * (2 # 10), snd acc + (2 # 10))%Q
      | _, _ => acc
      end
    else acc in
  if Qgt_bool (snd acc) 0 then (fst acc / snd acc)%Q else 0%Q.

(** The candidate loop of every [searchByTitle]: keep the first candidate
    whose score beats both the best so far and the threshold. *)
Fixpoint best_candidate (score_of : Work -> Q) (threshold : Q)
         (items : list Work) (bestMatch : option Work) (bestScore : Q)
  : option Work :=
  match items with
  | [] => bestMatch
  | item :: more =>
      let score := score_of item in
      if Qgt_bool score bestScore && Qgt_bool score threshold
      then best_candidate score_of threshold more (Some item) score
      else best_candidate score_of threshold more bestMatch bestScore
  end.

(** [/arxiv\.org\/(?:abs|pdf)\/(\d{4}\.\d{4,5})/] *)
Definition arxiv_number : regex :=
  Digit >> Digit >> Digit >> Digit >> Chr "." >>
  Digit >> Digit >> Digit >> Digit >> Opt Digit.
Definition re_arxiv_url : regex :=
  Lit "arxiv.org/" >> (Lit "abs" <|> Lit "pdf") >> Chr "/" >> Grp 1 arxiv_number.
(** [/arxiv[:\s]*(\d{4}\.\d{4,5})/i] *)
Definition re_arxiv_text : regex :=
  LitI "arxiv" >> Star true (Cls (fun c => is_char ":" c || is_space c)) >>
  Grp 1 arxiv_number.

(** [extractArxivId(reference)] of the Semantic Scholar and arXiv
    connectors. *)
Definition extractArxivId (reference : Reference.t) : option string :=
  let fix first_url (urls : list string) : option string :=
    match urls with
    | [] => None
    | url :: more =>
        match exec re_arxiv_url url with
        | Some m => Some (group 1 m)
        | None => first_url more
        end
    end in
  match first_url (Reference.urls reference) with
  | Some i => Some i
  | None =>
      match exec re_arxiv_text (Reference.raw_text reference) with
      | Some m => Some (group 1 m)
      | None => None
      end
  end.

(** [a.toLowerCase().split(' ').pop()] *)
Definition arxiv_last_word (a : string) : string :=
  match pop (split_str " " (toLowerCase a)) with
  | Some w => w
  | None => EmptyString
  end.

(** [calculateMatchScore] of the arXiv connector; a [NaN] year difference
    scores 0 and still adds its weight. *)
Definition arxiv_calculateMatchScore (reference : Reference.t) (retrieved : Work)
  : Q :=
  let acc := (0, 0)%Q in
  let acc :=
    if truthy (Reference.title reference)
       && truthy (RetrievedReferenceData.title retrieved)
    then
      (fst acc + stringSimilarity (Reference.title reference)
                   (RetrievedReferenceData.title retrieved) * (4 # 10),
       snd acc + (4 # 10))%Q
    else acc in
  let acc :=
    if (0 <? length (Reference.authors reference))
       && (0 <? length (RetrievedReferenceData.authors retrieved))
    then
      let refAuthors := new_Set (map arxiv_last_word (Reference.authors reference)) in
      let retAuthors :=
        new_Set (map arxiv_last_word (RetrievedReferenceData.authors retrieved)) in
      let intersection := filter (fun a => mem_string a retAuthors) refAuthors in
      (fst acc
       + (Q_of_nat (length intersection)
          / Q_of_nat (Nat.max (length refAuthors) (length retAuthors)))
         * (3 # 10),
       snd acc + (3 # 10))%Q
    else acc in
  let acc :=
    if truthy (Reference.year reference)
       && truthy (RetrievedReferenceData.year retrieved)
    then
      let yearPoints :=
        match parseInt (Reference.year reference),
              parseInt (RetrievedReferenceData.year retrieved) with
        | Some refYear, Some retYear =>
            let yearDiff := Z.abs (refYear - retYear) in
            if (yearDiff =? 0)%Z then 1%Q
            else if (yearDiff =? 1)%Z then (8 # 10)%Q else 0%Q
        | _, _ => 0%Q
        end in
      (fst acc + yearPoints * (2 # 10), snd acc + (2 # 10))%Q
    else acc in
  if Qgt_bool (snd acc) 0 then (fst acc / snd acc)%Q else 0%Q.

Section WithWorld.
Variable W : World.

(** A lookup that catches its own failures and answers [null]. *)
Definition quiet_lookup (e : Endpoint) (arg : string) : M (option Work) :=
  try_catch (remote (Requested e arg) (lookup W e arg))
            (fun _ => ret None).

(** A title search that catches its own failures and answers [null]. *)
Definition quiet_search (e : Endpoint) (query : string)
           (score_of : Work -> Q) (threshold : Q) : M (option Work) :=
  try_catch
    (items <- remote (Requested e query) (candidates W e query) ;;
     ret (if length items =? 0 then None
          else best_candidate score_of threshold items None 0))
    (fun _ => ret None).

(** crossrefValidator.ts *)
Definition crossref_searchByTitle (title : string) (authors : list string)
  : M (option Work) :=
  let query :=
    match authors with
    | firstAuthor :: _ =>
        let lastName :=
          match pop (split_str " " firstAuthor) with
          | Some w => or_else w firstAuthor
          | None => firstAuthor
          end in
        (title ++ " " ++ lastName)%string
    | [] => title
    end in
  quiet_search CrossRefSearch query
    (fun item => titleSimilarity title (RetrievedReferenceData.title item))
    (6 # 10).

Definition validateWithCrossRef (reference : Reference.t)
  : M ValidationSource.t :=
  try_catch
    (work <- (if present (Reference.doi reference)
              then quiet_lookup CrossRefDOI (text_of (Reference.doi reference))
              else ret None) ;;
     work <- (match work with
              | None =>
                  if truthy (Reference.title reference)
                  then crossref_searchByTitle (Reference.title reference)
                         (Reference.authors reference)
                  else ret None
              | Some _ => ret work
              end) ;;
     match work with
     | None => ret (not_found_in crossref "Reference not found in CrossRef")
     | Some work =>
         ret (found_with crossref work (calculateMatchScore reference work))
     end)
    (fun msg => ret (not_found_in crossref ("CrossRef API error: " ++ msg)%string)).

(** semanticScholarValidator.ts *)
Definition validateWithSemanticScholar (reference : Reference.t)
           (apiKey : string) : M ValidationSource.t :=
  try_catch
    (paper <- (if present (Reference.doi reference)
               then quiet_lookup S2DOI (text_of (Reference.doi reference))
               else ret None) ;;
     paper <- (match paper with
               | None =>
                   match extractArxivId reference with
                   | Some arxivId =>
                       if truthy arxivId then quiet_lookup S2Arxiv arxivId
                       else ret None
                   | None => ret None
                   end
               | Some _ => ret paper
               end) ;;
     paper <- (match paper with
               | None =>
                   if truthy (Reference.title reference)
                   then quiet_search S2Search (Reference.title reference)
                          (fun p => titleSimilarity (Reference.title reference)
                                      (RetrievedReferenceData.title p))
                          (6 # 10)
                   else ret None
               | Some _ => ret paper
               end) ;;
     match paper with
     | None =>
         ret (not_found_in semantic_scholar
                "Reference not found in Semantic Scholar")
     | Some paper =>
         ret (found_with semantic_scholar paper
                (calculateMatchScore reference paper))
     end)
    (fun msg => ret (not_found_in semantic_scholar
                       ("Semantic Scholar API error: " ++ msg)%string)).

(** openAlexValidator.ts *)
Definition validateWithOpenAlex (reference : Reference.t)
  : M ValidationSource.t :=
  try_catch
    (work <- (if present (Reference.doi reference)
              then quiet_lookup OpenAlexDOI (text_of (Reference.doi reference))
              else ret None) ;;
     work <- (match work with
              | None =>
                  if truthy (Reference.title reference)
                  then quiet_search OpenAlexSearch (Reference.title reference)
                         (fun w => titleSimilarity (Reference.title reference)
                                     (RetrievedReferenceData.title w))
                         (6 # 10)
                  else ret None
              | Some _ => ret work
              end) ;;
     match work with
     | None => ret (not_found_in openalex "Reference not found in OpenAlex")
     | Some work =>
         ret (found_with openalex work (calculateMatchScore reference work))
     end)
    (fun msg => ret (not_found_in openalex ("OpenAlex API error: " ++ msg)%string)).

(** arxivValidator.ts: its lookups let their failures escape to the
    connector's own [catch]. *)
Definition arxiv_lookupById (arxivId : string) : M (option Work) :=
  entries <- remote (Requested ArxivId arxivId) (candidates W ArxivId arxivId) ;;
  ret (match entries with
       | entry :: _ => Some entry
       | [] => None
       end).

Definition arxiv_searchByTitle (title : string) : M (option Work) :=
  let query := take 200 (normalizeString title) in
  entries <- remote (Requested ArxivSearch query) (candidates W ArxivSearch query) ;;
  ret (if length entries =? 0 then None
       else best_candidate
              (fun entry => stringSimilarity title (RetrievedReferenceData.title entry))
              (7 # 10) entries None 0).

Definition validateWithArxiv (reference : Reference.t) : M ValidationSource.t :=
  try_catch
    (entry <- (match extractArxivId reference with
               | Some arxivId =>
                   if truthy arxivId then arxiv_lookupById arxivId
                   else if truthy (Reference.title reference)
                        then arxiv_searchByTitle (Reference.title reference)
                        else ret None
               | None =>
                   if truthy (Reference.title reference)
                   then arxiv_searchByTitle (Reference.title reference)
                   else ret None
               end) ;;
     match entry with
     | None => ret (not_found_in arxiv "Reference not found in ArXiv")
     | Some entry =>
         ret (found_with arxiv entry (arxiv_calculateMatchScore reference entry))
     end)
    (fun msg => ret (not_found_in arxiv ("ArXiv API error: " ++ msg)%string)).

End WithWorld.

End Connectors.

(* ================================================================= *)
(** ** agents/webSearchAgent.ts *)

Module WebSearchAgent.

Import JS Num StringMatching AuthorNormalization Effects Connectors.
Local Open Scope monad_scope.

Definition calculateConfidence (reference : Reference.t) (retrieved : Work) : Q :=
  let acc := (0, 0)%Q in
  let acc :=
    if truthy (Reference.title reference)
       && truthy (RetrievedReferenceData.title retrieved)
    then
      let titleScore := titleSimilarity (Reference.title reference)
                          (RetrievedReferenceData.title retrieved) in
      (fst acc + titleScore * (5 # 10), snd acc + (5 # 10))%Q
    else acc in
  let acc :=
    if (0 <? length (Reference.authors reference))
       && (0 <? length (RetrievedReferenceData.authors retrieved))
    then
      let authorScore := compareAuthorLists (Reference.authors reference)
                           (RetrievedReferenceData.authors retrieved) in
      (fst acc + authorScore * (3 # 10), snd acc + (3 # 10))%Q
    else acc in
  let acc :=
    if truthy (Reference.year reference)
       && truthy (RetrievedReferenceData.year retrieved)
    then
      match parseInt (Reference.year reference),
            parseInt (RetrievedReferenceData.year retrieved) with
      | Some refYear, Some retYear =>
          let yearDiff := Z.abs (refYear - retYear) in
          (fst acc + year_score yearDiff * (2 # 10), snd acc + (2 # 10))%Q
      | _, _ => acc
      end
    else acc in
  if Qgt_bool (snd acc) 0 then (fst acc / snd acc)%Q else 0%Q.

(** The source object [searchWebForReference] starts from. *)
Definition web_blank (errors : list string) : ValidationSource.t :=
  ValidationSource.mk web_search false 0 None errors (Some 0%Q)
                      (Some step_web_search).

Section WithWorld.
Variable W : World.

(** [callPerplexityAPI] followed by
    [extractStructuredDataFromPerplexity]: the oracle answers with the
    structured record, with [null], or fails. *)
Definition searchWebForReference (reference : Reference.t)
           (settings : AppSettings.t) : M ValidationSource.t :=
  emit (Invoked WebSearch (Reference.id reference)) ;;;
  try_catch
    (extractedData <- remote (AskedLLM WebSearch) (perplexity W reference) ;;
     match extractedData with
     | None =>
         ret (web_blank
                ["Could not extract structured data from Perplexity response"])
     | Some extractedData =>
         let confidence := calculateConfidence reference extractedData in
         ret (ValidationSource.mk web_search (Qgt_bool confidence 0)
                confidence (Some extractedData) [] (Some confidence)
                (Some step_web_search))
     end)
    (fun msg => ret (web_blank [("Perplexity API error: " ++ msg)%string])).

End WithWorld.

End WebSearchAgent.

(* ================================================================= *)
(** ** agents/apiAgent.ts and agents/queryEnhancementAgent.ts *)

Module Agents.

Import JS Num Effects Connectors.
Local Open Scope monad_scope.

(** The object built by a [.catch] handler of the agents. *)
Definition rejected (n : SourceName) (step : option Step) (msg : string)
  : ValidationSource.t :=
  ValidationSource.mk n false 0 None [msg] None step.

(** [Promise.all(promises)]: the results in the order of the array. *)
Fixpoint all {A} (promises : list (M A)) : M (list A) :=
  match promises with
  | [] => ret []
  | p :: more => r <- p ;; rs <- all more ;; ret (r :: rs)
  end.

Section WithWorld.
Variable W : World.

(** The promises pushed for the enabled connectors, shared by the two
    agents; [step] is the tag the [.catch] handlers put on their object. *)
Definition enabled_promises (reference : Reference.t)
           (settings : AppSettings.t) (step : option Step)
  : list (M ValidationSource.t) :=
  (if AppSettings.enableCrossRef settings
   then [try_catch (validateWithCrossRef W reference)
                   (fun msg => ret (rejected crossref step msg))]
   else [])
  ++ (if AppSettings.enableSemanticScholar settings
      then [try_catch (validateWithSemanticScholar W reference
                         (AppSettings.key_semanticScholar settings))
                      (fun msg => ret (rejected semantic_scholar step msg))]
      else [])
  ++ (if AppSettings.enableOpenAlex settings
      then [try_catch (validateWithOpenAlex W reference)
                      (fun msg => ret (rejected openalex step msg))]
      else [])
  ++ (if AppSettings.enableArxiv settings
      then [try_catch (validateWithArxiv W reference)
                      (fun msg => ret (rejected arxiv step msg))]
      else []).

Definition validateWithAPIAgent (reference : Reference.t)
           (settings : AppSettings.t) : M (list ValidationSource.t) :=
  results <- all (enabled_promises reference settings None) ;;
  ret (map (ValidationSource.with_step step_api) results).

Definition fallback_query (reference : Reference.t) : list EnhancedQuery :=
  [mkQuery (or_else (Reference.title reference) EmptyString)
           (Some (Reference.authors reference))
           (Some (Reference.year reference))
           "Original query (fallback)"].

Definition enhanceQueriesWithLLM (reference : Reference.t)
           (settings : AppSettings.t) : M (list EnhancedQuery) :=
  if truthy (AppSettings.llm_key settings) then
    try_catch
      (parsed <- remote (AskedLLM QueryEnhancement) (llm_queries W reference) ;;
       ret (if 0 <? length parsed then parsed else fallback_query reference))
      (fun _ => ret (fallback_query reference))
  else ret (fallback_query reference).

Definition enhance (reference : Reference.t) (enhancedQuery : EnhancedQuery)
  : Reference.t :=
  let q_auth := match q_authors enhancedQuery with Some a => a | None => [] end in
  Reference.mk (Reference.id reference) (Reference.raw_text reference)
    (or_else (q_title enhancedQuery) (Reference.title reference))
    (if 0 <? length q_auth then q_auth else Reference.authors reference)
    (match q_year enhancedQuery with
     | Some y => or_else y (Reference.year reference)
     | None => Reference.year reference
     end)
    (Reference.venue reference) (Reference.doi reference)
    (Reference.urls reference) (Reference.page_number reference)
    (Reference.bounding_box reference) (Reference.citation_number reference).

(** The [for ... of] loop over the query variants, with its [break]. *)
Fixpoint try_queries (reference : Reference.t) (settings : AppSettings.t)
         (enhancedQueries : list EnhancedQuery)
         (allSources : list ValidationSource.t)
  : M (list ValidationSource.t) :=
  match enhancedQueries with
  | [] => ret allSources
  | enhancedQuery :: more =>
      let enhancedReference := enhance reference enhancedQuery in
      rs <- all (enabled_promises enhancedReference settings
                   (Some step_query_enhanced)) ;;
      let results := map (ValidationSource.with_step step_query_enhanced) rs in
      let allSources := allSources ++ results in
      let foundMatch :=
        existsb (fun r => ValidationSource.found r
                          && Qgt_bool (ValidationSource.matchScore r) (7 # 10))
                results in
      if foundMatch then ret allSources
      else try_queries reference settings more allSources
  end.

(** The summary logged before the loop reads [q.authors.slice(0, 2)] of
    every variant and throws a [TypeError] when [authors] is missing. *)
Definition retryAPIsWithEnhancedQueries (reference : Reference.t)
           (settings : AppSettings.t) : M (list ValidationSource.t) :=
  emit (Invoked QueryEnhancement (Reference.id reference)) ;;;
  enhancedQueries <- enhanceQueriesWithLLM reference settings ;;
  if existsb (fun q => match q_authors q with None => true | Some _ => false end)
             enhancedQueries
  then throw "Cannot read properties of undefined (reading 'slice')"
  else try_queries reference settings enhancedQueries [].

(** agents/explanationAgent.ts: the text of the explanation is built
    from the oracle's answer or from a template and is not kept. *)
Definition generateExplanation (reference : Reference.t)
           (settings : AppSettings.t) : M unit :=
  emit (Invoked Explanation (Reference.id reference)) ;;;
  if truthy (AppSettings.llm_key settings) then
    try_catch
      (_ <- remote (AskedLLM Explanation) (llm_explanation W reference) ;;
       ret tt)
      (fun _ => ret tt)
  else ret tt.

End WithWorld.

End Agents.

(* ================================================================= *)
(** ** The validation analyzer (both copies of [analyzeResults]) *)

Module Analyzer.

Import JS Num StringMatching AuthorNormalization.

Definition TITLE_MATCH_THRESHOLD : Q := 70 # 100.
Definition AUTHOR_MATCH_THRESHOLD : Q := 60 # 100.
Definition YEAR_TOLERANCE : Z := 1.
Definition WEB_SEARCH_CONFIDENCE_THRESHOLD : Q := 70 # 100.

Record Analysis : Type := mkAnalysis {
  status : ValidationStatus;
  issues : list ValidationIssue.t;
  bestMatch : option RetrievedReferenceData.t;
  confidence : Q
}.

Definition string_of_Z (z : Z) : string :=
  NilZero.string_of_int (Z.to_int z).

(** [x.toFixed(0)]: the nearest integer, ties away from zero. *)
Definition toFixed0 (x : Q) : string :=
  if Qle_bool 0 x then string_of_Z (Qfloor (x + (1 # 2)))
  else string_of_Z (- Qfloor (- x + (1 # 2))).

(** [(score * 100).toFixed(0)] *)
Definition percent (score : Q) : string := toFixed0 (score * 100).

(** [sources.filter(s => s.found && s.matchScore > 0)] *)
Definition found_sources (sources : list ValidationSource.t)
  : list ValidationSource.t :=
  filter (fun s => ValidationSource.found s
                   && Qgt_bool (ValidationSource.matchScore s) 0)
         sources.

(** The comparator [(a, b) => b.matchScore - a.matchScore] leaves [a] in
    front of [b] unless [b] scores strictly more. *)
Definition by_score_desc (a b : ValidationSource.t) : bool :=
  Qle_bool (ValidationSource.matchScore b) (ValidationSource.matchScore a).

(** The first element after sorting, [None] when nothing was found. *)
Definition best_source (sources : list ValidationSource.t)
  : option ValidationSource.t :=
  match Sorting.sort by_score_desc (found_sources sources) with
  | [] => None
  | bestSource :: _ => Some bestSource
  end.

Definition title_check (reference : Reference.t)
           (bestMatch : RetrievedReferenceData.t)
  : Q * list ValidationIssue.t :=
  let rt := Reference.title reference in
  let bt := RetrievedReferenceData.title bestMatch in
  if truthy rt && truthy bt then
    let titleScore := titleSimilarity rt bt in
    (titleScore,
     if Qlt_bool titleScore TITLE_MATCH_THRESHOLD then
       [ValidationIssue.mk title_mismatch
          (if Qlt_bool titleScore (5 # 10) then sev_error else sev_warning)
          ("Title similarity: " ++ percent titleScore ++ "%")%string rt bt]
     else [])
  else if truthy rt && negb (truthy bt) then (0%Q, [])
  else (1%Q, []).

Definition author_check (reference : Reference.t)
           (bestMatch : RetrievedReferenceData.t)
  : Q * list ValidationIssue.t :=
  let ra := Reference.authors reference in
  let ba := RetrievedReferenceData.authors bestMatch in
  if (0 <? length ra) && (0 <? length ba) then
    let authorScore := compareAuthorLists ra ba in
    (authorScore,
     if Qlt_bool authorScore AUTHOR_MATCH_THRESHOLD then
       [ValidationIssue.mk author_mismatch
          (if Qlt_bool authorScore (4 # 10) then sev_error else sev_warning)
          ("Author overlap: " ++ percent authorScore ++ "%")%string
          (join ", " ra) (join ", " ba)]
     else [])
  else (1%Q, []).

Definition year_check (reference : Reference.t)
           (bestMatch : RetrievedReferenceData.t)
  : bool * list ValidationIssue.t :=
  let ry := Reference.year reference in
  let byr := RetrievedReferenceData.year bestMatch in
  if truthy ry && truthy byr then
    match parseInt ry, parseInt byr with
    | Some refYear, Some matchYear =>
        let yearDiff := Z.abs (refYear - matchYear) in
        ((yearDiff <=? YEAR_TOLERANCE)%Z,
         if (0 <? yearDiff)%Z then
           [ValidationIssue.mk year_mismatch sev_warning
              ("Year difference: " ++ string_of_Z yearDiff ++ " year(s)")%string
              ry byr]
         else [])
    | _, _ => (true, [])
    end
  else (true, []).

Definition decide_status (titleScore authorScore : Q) (yearMatch : bool)
           (bestScore : Q) : ValidationStatus :=
  if Qge_bool titleScore TITLE_MATCH_THRESHOLD
     && Qge_bool authorScore AUTHOR_MATCH_THRESHOLD && yearMatch
  then verified
  else if Qge_bool titleScore TITLE_MATCH_THRESHOLD
          || Qge_bool authorScore AUTHOR_MATCH_THRESHOLD
  then (if Qge_bool titleScore (5 # 10) || Qge_bool authorScore (5 # 10)
        then warning else error)
  else if Qgt_bool bestScore (5 # 10) then warning
  else error.

(** From "Calculate detailed similarity scores" to the end, where the two
    copies of [analyzeResults] coincide. *)
Definition detailed (reference : Reference.t) (bestSource : ValidationSource.t)
           (bestMatch : RetrievedReferenceData.t)
           (issues : list ValidationIssue.t) : Analysis :=
  let '(titleScore, titleIssues) := title_check reference bestMatch in
  let '(authorScore, authorIssues) := author_check reference bestMatch in
  let '(yearMatch, yearIssues) := year_check reference bestMatch in
  let issues := issues ++ titleIssues ++ authorIssues ++ yearIssues in
  let confidence :=
    (titleScore * (5 # 10) + authorScore * (3 # 10)
     + (if yearMatch then 2 # 10 else 0))%Q in
  mkAnalysis
    (decide_status titleScore authorScore yearMatch
                   (ValidationSource.matchScore bestSource))
    issues (Some bestMatch) confidence.

End Analyzer.

(* ================================================================= *)
(** ** validation/agentValidationOrchestrator.ts *)

Module AgentValidationOrchestrator.

Import JS Num Effects Connectors Agents WebSearchAgent Analyzer.
Local Open Scope monad_scope.

Definition findBestMatch (sources : list ValidationSource.t)
  : option ValidationSource.t := best_source sources.

Definition is_web_search (n : SourceName) : bool :=
  match n with web_search => true | _ => false end.

Definition analyzeResults (reference : Reference.t)
           (sources : list ValidationSource.t) : Analysis :=
  match best_source sources with
  | None => mkAnalysis unverified [] None 0
  | Some bestSource =>
      match ValidationSource.retrievedData bestSource with
      | None => mkAnalysis unverified [] None 0
      | Some bestMatch =>
          match ValidationSource.confidence bestSource with
          | Some c =>
              if is_web_search (ValidationSource.name bestSource)
                 && Qgt_bool c 0
                 && Qlt_bool c WEB_SEARCH_CONFIDENCE_THRESHOLD
              then
                mkAnalysis warning
                  [ValidationIssue.mk not_found sev_warning
                     ("Web search found a possible match (" ++ percent c
                      ++ "% confidence). Treat this as unverified unless you confirm manually.")%string
                     (or_else (Reference.title reference) EmptyString)
                     (or_else (RetrievedReferenceData.title bestMatch) EmptyString)]
                  (Some bestMatch) c
              else detailed reference bestSource bestMatch []
          | None => detailed reference bestSource bestMatch []
          end
      end
  end.

Definition result_of (reference : Reference.t)
           (allSources : list ValidationSource.t) (a : Analysis)
  : ValidationResult.t :=
  ValidationResult.mk (Reference.id reference) (status a) allSources
                      (issues a) (bestMatch a).

Section WithWorld.
Variable W : World.

(** Only the unverified branch of [buildValidationExplanation] reaches
    out; the other branches build display data from their arguments. *)
Definition buildValidationExplanation (reference : Reference.t)
           (st : ValidationStatus) (settings : AppSettings.t) : M unit :=
  match st with
  | verified | warning | error => ret tt
  | unverified | pending => generateExplanation W reference settings
  end.

(** Analyze, explain and return: the tail shared by every exit. *)
Definition finalize (reference : Reference.t)
           (allSources : list ValidationSource.t) (settings : AppSettings.t)
  : M ValidationResult.t :=
  let a := analyzeResults reference allSources in
  buildValidationExplanation reference (status a) settings ;;;
  ret (result_of reference allSources a).

Definition strong (o : option ValidationSource.t) : bool :=
  match o with
  | Some m => Qgt_bool (ValidationSource.matchScore m) (7 # 10)
  | None => false
  end.

(** Step 3.  [searchWebForReference] and [finalize] do not throw, so the
    handler never runs; it resumes with the sources of step 2. *)
Definition web_search_step (reference : Reference.t)
           (allSources : list ValidationSource.t) (settings : AppSettings.t)
  : M ValidationResult.t :=
  after <-
    try_catch
      (webSearchResult <- searchWebForReference W reference settings ;;
       if ValidationSource.found webSearchResult then
         let allSources := allSources ++ [webSearchResult] in
         match ValidationSource.confidence webSearchResult with
         | Some c =>
             if negb (Qeq_bool c 0)
                && Qge_bool c WEB_SEARCH_CONFIDENCE_THRESHOLD
             then r <- finalize reference allSources settings ;; ret (inl r)
             else ret (inr allSources)
         | None => ret (inr allSources)
         end
       else ret (inr allSources))
      (fun _ => ret (inr allSources)) ;;
  match after with
  | inl r => ret r
  | inr allSources => finalize reference allSources settings
  end.

Definition validateReferenceWithAgents (reference : Reference.t)
           (settings : AppSettings.t) : M ValidationResult.t :=
  apiSources <- validateWithAPIAgent W reference settings ;;
  let allSources := apiSources in
  if strong (findBestMatch apiSources) then
    finalize reference allSources settings
  else
    enhancedSources <- retryAPIsWithEnhancedQueries W reference settings ;;
    let allSources := allSources ++ enhancedSources in
    if strong (findBestMatch enhancedSources) then
      finalize reference allSources settings
    else web_search_step reference allSources settings.

End WithWorld.

End AgentValidationOrchestrator.

(* ================================================================= *)
(** ** validation/validationOrchestrator.ts *)

Module ValidationOrchestrator.

Import JS Num Effects Connectors Analyzer.
Local Open Scope monad_scope.

Definition analyzeResults (reference : Reference.t)
           (sources : list ValidationSource.t) : Analysis :=
  match best_source sources with
  | None =>
      mkAnalysis unverified
        [ValidationIssue.mk not_found sev_warning
           "Reference not found in any database"
           (or_else (Reference.title reference) EmptyString) EmptyString]
        None 0
  | Some bestSource =>
      match ValidationSource.retrievedData bestSource with
      | None => mkAnalysis unverified [] None 0
      | Some bestMatch => detailed reference bestSource bestMatch []
      end
  end.

(** The result pushed by the [catch] of [validateAllReferences]. *)
Definition errorResult (reference : Reference.t) (msg : string)
  : ValidationResult.t :=
  ValidationResult.mk (Reference.id reference) unverified []
    [ValidationIssue.mk not_found sev_error
       ("Validation failed: " ++ msg)%string EmptyString EmptyString]
    None.

Section WithWorld.
Variable W : World.

(** One block of the api-only sequence: call, push, sleep. *)
Definition sequential_call (enabled : bool) (call : M ValidationSource.t)
           (delay : nat) (sources : list ValidationSource.t)
  : M (list ValidationSource.t) :=
  if enabled then
    sources <- try_catch
                 (result <- call ;;
                  ret (sources ++ [ValidationSource.with_step step_api result]))
                 (fun _ => ret sources) ;;
    emit (Slept delay) ;;;
    ret sources
  else ret sources.

Definition validateReference (reference : Reference.t)
           (settings : AppSettings.t) : M ValidationResult.t :=
  match AppSettings.mode settings with
  | agent_based =>
      AgentValidationOrchestrator.validateReferenceWithAgents W reference settings
  | api_only =>
      let delay := AppSettings.rateLimitDelay settings in
      sources <- sequential_call (AppSettings.enableCrossRef settings)
                   (validateWithCrossRef W reference) delay [] ;;
      sources <- sequential_call (AppSettings.enableSemanticScholar settings)
                   (validateWithSemanticScholar W reference
                      (AppSettings.key_semanticScholar settings))
                   delay sources ;;
      sources <- sequential_call (AppSettings.enableOpenAlex settings)
                   (validateWithOpenAlex W reference) delay sources ;;
      sources <- sequential_call (AppSettings.enableArxiv settings)
                   (validateWithArxiv W reference) delay sources ;;
      let a := analyzeResults reference sources in
      ret (ValidationResult.mk (Reference.id reference) (status a) sources
             (issues a) (bestMatch a))
  end.

(** The [catch] block of the loop: [results.push(errorResult);
    onResult(errorResult)].  Nothing guards this call of [onResult]. *)
Definition substitute (reference : Reference.t) (msg : string)
           (onResult : Callback ValidationResult.t)
           (results : list ValidationResult.t)
  : M (list ValidationResult.t) :=
  let results := results ++ [errorResult reference msg] in
  call Reported onResult (errorResult reference msg) ;;;
  ret results.

(** The [for] loop from index [i] on, [results] being the array as it is
    when the iteration starts.  [onProgress] is called outside the [try].
    The [try] block can be left by an exception at two places: in
    [validateReference], before anything was pushed, and in
    [onResult(result)], after [results.push(result)]; the array keeps what
    was pushed, so the [catch] block works on the array of that moment. *)
Fixpoint validate_from (total i : nat) (references : list Reference.t)
         (settings : AppSettings.t)
         (onProgress : Callback ValidationProgress.t)
         (onResult : Callback ValidationResult.t)
         (results : list ValidationResult.t)
  : M (list ValidationResult.t) :=
  match references with
  | [] => ret results
  | reference :: more =>
      call Progressed onProgress
           (ValidationProgress.mk total i
              (Some (or_else (Reference.title reference)
                       ("Reference " ++ Analyzer.string_of_Z (Z.of_nat (i + 1)))%string))) ;;;
      validated <- try_catch
                     (result <- validateReference reference settings ;;
                      ret (inl result))
                     (fun msg => ret (inr msg)) ;;
      results <- match validated with
                 | inl result =>
                     let results := results ++ [result] in
                     try_catch (call Reported onResult result ;;; ret results)
                               (fun msg =>
                                  substitute reference msg onResult results)
                 | inr msg => substitute reference msg onResult results
                 end ;;
      validate_from total (S i) more settings onProgress onResult results
  end.

Definition validateAllReferences (references : list Reference.t)
           (settings : AppSettings.t)
           (onProgress : Callback ValidationProgress.t)
           (onResult : Callback ValidationResult.t)
  : M (list ValidationResult.t) :=
  results <- validate_from (length references) 0 references settings
               onProgress onResult [] ;;
  call Progressed onProgress
       (ValidationProgress.mk (length references) (length references) None) ;;;
  ret results.

End WithWorld.

End ValidationOrchestrator.

(* ================================================================= *)
(** ** Readings of the specification and sample inputs *)

Module Reading.

Import JS Num StringMatching AuthorNormalization Effects Connectors Analyzer.

(** The overlap formula as the specification words it: the intersection
    of the two last-name sets over the smaller of the two list lengths. *)
Definition claimed_overlap (A B : list string) : Q :=
  if (length A =? 0) || (length B =? 0) then 0
  else
    let SA := new_Set (map extractLastName A) in
    let SB := new_Set (map extractLastName B) in
    Q_of_nat (length (filter (fun n => mem_string n SB) SA))
    / Q_of_nat (Nat.min (length A) (length B)).




(** The four status rules, in order. *)
Definition claimed_status (titleScore authorScore : Q) (yearMatch : bool)
           (bestScore : Q) : ValidationStatus :=
  if Qle_bool (70 # 100) titleScore && Qle_bool (60 # 100) authorScore && yearMatch
  then verified
  else if Qle_bool (70 # 100) titleScore || Qle_bool (60 # 100) authorScore
  then (if Qle_bool (5 # 10) titleScore || Qle_bool (5 # 10) authorScore
        then warning else error)
  else if Qlt_bool (5 # 10) bestScore then warning
  else error.


(** The web-search special case of the analyzer. *)
Definition web_special_case (best : ValidationSource.t) : bool :=
  match ValidationSource.confidence best with
  | Some c =>
      AgentValidationOrchestrator.is_web_search (ValidationSource.name best)
      && Qgt_bool c 0 && Qlt_bool c WEB_SEARCH_CONFIDENCE_THRESHOLD
  | None => false
  end.

(** The events that belong to the query-enhancement and web-search
    capabilities. *)
Definition escalation (e : Event) : bool :=
  match e with
  | Invoked QueryEnhancement _ | Invoked WebSearch _
  | AskedLLM QueryEnhancement | AskedLLM WebSearch => true
  | _ => false
  end.

(** What the claims read off an extracted entry. *)
Definition summary (r : RegexExtractor.ExtractedReferenceWithIndex)
  : option nat * string * string :=
  (RegexExtractor.citation_number r, RegexExtractor.title r,
   RegexExtractor.year r).

(** The cases in which [titleSimilarity] does not depend on the order of
    its arguments. *)
Definition order_free (a b : string) : bool :=
  String.eqb (normalizeTitle a) (normalizeTitle b)
  || (String.length (normalizeTitle a) =? 0)
  || (String.length (normalizeTitle b) =? 0)
  || includes (normalizeTitle a) (normalizeTitle b)
  || includes (normalizeTitle b) (normalizeTitle a)
  || Qeq_bool (tokenSimilarity a b) (tokenSimilarity b a).

End Reading.

Module Sample.

Import Effects.

Definition reference_of (title : string) (authors : list string) (year : string)
  : Reference.t :=
  Reference.mk "ref-1" EmptyString title authors year EmptyString None [] None None None.

Definition data_of (title : string) (authors : list string) (year : string)
  : RetrievedReferenceData.t :=
  RetrievedReferenceData.mk title authors year EmptyString None None.

Definition api_source (n : SourceName) (score : Q)
           (data : RetrievedReferenceData.t) : ValidationSource.t :=
  ValidationSource.mk n true score (Some data) [] None (Some step_api).

(** Two titles with a repeated word. *)
Definition repeated_title : string := "data data data mining".
Definition short_title : string := "mining data".
Definition repeated_reference : Reference.t := reference_of repeated_title [] EmptyString.
Definition short_data : RetrievedReferenceData.t := data_of short_title [] EmptyString.

(** Two titles without repeated words, sharing "network" and "pruning". *)
Definition swapped_short : string := "pruning network".
Definition swapped_long : string := "networks network pruning".

(** The bibliography of the specification's bracketed example, one with
    labels 5, 7, 9, and a two-column one with labels 1, 2, 4. *)
Definition bracketed_text : string :=
  "[1] Smith J. A Great Title. Journal X, 2020. [2] Doe A. Another Title. Conf Y, 2019.".
Definition gapped_brackets : string :=
  "[5] Smith J. A Great Title. Journal X, 2020. [7] Doe A. Another Title. Conf Y, 2019. [9] Roe B. A Third Title. Conf Z, 2018.".
Definition two_column_text : string :=
  "1J. Smith and A. Doe. A great title of the first paper. Journal X, 2020. 2A. Doe and B. Roe. Another title of the second paper. Conf Y, 2019. 4B. Roe and C. Poe. The title of the third paper here. Conf Z, 2018.".

Definition full_reference : Reference.t :=
  reference_of "Deep Learning" ["Y LeCun"; "Y Bengio"] "2015".
Definition full_data : RetrievedReferenceData.t :=
  data_of "Deep learning" ["Yann LeCun"; "Yoshua Bengio"] "2016".

(** Author lists sharing one last name twice. *)
Definition smiths : list string := ["John Smith"; "Jane Smith"].
Definition smith_doe : list string := ["Smith"; "Doe"].

Definition settings_of (m : ValidationMode) : AppSettings.t :=
  AppSettings.mk m true true true true 100 openai "sk-test" EmptyString EmptyString EmptyString.

(** A world in which nothing is ever found, Perplexity answers with an
    unrelated record and the LLM drops [authors] from its variants. *)
Definition unrelated_data : RetrievedReferenceData.t := data_of "xyz" [] EmptyString.
Definition barren : World :=
  mkWorld (fun _ _ _ => Fetched None) (fun _ _ _ => Fetched [])
          (fun _ _ => Fetched [mkQuery "abc" None None "variant"])
          (fun _ _ => Fetched (Some unrelated_data))
          (fun _ _ => Failed "unavailable").
Definition abc_reference : Reference.t := reference_of "abc" [] EmptyString.

(** A world whose searches return the record asked for. *)
Definition generous : World :=
  mkWorld (fun _ _ _ => Fetched None) (fun _ _ _ => Fetched [full_data])
          (fun _ _ => Failed "unavailable")
          (fun _ _ => Fetched None)
          (fun _ _ => Failed "unavailable").


(** A result callback that throws at its first call and returns at every
    later one, and a progress callback that throws. *)
Definition reported (e : Event) : bool :=
  match e with Reported _ => true | _ => false end.
Definition throws_once : Callback ValidationResult.t :=
  fun _ h => if existsb reported h then Returned tt
             else Threw "callback failed".
Definition throws_always : Callback ValidationProgress.t :=
  fun _ _ => Threw "callback failed".

End Sample.

(* ================================================================= *)
(** ** Auxiliary notions used by the proofs *)

Module Aux.

Import Effects.

(** The edit distance by recursion on the last characters of two
    prefixes, both given in reverse; [xs] plays the role of [b] and [ys]
    that of [a] in [levenshteinDistance]. *)
Fixpoint lev_spec (xs : list ascii) : list ascii -> nat :=
  fix inner (ys : list ascii) : nat :=
    match xs, ys with
    | [], _ => length ys
    | _, [] => length xs
    | x :: xs', y :: ys' =>
        if Ascii.eqb x y then lev_spec xs' ys'
        else Nat.min (lev_spec xs' ys' + 1)
                     (Nat.min (inner ys' + 1) (lev_spec xs' ys + 1))
    end.

(** The reversed prefixes of [pre_rev ++ s], from [pre] on. *)
Fixpoint prefixes_from (pre : list ascii) (s : string) : list (list ascii) :=
  pre :: match s with
         | EmptyString => []
         | String c s' => prefixes_from (c :: pre) s'
         end.

(** Every value an [async] computation returns satisfies [P]. *)
Definition returns {A} (m : M A) (P : A -> Prop) : Prop :=
  forall h a h', m h = (Returned a, h') -> P a.

(** The computation never throws. *)
Definition total {A} (m : M A) : Prop :=
  forall h, exists a h', m h = (Returned a, h').

(** The computation only appends events satisfying [P] to the history. *)
Definition appends {A} (P : Event -> Prop) (m : M A) : Prop :=
  forall h, exists new, snd (m h) = h ++ new /\ Forall P new.

(** The callback returns normally at every call. *)
Definition returns_normally {A} (callback : Callback A) : Prop :=
  forall a h, callback a h = Returned tt.

(** The contract of a source that was not found. *)
Definition absent_is_blank (s : ValidationSource.t) : Prop :=
  ValidationSource.found s = false ->
  ValidationSource.matchScore s == 0 /\ ValidationSource.retrievedData s = None.

(** How one entry of the result list of [validateAllReferences] relates
    to its reference: it carries the reference's id and is either what
    [validateReference] returned from some history or the substitute built
    from the exception it threw. *)
Definition accounts_for (W : World) (settings : AppSettings.t)
           (reference : Reference.t) (result : ValidationResult.t) : Prop :=
  ValidationResult.referenceId result = Reference.id reference
  /\ exists hi hi',
       ValidationOrchestrator.validateReference W reference settings hi
       = (Returned result, hi')
       \/ exists msg,
            ValidationOrchestrator.validateReference W reference settings hi
            = (Threw msg, hi')
            /\ result = ValidationOrchestrator.errorResult reference msg
            /\ ValidationResult.status result = unverified
            /\ ValidationResult.sources result = []
            /\ ValidationResult.bestMatch result = None
            /\ ValidationResult.issues result
               = [ValidationIssue.mk not_found sev_error
                    ("Validation failed: " ++ msg)%string EmptyString EmptyString].

End Aux.

(* ================================================================= *)
(** ** utils/stringMatching.ts: containment and word sets *)

Module WordSets.

Import JS Num StringMatching.

Definition containsNormalized (haystack needle : string) : bool :=
  includes (normalizeString haystack) (normalizeString needle).

(** The Jaccard measure of the two sets of words longer than two
    characters. *)
Definition wordSetSimilarity (a b : string) : Q :=
  let wordsA := new_Set (tokens a) in
  let wordsB := new_Set (tokens b) in
  if (length wordsA =? 0) || (length wordsB =? 0) then 0
  else
    let intersection :=
      new_Set (filter (fun w => mem_string w wordsB) wordsA) in
    let union := new_Set (wordsA ++ wordsB) in
    Q_of_nat (length intersection) / Q_of_nat (length union).

End WordSets.

(* ================================================================= *)
(** ** pdf/pdfExtractor.ts and the page range of
       utils/bibliographyDetector.ts *)

Module PdfExtractor.

Import JS Num.

Record PDFPage : Type := mkPage {
  pageNumber : nat;
  text : string;
  width : Q;
  height : Q;
  startIndex : nat;
  endIndex : nat
}.

Record PDFDocument : Type := mkDocument {
  numPages : nat;
  pages : list PDFPage;
  fullText : string
}.

(** A text item as pdf.js hands it over: its string and [transform[5]],
    the vertical position. *)
Record TextItem : Type := mkItem { str : string; transform5 : Q }.

(** One decoded page: its text items and its viewport at scale 1. *)
Record PageContent : Type := mkContent {
  items : list TextItem;
  viewport_width : Q;
  viewport_height : Q
}.

Definition NL : string := String "010"%char EmptyString.

(** The loop over the text items of a page. *)
Fixpoint page_text (its : list TextItem) (pageText : string) (lastY : option Q)
  : string :=
  match its with
  | [] => pageText
  | item :: more =>
      if negb (truthy (str item)) then page_text more pageText lastY
      else
        let moved :=
          match lastY with
          | Some y => Qgt_bool (Qabs (transform5 item - y)) 5
          | None => false
          end in
        let pageText :=
          if moved then (pageText ++ NL)%string
          else if (0 <? String.length pageText)
                  && negb (endsWith pageText " ")
                  && negb (endsWith pageText NL)
          then (pageText ++ " ")%string
          else pageText in
        page_text more (pageText ++ str item)%string (Some (transform5 item))
  end.

(** The loop over the pages, from page [i] on. *)
Fixpoint extract_pages (i : nat) (contents : list PageContent)
         (pages : list PDFPage) (fullText : string) (currentIndex : nat)
  : list PDFPage * string :=
  match contents with
  | [] => (pages, fullText)
  | page :: more =>
      let pageText := page_text (items page) EmptyString None in
      let startIndex := currentIndex in
      let endIndex := currentIndex + String.length pageText in
      extract_pages (S i) more
        (pages ++ [mkPage i pageText (viewport_width page)
                     (viewport_height page) startIndex endIndex])
        (fullText ++ pageText ++ NL ++ NL)%string
        (currentIndex + String.length pageText + 2)
  end.

(** [extractTextFromPDF], from the pages decoded by pdf.js. *)
Definition extractTextFromPDF (pdf : list PageContent) : PDFDocument :=
  let '(pages, fullText) := extract_pages 1 pdf [] EmptyString 0 in
  mkDocument (length pdf) pages fullText.

Definition getPageForIndex (pages : list PDFPage) (index : nat) : nat :=
  match find (fun page => (startIndex page <=? index)
                          && (index <? endIndex page + 2)) pages with
  | Some page => pageNumber page
  | None =>
      if 0 <? length pages then
        match nth_error pages (length pages - 1) with
        | Some page => pageNumber page
        | None => 1
        end
      else 1
  end.

(** The loop of [findPageRange], with its [break]. *)
Fixpoint page_range_loop (pages : list PDFPage) (startIndex endIndex : nat)
         (currentIndex startPage endPage : nat) : nat * nat :=
  match pages with
  | [] => (startPage, endPage)
  | page :: more =>
      let pageEndIndex := currentIndex + String.length (text page) + 2 in
      let startPage :=
        if (currentIndex <=? startIndex) && (startIndex <? pageEndIndex)
        then pageNumber page else startPage in
      if (currentIndex <=? endIndex) && (endIndex <=? pageEndIndex)
      then (startPage, pageNumber page)
      else page_range_loop more startIndex endIndex pageEndIndex startPage endPage
  end.

(** [findPageRange(pages, startIndex, endIndex, _)]: the pair
    [(startPage, endPage)]. *)
Definition findPageRange (pages : list PDFPage) (startIndex endIndex : nat)
  : nat * nat :=
  page_range_loop pages startIndex endIndex 0 1 (length pages).

End PdfExtractor.

(* ================================================================= *)
(** ** A JavaScript [Map] with string keys *)

Module JSMap.

(** The entries in insertion order; a key occurs at most once in a map
    built from [empty] by [set] and [delete]. *)
Definition t (V : Type) : Type := list (string * V).

Definition empty {V} : t V := [].

Fixpoint get {V} (k : string) (m : t V) : option V :=
  match m with
  | [] => None
  | (k', v) :: m' => if String.eqb k k' then Some v else get k m'
  end.

(** [m.set(k, v)]: an existing key keeps its place. *)
Fixpoint set {V} (k : string) (v : V) (m : t V) : t V :=
  match m with
  | [] => [(k, v)]
  | (k', v') :: m' =>
      if String.eqb k k' then (k, v) :: m' else (k', v') :: set k v m'
  end.

Definition delete {V} (k : string) (m : t V) : t V :=
  filter (fun e => negb (String.eqb k (fst e))) m.

Definition keys {V} (m : t V) : list string := map fst m.

Definition values {V} (m : t V) : list V := map snd m.

Definition size {V} (m : t V) : nat := length m.

End JSMap.

(* ================================================================= *)
(** ** server/index.ts: the rate limiting middleware *)

Module RateLimiter.

Definition RATE_LIMIT_WINDOW_MS : nat := 60 * 1000.
Definition RATE_LIMIT_MAX_REQUESTS : nat := 100.

Record ClientData : Type := mkClient { count : nat; resetTime : nat }.

Definition Counts : Type := JSMap.t ClientData.

(** One pass through the middleware for a request of [clientIp] at time
    [now]: [true] when [next()] is called, [false] for status 429, and
    the map [requestCounts] afterwards. *)
Definition rateLimit (clientIp : string) (now : nat) (requestCounts : Counts)
  : bool * Counts :=
  match JSMap.get clientIp requestCounts with
  | None =>
      (true, JSMap.set clientIp (mkClient 1 (now + RATE_LIMIT_WINDOW_MS))
               requestCounts)
  | Some clientData =>
      if resetTime clientData <? now then
        (true, JSMap.set clientIp (mkClient 1 (now + RATE_LIMIT_WINDOW_MS))
                 requestCounts)
      else if RATE_LIMIT_MAX_REQUESTS <=? count clientData then
        (false, requestCounts)
      else
        (true, JSMap.set clientIp
                 (mkClient (count clientData + 1) (resetTime clientData))
                 requestCounts)
  end.

End RateLimiter.

(* ================================================================= *)
(** ** store/appStore.ts and the validation handler of the reference list *)

Module AppStore.

Import JS Num Effects.

(** A [File] is known by its name; [createObjectURL] is the browser's. *)
Definition File : Type := string.

Inductive ExtractionMethod : Type := grobid | llm.


Record AppState : Type := mkState {
  pdfFile : option File;
  pdfUrl : option string;
  currentPage : nat;
  totalPages : nat;
  zoomLevel : Q;
  references : list Reference.t;
  selectedReferenceId : option string;
  bibliographyStartPage : nat;
  bibliographyEndPage : nat;
  extractionMethod : option ExtractionMethod;
  extractionError : option string;
  validationResults : JSMap.t ValidationResult.t;
  validationProgress : option ValidationProgress.t;
  isValidating : bool;
  settings : AppSettings.t;
  isSettingsOpen : bool;
  isExtracting : bool
}.


(** [set({ field: v })] for each field an action writes. *)
Definition with_pdfFile (v : option File) (s : AppState) : AppState :=
  mkState v (pdfUrl s) (currentPage s) (totalPages s) (zoomLevel s)
    (references s) (selectedReferenceId s) (bibliographyStartPage s)
    (bibliographyEndPage s) (extractionMethod s) (extractionError s)
    (validationResults s) (validationProgress s) (isValidating s)
    (settings s) (isSettingsOpen s) (isExtracting s).

Definition with_pdfUrl (v : option string) (s : AppState) : AppState :=
  mkState (pdfFile s) v (currentPage s) (totalPages s) (zoomLevel s)
    (references s) (selectedReferenceId s) (bibliographyStartPage s)
    (bibliographyEndPage s) (extractionMethod s) (extractionError s)
    (validationResults s) (validationProgress s) (isValidating s)
    (settings s) (isSettingsOpen s) (isExtracting s).

Definition with_currentPage (v : nat) (s : AppState) : AppState :=
  mkState (pdfFile s) (pdfUrl s) v (totalPages s) (zoomLevel s)
    (references s) (selectedReferenceId s) (bibliographyStartPage s)
    (bibliographyEndPage s) (extractionMethod s) (extractionError s)
    (validationResults s) (validationProgress s) (isValidating s)
    (settings s) (isSettingsOpen s) (isExtracting s).

Definition with_totalPages (v : nat) (s : AppState) : AppState :=
  mkState (pdfFile s) (pdfUrl s) (currentPage s) v (zoomLevel s)
    (references s) (selectedReferenceId s) (bibliographyStartPage s)
    (bibliographyEndPage s) (extractionMethod s) (extractionError s)
    (validationResults s) (validationProgress s) (isValidating s)
    (settings s) (isSettingsOpen s) (isExtracting s).

Definition with_zoomLevel (v : Q) (s : AppState) : AppState :=
  mkState (pdfFile s) (pdfUrl s) (currentPage s) (totalPages s) v
    (references s) (selectedReferenceId s) (bibliographyStartPage s)
    (bibliographyEndPage s) (extractionMethod s) (extractionError s)
    (validationResults s) (validationProgress s) (isValidating s)
    (settings s) (isSettingsOpen s) (isExtracting s).

Definition with_references (v : list Reference.t) (s : AppState) : AppState :=
  mkState (pdfFile s) (pdfUrl s) (currentPage s) (totalPages s) (zoomLevel s)
    v (selectedReferenceId s) (bibliographyStartPage s)
    (bibliographyEndPage s) (extractionMethod s) (extractionError s)
    (validationResults s) (validationProgress s) (isValidating s)
    (settings s) (isSettingsOpen s) (isExtracting s).

Definition with_selectedReferenceId (v : option string) (s : AppState)
  : AppState :=
  mkState (pdfFile s) (pdfUrl s) (currentPage s) (totalPages s) (zoomLevel s)
    (references s) v (bibliographyStartPage s)
    (bibliographyEndPage s) (extractionMethod s) (extractionError s)
    (validationResults s) (validationProgress s) (isValidating s)
    (settings s) (isSettingsOpen s) (isExtracting s).



Definition with_extractionError (v : option string) (s : AppState) : AppState :=
  mkState (pdfFile s) (pdfUrl s) (currentPage s) (totalPages s) (zoomLevel s)
    (references s) (selectedReferenceId s) (bibliographyStartPage s)
    (bibliographyEndPage s) (extractionMethod s) v
    (validationResults s) (validationProgress s) (isValidating s)
    (settings s) (isSettingsOpen s) (isExtracting s).

Definition with_validationResults (v : JSMap.t ValidationResult.t)
           (s : AppState) : AppState :=
  mkState (pdfFile s) (pdfUrl s) (currentPage s) (totalPages s) (zoomLevel s)
    (references s) (selectedReferenceId s) (bibliographyStartPage s)
    (bibliographyEndPage s) (extractionMethod s) (extractionError s)
    v (validationProgress s) (isValidating s)
    (settings s) (isSettingsOpen s) (isExtracting s).

Definition with_validationProgress (v : option ValidationProgress.t)
           (s : AppState) : AppState :=
  mkState (pdfFile s) (pdfUrl s) (currentPage s) (totalPages s) (zoomLevel s)
    (references s) (selectedReferenceId s) (bibliographyStartPage s)
    (bibliographyEndPage s) (extractionMethod s) (extractionError s)
    (validationResults s) v (isValidating s)
    (settings s) (isSettingsOpen s) (isExtracting s).

Definition with_isValidating (v : bool) (s : AppState) : AppState :=
  mkState (pdfFile s) (pdfUrl s) (currentPage s) (totalPages s) (zoomLevel s)
    (references s) (selectedReferenceId s) (bibliographyStartPage s)
    (bibliographyEndPage s) (extractionMethod s) (extractionError s)
    (validationResults s) (validationProgress s) v
    (settings s) (isSettingsOpen s) (isExtracting s).

Definition with_isSettingsOpen (v : bool) (s : AppState) : AppState :=
  mkState (pdfFile s) (pdfUrl s) (currentPage s) (totalPages s) (zoomLevel s)
    (references s) (selectedReferenceId s) (bibliographyStartPage s)
    (bibliographyEndPage s) (extractionMethod s) (extractionError s)
    (validationResults s) (validationProgress s) (isValidating s)
    (settings s) v (isExtracting s).

Definition with_isExtracting (v : bool) (s : AppState) : AppState :=
  mkState (pdfFile s) (pdfUrl s) (currentPage s) (totalPages s) (zoomLevel s)
    (references s) (selectedReferenceId s) (bibliographyStartPage s)
    (bibliographyEndPage s) (extractionMethod s) (extractionError s)
    (validationResults s) (validationProgress s) (isValidating s)
    (settings s) (isSettingsOpen s) v.

(** [Partial<Reference>]: the fields an update carries. *)
Record ReferenceUpdates : Type := mkUpdates {
  u_id : option string;
  u_raw_text : option string;
  u_title : option string;
  u_authors : option (list string);
  u_year : option string;
  u_venue : option string;
  u_doi : option (option string);
  u_urls : option (list string);
  u_page_number : option (option nat);
  u_bounding_box : option (option Reference.BoundingBox);
  u_citation_number : option (option nat)
}.

Definition given {A} (update : option A) (old : A) : A :=
  match update with Some v => v | None => old end.

(** [{ ...ref, ...updates }] *)
Definition merge (ref : Reference.t) (updates : ReferenceUpdates)
  : Reference.t :=
  Reference.mk
    (given (u_id updates) (Reference.id ref))
    (given (u_raw_text updates) (Reference.raw_text ref))
    (given (u_title updates) (Reference.title ref))
    (given (u_authors updates) (Reference.authors ref))
    (given (u_year updates) (Reference.year ref))
    (given (u_venue updates) (Reference.venue ref))
    (given (u_doi updates) (Reference.doi ref))
    (given (u_urls updates) (Reference.urls ref))
    (given (u_page_number updates) (Reference.page_number ref))
    (given (u_bounding_box updates) (Reference.bounding_box ref))
    (given (u_citation_number updates) (Reference.citation_number ref)).

Section Actions.
Variable createObjectURL : File -> string.

(** The old object URL is revoked, which the state does not show. *)
Definition setPdfFile (file : option File) (s : AppState) : AppState :=
  let newUrl := match file with
                | Some f => Some (createObjectURL f)
                | None => None
                end in
  with_currentPage 1
    (with_extractionError None
       (with_validationResults JSMap.empty
          (with_selectedReferenceId None
             (with_references []
                (with_pdfUrl newUrl (with_pdfFile file s)))))).

End Actions.

Definition setCurrentPage (page : nat) : AppState -> AppState :=
  with_currentPage page.
Definition setTotalPages (pages : nat) : AppState -> AppState :=
  with_totalPages pages.
Definition setZoomLevel (level : Q) : AppState -> AppState :=
  with_zoomLevel level.


Definition setExtractionError (error : option string) : AppState -> AppState :=
  with_extractionError error.

Definition selectReference (id : option string) : AppState -> AppState :=
  with_selectedReferenceId id.

(** [references.find(r => r.id === selectedReferenceId) || null] *)
Definition getSelectedReference (s : AppState) : option Reference.t :=
  match selectedReferenceId s with
  | Some id => find (fun r => String.eqb (Reference.id r) id) (references s)
  | None => None
  end.

Definition updateReference (id : string) (updates : ReferenceUpdates)
           (s : AppState) : AppState :=
  let updatedRefs :=
    map (fun ref => if String.eqb (Reference.id ref) id
                    then merge ref updates else ref)
        (references s) in
  let newResults := JSMap.delete id (validationResults s) in
  with_validationResults newResults (with_references updatedRefs s).

Definition setValidationResult (result : ValidationResult.t) (s : AppState)
  : AppState :=
  let newResults :=
    JSMap.set (ValidationResult.referenceId result) result
              (validationResults s) in
  with_validationResults newResults s.



Definition setSettingsOpen (open : bool) : AppState -> AppState :=
  with_isSettingsOpen open.

Definition setIsExtracting (extracting : bool) : AppState -> AppState :=
  with_isExtracting extracting.

Definition reset (s : AppState) : AppState :=
  with_isExtracting false
    (with_extractionError None
       (with_isValidating false
          (with_validationProgress None
             (with_validationResults JSMap.empty
                (with_selectedReferenceId None
                   (with_references []
                      (with_totalPages 0
                         (with_currentPage 1
                            (with_pdfUrl None (with_pdfFile None s)))))))))).



End AppStore.

(* ================================================================= *)
(** ** Runs and further notions used by the proofs *)

Module Runs.

Import Effects RateLimiter.

(** The requests of a run, in order of arrival, each with its address and
    its time; the answers and the final map. *)
Fixpoint serve (requests : list (string * nat)) (requestCounts : Counts)
  : list bool * Counts :=
  match requests with
  | [] => ([], requestCounts)
  | (clientIp, now) :: more =>
      let '(passed, requestCounts) := rateLimit clientIp now requestCounts in
      let '(answers, requestCounts) := serve more requestCounts in
      (passed :: answers, requestCounts)
  end.

(** How many requests of [clientIp] a run lets through. *)
Fixpoint passed_through (clientIp : string) (requests : list (string * nat))
         (requestCounts : Counts) : nat :=
  match requests with
  | [] => 0
  | (ip, now) :: more =>
      let '(passed, requestCounts) := rateLimit ip now requestCounts in
      (if passed && String.eqb ip clientIp then 1 else 0)
      + passed_through clientIp more requestCounts
  end.

(** The events that record the calls of the two callbacks of
    [validateAllReferences]. *)
Definition is_callback (e : Event) : bool :=
  match e with
  | Progressed _ | Reported _ => true
  | _ => false
  end.

End Runs.

(* ================================================================= *)
(** ** Shapes of results and of runs used by the further proofs *)

Module Shapes.

Import RegexExtractor Effects Runs.

(** A list of labels that starts above [prev] and climbs by one to three
    at every step. *)
Fixpoint climbs (prev : nat) (labels : list nat) : Prop :=
  match labels with
  | [] => True
  | n :: more => prev + 1 <= n /\ n <= prev + 3 /\ climbs n more
  end.

(** What every entry handed out by the parser satisfies, whatever the
    strategy that produced it. *)
Definition well_formed (startPage : nat) (r : ExtractedReferenceWithIndex)
  : Prop :=
  page_number r = Some startPage
  /\ length (authors r) <= 10
  /\ citation_number r <> None
  /\ (year r = EmptyString \/ plausible_year (year r) = true).

(** The state of the candidate loop of a title search after the
    candidates [seen]. *)
Definition loop_state (score_of : RetrievedReferenceData.t -> Q) (threshold : Q)
           (seen : list RetrievedReferenceData.t)
           (bestMatch : option RetrievedReferenceData.t) (bestScore : Q)
  : Prop :=
  match bestMatch with
  | None => (bestScore == 0 /\ forall x, In x seen -> score_of x <= threshold)%Q
  | Some b =>
      (bestScore == score_of b /\ In b seen /\ threshold < score_of b
       /\ forall x, In x seen -> score_of x <= score_of b)%Q
  end.

(** The running pair (score, weights) of a weighted mean whose parts lie
    within 0 and 1. *)
Definition balanced (acc : Q * Q) : Prop :=
  (0 <= fst acc /\ fst acc <= snd acc)%Q.

(** The analyzer that serves a validation mode. *)
Definition analyzer_of (mode : ValidationMode)
  : Reference.t -> list ValidationSource.t -> Analyzer.Analysis :=
  match mode with
  | api_only => ValidationOrchestrator.analyzeResults
  | agent_based => AgentValidationOrchestrator.analyzeResults
  end.

(** A run of [m], from whatever history, ends with an outcome and with
    new events that together satisfy [Q]. *)
Definition yields {A} (m : M A) (Q : Outcome A -> list Event -> Prop) : Prop :=
  forall h, exists o new, m h = (o, h ++ new) /\ Q o new.

Definition is_request (e : Event) : bool :=
  match e with Requested _ _ => true | _ => false end.

Definition is_sleep (e : Event) : bool :=
  match e with Slept _ => true | _ => false end.

Definition is_explanation (e : Event) : bool :=
  match e with
  | Invoked Explanation _ | AskedLLM Explanation => true
  | _ => false
  end.

(** What the connector of the database [n] returns. *)
Definition source_of (n : SourceName) (s : ValidationSource.t) : Prop :=
  ValidationSource.name s = n
  /\ Aux.absent_is_blank s
  /\ (ValidationSource.found s = true ->
      ValidationSource.retrievedData s <> None
      /\ ValidationSource.errors s = []).

(** The databases enabled in the settings, in the order in which both
    orchestrators call them. *)
Definition enabled_names (settings : AppSettings.t) : list SourceName :=
  (if AppSettings.enableCrossRef settings then [crossref] else [])
  ++ (if AppSettings.enableSemanticScholar settings
      then [semantic_scholar] else [])
  ++ (if AppSettings.enableOpenAlex settings then [openalex] else [])
  ++ (if AppSettings.enableArxiv settings then [arxiv] else []).

(** The sources one round over the enabled connectors returns, once
    tagged with [st]. *)
Definition round_of (settings : AppSettings.t) (st : Step)
           (sources : list ValidationSource.t) : Prop :=
  map ValidationSource.name sources = enabled_names settings
  /\ Forall (fun s => ValidationSource.step s = Some st
                      /\ Aux.absent_is_blank s
                      /\ (ValidationSource.found s = true ->
                          ValidationSource.retrievedData s <> None))
            sources.

(** The second stage when the LLM contributes no variant: one round over
    the enabled connectors with the reference as it is. *)
Definition plain_retry (W : World) (reference : Reference.t)
           (settings : AppSettings.t) : M (list ValidationSource.t) :=
  (emit (Invoked QueryEnhancement (Reference.id reference)) ;;;
   rs <- Agents.all (Agents.enabled_promises W reference settings
                       (Some step_query_enhanced)) ;;
   ret (map (ValidationSource.with_step step_query_enhanced) rs))%monad.

(** Whether the new events of a run hold an entry into the explanation
    capability for the reference [id], against the status of the result:
    the two go together, and a run that throws holds no such entry. *)
Definition explains (id : string) (o : Outcome ValidationResult.t)
           (new : list Event) : Prop :=
  match o with
  | Returned result =>
      In (Invoked Explanation id) new
      <-> ValidationResult.status result = unverified
  | Threw _ => ~ In (Invoked Explanation id) new
  end.

(** The same for the intermediate value of the web-search step, which is
    a finished result or the sources to analyze. *)
Definition explains_or_defers (id : string)
           (o : Outcome (ValidationResult.t + list ValidationSource.t))
           (new : list Event) : Prop :=
  match o with
  | Returned (inl result) =>
      In (Invoked Explanation id) new
      <-> ValidationResult.status result = unverified
  | Returned (inr _) => ~ In (Invoked Explanation id) new
  | Threw _ => False
  end.

(** What the api-only sequence has done after calling the connectors
    [names] with the sources [before] in hand: it holds [before] followed
    by one source per connector, each tagged [api], and it has issued
    requests and slept [delay] once after every call. *)
Definition sequence_post (names : list SourceName) (delay : nat)
           (before : list ValidationSource.t)
           (o : Outcome (list ValidationSource.t)) (new : list Event) : Prop :=
  exists added,
    o = Returned (before ++ added)
    /\ map ValidationSource.name added = names
    /\ Forall (fun s => ValidationSource.step s = Some step_api
                        /\ Aux.absent_is_blank s
                        /\ (ValidationSource.found s = true ->
                            ValidationSource.retrievedData s <> None))
              added
    /\ Forall (fun e => is_request e = true \/ e = Slept delay) new
    /\ filter is_sleep new = map (fun _ => Slept delay) names.

(** The result the api-only branch of [validateReference] builds from
    its sources. *)
Definition api_only_result (reference : Reference.t)
           (sources : list ValidationSource.t) : ValidationResult.t :=
  let a := ValidationOrchestrator.analyzeResults reference sources in
  ValidationResult.mk (Reference.id reference) (Analyzer.status a) sources
                      (Analyzer.issues a) (Analyzer.bestMatch a).

(** The calls of the two callbacks that [validateAllReferences] makes
    for the references from index [i] on, given the results it obtained:
    progress before each reference, then its result. *)
Fixpoint callbacks (total i : nat) (references : list Reference.t)
         (results : list ValidationResult.t) : list Event :=
  match references, results with
  | reference :: references', result :: results' =>
      Progressed
        (ValidationProgress.mk total i
           (Some (JS.or_else (Reference.title reference)
                    ("Reference "
                     ++ Analyzer.string_of_Z (Z.of_nat (i + 1)))%string)))
      :: Reported result
      :: callbacks total (S i) references' results'
  | _, _ => []
  end.

End Shapes.

(* ================================================================= *)
(** ** Notions used by the proofs about the store, the server and the
       page layout *)

Module StoreShapes.

Import JS AppStore RateLimiter PdfExtractor.

(** Filing a list of results, the later ones over the earlier ones. *)
Definition file_all (results : list ValidationResult.t)
           (m : JSMap.t ValidationResult.t) : JSMap.t ValidationResult.t :=
  fold_left (fun m r => JSMap.set (ValidationResult.referenceId r) r m)
            results m.

(** What [handleValidateAll] leaves in the store after the results
    [results] came back for the references of [s]. *)
Definition validated (s : AppState) (results : list ValidationResult.t)
           (s' : AppState) : Prop :=
  isValidating s' = false
  /\ validationProgress s' = None
  /\ references s' = references s
  /\ validationResults s' = file_all results (validationResults s)
  /\ (forall reference, In reference (references s) ->
        exists r,
          JSMap.get (Reference.id reference) (validationResults s') = Some r
          /\ ValidationResult.referenceId r = Reference.id reference)
  /\ (NoDup (map Reference.id (references s)) ->
      forall r, In r results ->
        JSMap.get (ValidationResult.referenceId r) (validationResults s')
        = Some r).

(** What the map of the rate limiter holds for [clientIp] after the
    requests [seen], counted from an empty map: nothing if the client sent
    no request, and otherwise a count from 1 to the maximum and a reset
    time one window after one of the client's requests. *)
Definition accounted (seen : list (string * nat)) (requestCounts : Counts)
           (clientIp : string) : Prop :=
  match JSMap.get clientIp requestCounts with
  | Some clientData =>
      1 <= count clientData /\ count clientData <= RATE_LIMIT_MAX_REQUESTS
      /\ exists now, In (clientIp, now) seen
                     /\ resetTime clientData = now + RATE_LIMIT_WINDOW_MS
  | None => forall now, ~ In (clientIp, now) seen
  end.

(** The pages [extractTextFromPDF] builds from page [i] on when the text
    so far is [currentIndex] characters long. *)
Fixpoint pages_from (i currentIndex : nat) (contents : list PageContent)
  : list PDFPage :=
  match contents with
  | [] => []
  | page :: more =>
      let pageText := page_text (items page) EmptyString None in
      mkPage i pageText (viewport_width page) (viewport_height page)
             currentIndex (currentIndex + String.length pageText)
      :: pages_from (S i) (currentIndex + String.length pageText + 2) more
  end.

(** The text of the pages, each followed by two line feeds. *)
Fixpoint document_text (pages : list PDFPage) : string :=
  match pages with
  | [] => EmptyString
  | page :: more => (text page ++ NL ++ NL ++ document_text more)%string
  end.

(** Pages numbered from [i] whose offsets tile a text from [offset] on,
    two separator characters after each page. *)
Fixpoint laid_out (i offset : nat) (pages : list PDFPage) : Prop :=
  match pages with
  | [] => True
  | page :: more =>
      pageNumber page = i
      /\ startIndex page = offset
      /\ endIndex page = offset + String.length (text page)
      /\ laid_out (S i) (endIndex page + 2) more
  end.

(** The test of [getPageForIndex]. *)
Definition holds_index (index : nat) (page : PDFPage) : bool :=
  (startIndex page <=? index) && (index <? endIndex page + 2).

End StoreShapes.

(* ================================================================= *)
(** * Properties *)

(** ** Comparisons on scores *)

Module NumFacts.

Import Num.
Local Open Scope Q_scope.

Lemma Qgt_bool_iff (a b : Q) : Qgt_bool a b = true <-> b < a.
Proof.
  unfold Qgt_bool, Qlt_bool. rewrite negb_true_iff.
  split; intro H.
  - apply Qnot_le_lt. intro L. apply Qle_bool_iff in L. congruence.
  - destruct (Qle_bool a b) eqn:E; [|reflexivity].
    apply Qle_bool_iff in E. exfalso. exact (Qlt_not_le _ _ H E).
Qed.

Lemma Qlt_bool_iff (a b : Q) : Qlt_bool a b = true <-> a < b.
Proof. exact (Qgt_bool_iff b a). Qed.

Lemma Qge_bool_iff (a b : Q) : Qge_bool a b = true <-> b <= a.
Proof. unfold Qge_bool. apply Qle_bool_iff. Qed.

Lemma Q_of_nat_nonneg (n : nat) : 0 <= Q_of_nat n.
Proof. unfold Q_of_nat, Qle. simpl. lia. Qed.

Lemma Q_of_nat_pos (n : nat) : (0 < n)%nat -> 0 < Q_of_nat n.
Proof. intro H. unfold Q_of_nat, Qlt. simpl. lia. Qed.

Lemma Q_of_nat_le (n m : nat) : (n <= m)%nat -> Q_of_nat n <= Q_of_nat m.
Proof. intro H. unfold Q_of_nat, Qle. simpl. lia. Qed.

(** A ratio of naturals with a dominated numerator lies in the unit
    interval. *)
Lemma ratio_in_unit (n m : nat) :
  (n <= m)%nat -> (0 < m)%nat ->
  0 <= Q_of_nat n / Q_of_nat m /\ Q_of_nat n / Q_of_nat m <= 1.
Proof.
  intros Hle Hpos.
  pose proof (Q_of_nat_pos m Hpos) as Hm.
  split.
  - apply Qle_shift_div_l; [exact Hm|].
    rewrite Qmult_0_l. apply Q_of_nat_nonneg.
  - apply Qle_shift_div_r; [exact Hm|].
    rewrite Qmult_1_l. apply Q_of_nat_le, Hle.
Qed.

Lemma ratio_self (m : nat) : (0 < m)%nat -> Q_of_nat m / Q_of_nat m == 1.
Proof.
  intro Hpos. apply Qmult_inv_r.
  intro E. pose proof (Q_of_nat_pos m Hpos) as Hm.
  rewrite E in Hm. exact (Qlt_irrefl 0 Hm).
Qed.

End NumFacts.

(** ** String matching: scores above one (C1) *)

Module StringMatchingFacts.

Import JS Num StringMatching Connectors Analyzer Sample.
Local Open Scope Q_scope.

(** C1 (the code departs from the claim).  On the titles
    "data data data mining" and "mining data" the token pass counts the
    repeated word three times against two distinct tokens:
    [tokenSimilarity], [combinedSimilarity] and [titleSimilarity] all
    return 2, the connectors' match score for a reference carrying only
    that title is 2, and the analyzer's confidence is 3/2; none of them
    lies in the closed interval from 0 to 1. *)
Theorem similarity_scores_exceed_one :
  tokenSimilarity repeated_title short_title == 2
  /\ combinedSimilarity repeated_title short_title == 2
  /\ titleSimilarity repeated_title short_title == 2
  /\ calculateMatchScore repeated_reference short_data == 2
  /\ confidence (AgentValidationOrchestrator.analyzeResults repeated_reference
                   [api_source crossref
                      (calculateMatchScore repeated_reference short_data)
                      short_data]) == 3 # 2
  /\ confidence (ValidationOrchestrator.analyzeResults repeated_reference
                   [api_source crossref
                      (calculateMatchScore repeated_reference short_data)
                      short_data]) == 3 # 2
  /\ ~ titleSimilarity repeated_title short_title <= 1.
Proof.
  repeat split; try (vm_compute; reflexivity).
  vm_compute. intro H. apply H. reflexivity.
Qed.

End StringMatchingFacts.

(** ** The edit distance is symmetric; symmetry of [titleSimilarity] (C8) *)

Module SymmetryFacts.

Import JS Num StringMatching Aux Reading Sample.
Local Open Scope Q_scope.

Lemma lev_spec_sym (xs ys : list ascii) : lev_spec xs ys = lev_spec ys xs.
Proof.
  revert ys. induction xs as [|x xs IHxs]; intro ys.
  - destruct ys; reflexivity.
  - induction ys as [|y ys IHys]; [reflexivity|].
    cbn [lev_spec]. rewrite (Ascii.eqb_sym y x).
    destruct (Ascii.eqb x y).
    + apply IHxs.
    + rewrite (IHxs ys), (IHxs (y :: ys)).
      change ((fix inner (ys0 : list ascii) : nat :=
                 match ys0 with
                 | [] => length (x :: xs)
                 | y0 :: ys' =>
                     if Ascii.eqb x y0 then lev_spec xs ys'
                     else Nat.min (lev_spec xs ys' + 1)
                            (Nat.min (inner ys' + 1) (lev_spec xs ys0 + 1))
                 end) ys) with (lev_spec (x :: xs) ys).
      rewrite IHys. cbn [lev_spec]. lia.
Qed.

Lemma lev_spec_cons (x y : ascii) (xs ys : list ascii) :
  lev_spec (x :: xs) (y :: ys)
  = if Ascii.eqb x y then lev_spec xs ys
    else Nat.min (lev_spec xs ys + 1)
           (Nat.min (lev_spec (x :: xs) ys + 1) (lev_spec xs (y :: ys) + 1)).
Proof. reflexivity. Qed.

Lemma lev_spec_nil_r (xs : list ascii) : lev_spec xs [] = length xs.
Proof. destruct xs; reflexivity. Qed.

Lemma prefixes_from_head (pre : list ascii) (s : string) :
  prefixes_from pre s = pre :: tl (prefixes_from pre s).
Proof. destruct s; reflexivity. Qed.

Lemma map_prefixes {B} (f : list ascii -> B) (pre : list ascii) (s : string) :
  map f (prefixes_from pre s) = f pre :: map f (tl (prefixes_from pre s)).
Proof. destruct s; reflexivity. Qed.

(** One application of [lev_row] turns the row of the prefix [P] into the
    row of the prefix extended by [bc]. *)
Lemma lev_row_correct (bc : ascii) (P : list ascii) :
  forall (s : string) (pre : list ascii),
    lev_row bc s (map (lev_spec P) (prefixes_from pre s))
            (lev_spec (bc :: P) pre)
    = map (lev_spec (bc :: P)) (tl (prefixes_from pre s)).
Proof.
  induction s as [|ac s IH]; intro pre.
  - reflexivity.
  - cbn [prefixes_from map tl].
    rewrite (prefixes_from_head (ac :: pre) s). cbn [map lev_row].
    rewrite <- lev_spec_cons. f_equal.
    change (lev_spec P (ac :: pre)
            :: map (lev_spec P) (tl (prefixes_from (ac :: pre) s)))
      with (map (lev_spec P) ((ac :: pre) :: tl (prefixes_from (ac :: pre) s))).
    rewrite <- prefixes_from_head. apply IH.
Qed.

Lemma lev_rows_correct (a : string) :
  forall (b : string) (P : list ascii),
    lev_rows b a (map (lev_spec P) (prefixes_from [] a)) (length P)
    = map (lev_spec (List.rev (list_ascii_of_string b) ++ P))
          (prefixes_from [] a).
Proof.
  induction b as [|bc b IH]; intro P.
  - reflexivity.
  - cbn [lev_rows list_ascii_of_string List.rev].
    assert (Hrow : S (length P)
                   :: lev_row bc a (map (lev_spec P) (prefixes_from [] a))
                        (S (length P))
                   = map (lev_spec (bc :: P)) (prefixes_from [] a)).
    { rewrite (map_prefixes (lev_spec (bc :: P))), <- lev_row_correct.
      reflexivity. }
    rewrite Hrow. change (S (length P)) with (length (bc :: P)).
    rewrite IH, <- app_assoc. reflexivity.
Qed.

Lemma lev_spec_nil_l (ys : list ascii) : lev_spec [] ys = length ys.
Proof. destruct ys; reflexivity. Qed.

Lemma first_row (s : string) :
  forall pre, map (lev_spec []) (prefixes_from pre s)
              = seq (length pre) (S (String.length s)).
Proof.
  induction s as [|c s IH]; intro pre.
  - cbn [prefixes_from map String.length seq]. rewrite lev_spec_nil_l.
    reflexivity.
  - cbn [prefixes_from map String.length]. rewrite IH, lev_spec_nil_l.
    reflexivity.
Qed.

Lemma last_prefix (f : list ascii -> nat) (d : nat) (s : string) :
  forall pre, last (map f (prefixes_from pre s)) d
              = f (List.rev (list_ascii_of_string s) ++ pre).
Proof.
  induction s as [|c s IH]; intro pre.
  - reflexivity.
  - cbn [prefixes_from list_ascii_of_string List.rev].
    rewrite <- app_assoc. change ([c] ++ pre) with (c :: pre).
    rewrite <- IH. cbn [map]. rewrite (map_prefixes f (c :: pre) s).
    reflexivity.
Qed.

(** The matrix computes the recursive distance of the two strings. *)
Lemma levenshteinDistance_spec (a b : string) :
  levenshteinDistance a b
  = lev_spec (List.rev (list_ascii_of_string b))
             (List.rev (list_ascii_of_string a)).
Proof.
  unfold levenshteinDistance.
  pose proof (first_row a []) as Hrow. cbn [length] in Hrow.
  rewrite <- Hrow.
  pose proof (lev_rows_correct a b []) as Hrows.
  cbn [Datatypes.length] in Hrows.
  rewrite Hrows, last_prefix, !app_nil_r. reflexivity.
Qed.

Lemma levenshteinDistance_sym (a b : string) :
  levenshteinDistance a b = levenshteinDistance b a.
Proof. rewrite !levenshteinDistance_spec. apply lev_spec_sym. Qed.

Lemma stringSimilarity_sym (a b : string) :
  stringSimilarity a b = stringSimilarity b a.
Proof.
  unfold stringSimilarity.
  rewrite (String.eqb_sym (normalizeString b) (normalizeString a)).
  rewrite (orb_comm (String.length (normalizeString b) =? 0)).
  rewrite (levenshteinDistance_sym (normalizeString b)).
  rewrite (Nat.max_comm (String.length (normalizeString b))).
  reflexivity.
Qed.

Lemma Qmax_js_compat (s t t' : Q) : t == t' -> Qmax_js s t == Qmax_js s t'.
Proof.
  intro E. unfold Qmax_js.
  destruct (Qle_bool s t) eqn:L, (Qle_bool s t') eqn:L';
    try exact E; try reflexivity.
  - apply Qle_bool_iff in L. rewrite E in L. apply Qle_bool_iff in L. congruence.
  - apply Qle_bool_iff in L'. rewrite <- E in L'. apply Qle_bool_iff in L'. congruence.
Qed.

(** C8 (amended).  [titleSimilarity(a,b) = titleSimilarity(b,a)] whenever
    the normalised titles are equal, one of them is empty, one contains
    the other, or the token pass gives the same value in both directions;
    the Levenshtein part and the containment ratio never depend on the
    order of the arguments. *)
Theorem titleSimilarity_symmetric_when_order_free (a b : string) :
  order_free a b = true -> titleSimilarity a b == titleSimilarity b a.
Proof.
  unfold order_free, titleSimilarity. intro H.
  rewrite (String.eqb_sym (normalizeTitle b) (normalizeTitle a)).
  destruct (String.eqb (normalizeTitle a) (normalizeTitle b)); [reflexivity|].
  rewrite (orb_comm (String.length (normalizeTitle b) =? 0)).
  destruct ((String.length (normalizeTitle a) =? 0)
            || (String.length (normalizeTitle b) =? 0)) eqn:E0; [reflexivity|].
  rewrite (orb_comm (includes (normalizeTitle b) (normalizeTitle a))).
  rewrite (Nat.min_comm (String.length (normalizeTitle b))).
  rewrite (Nat.max_comm (String.length (normalizeTitle b))).
  destruct (includes (normalizeTitle a) (normalizeTitle b)
            || includes (normalizeTitle b) (normalizeTitle a)) eqn:Ei;
    [reflexivity|].
  apply orb_false_elim in E0. destruct E0 as [Ea Eb].
  apply orb_false_elim in Ei. destruct Ei as [Eab Eba].
  rewrite Ea, Eb, Eab, Eba in H. cbn in H.
  apply Qeq_bool_iff in H.
  unfold combinedSimilarity.
  rewrite (stringSimilarity_sym b a).
  apply Qmax_js_compat, H.
Qed.

Lemma titleSimilarity_symmetric_witness :
  order_free "graph networks" "neural networks" = true
  /\ titleSimilarity "graph networks" "neural networks"
     == titleSimilarity "neural networks" "graph networks".
Proof.
  split.
  - vm_compute. reflexivity.
  - apply (titleSimilarity_symmetric_when_order_free
             "graph networks" "neural networks").
    vm_compute. reflexivity.
Defined.

(** C8 fails as stated, also on titles without repeated words: walking
    the tokens of "pruning network" finds an exact and a fuzzy match
    (1.875 of 3 distinct tokens), walking those of
    "networks network pruning" finds a fuzzy and two exact ones
    (2.875 of 3). *)
Lemma titleSimilarity_not_symmetric :
  titleSimilarity swapped_short swapped_long == 5 # 8
  /\ titleSimilarity swapped_long swapped_short == 23 # 24
  /\ ~ titleSimilarity swapped_short swapped_long
       == titleSimilarity swapped_long swapped_short.
Proof.
  split; [vm_compute; reflexivity|]. split; [vm_compute; reflexivity|].
  vm_compute. discriminate.
Qed.

End SymmetryFacts.

(** ** Author overlap (C9) *)

Module AuthorFacts.

Import JS Num AuthorNormalization NumFacts Reading Sample.
Local Open Scope Q_scope.

Lemma mem_string_iff (x : string) (xs : list string) :
  mem_string x xs = true <-> In x xs.
Proof.
  unfold mem_string. rewrite existsb_exists. split.
  - intros (y & Hy & E). apply String.eqb_eq in E. subst. exact Hy.
  - intro H. exists x. split; [exact H | apply String.eqb_refl].
Qed.

Lemma set_add_all_NoDup (xs : list string) :
  forall acc, NoDup acc -> NoDup (set_add_all acc xs).
Proof.
  induction xs as [|x xs IH]; intros acc Hacc; [exact Hacc|].
  cbn [set_add_all]. apply IH.
  destruct (mem_string x acc) eqn:E; [exact Hacc|].
  apply NoDup_app; [exact Hacc | repeat constructor; intros [] | ].
  intros y Hy [<-|[]].
  apply mem_string_iff in Hy. congruence.
Qed.

Lemma new_Set_NoDup (xs : list string) : NoDup (new_Set xs).
Proof. apply set_add_all_NoDup. constructor. Qed.

Lemma set_add_all_grows (xs : list string) :
  forall acc, (length acc <= length (set_add_all acc xs))%nat.
Proof.
  induction xs as [|x xs IH]; intro acc; [reflexivity|].
  cbn [set_add_all].
  etransitivity; [|apply IH].
  destruct (mem_string x acc); [reflexivity|].
  rewrite length_app. lia.
Qed.

Lemma new_Set_nonempty (x : string) (xs : list string) :
  (0 < length (new_Set (x :: xs)))%nat.
Proof.
  unfold new_Set. cbn [set_add_all mem_string existsb app].
  eapply Nat.lt_le_trans; [|apply set_add_all_grows].
  cbn. lia.
Qed.

(** The intersection is no larger than either set. *)
Lemma intersection_small (S1 S2 : list string) :
  NoDup S1 ->
  (length (filter (fun n => mem_string n S2) S1)
   <= Nat.min (length S1) (length S2))%nat.
Proof.
  intro H1. apply Nat.min_glb.
  - apply filter_length_le.
  - apply NoDup_incl_length.
    + apply NoDup_filter, H1.
    + intros n Hn. apply filter_In in Hn. apply mem_string_iff, Hn.
Qed.

Lemma intersection_self (S1 : list string) :
  filter (fun n => mem_string n S1) S1 = S1.
Proof.
  apply forallb_filter_id. apply forallb_forall.
  intros n Hn. apply mem_string_iff, Hn.
Qed.

(** C9 (amended).  [compareAuthorLists(A,B)] is 0 when either list is
    empty and otherwise the size of the intersection of the two last-name
    sets divided by the smaller of the two SET sizes (the numbers of
    distinct last names, not the list lengths); the result lies between 0
    and 1, and the overlap of a non-empty list with itself is 1. *)
Theorem compareAuthorLists_overlap (A B : list string) (a : string) :
  let SA := new_Set (map extractLastName A) in
  let SB := new_Set (map extractLastName B) in
  compareAuthorLists A B
  == (if (length A =? 0)%nat || (length B =? 0)%nat then 0
      else Q_of_nat (length (filter (fun n => mem_string n SB) SA))
           / Q_of_nat (Nat.min (length SA) (length SB)))
  /\ 0 <= compareAuthorLists A B
  /\ compareAuthorLists A B <= 1
  /\ compareAuthorLists (a :: A) (a :: A) == 1.
Proof.
  intros SA SB. split; [reflexivity|].
  assert (Hunit : 0 <= compareAuthorLists A B /\ compareAuthorLists A B <= 1).
  { unfold compareAuthorLists.
    destruct A as [|a1 A']; [split; discriminate|].
    destruct B as [|b1 B']; [split; discriminate|].
    cbn [length Nat.eqb orb].
    apply ratio_in_unit.
    - apply intersection_small, new_Set_NoDup.
    - apply Nat.min_glb_lt; cbn [map]; apply new_Set_nonempty. }
  destruct Hunit as [H0 H1]. repeat split; [exact H0 | exact H1 |].
  unfold compareAuthorLists. cbn [length Nat.eqb orb].
  rewrite intersection_self, Nat.min_id.
  apply ratio_self. cbn [map]. apply new_Set_nonempty.
Qed.

(** C9 fails as stated: two authors sharing one last name form a set of
    size 1, so the divisor is 1 and not the list length 2. *)
Lemma overlap_divides_by_set_size :
  ~ compareAuthorLists smiths smith_doe == claimed_overlap smiths smith_doe.
Proof. vm_compute. discriminate. Qed.

End AuthorFacts.

(** ** Where the scores do stay in the unit interval *)

Module BoundFacts.

Import JS Num StringMatching Aux NumFacts SymmetryFacts AuthorFacts.
Local Open Scope Q_scope.

Lemma lev_spec_bound (xs ys : list ascii) :
  (lev_spec xs ys <= Nat.max (length xs) (length ys))%nat.
Proof.
  revert ys. induction xs as [|x xs IHxs]; intro ys.
  - rewrite lev_spec_nil_l. cbn [length]. lia.
  - induction ys as [|y ys IHys].
    + rewrite lev_spec_nil_r. lia.
    + rewrite lev_spec_cons. specialize (IHxs ys). cbn [length] in *.
      destruct (Ascii.eqb x y); lia.
Qed.

Lemma length_list_ascii (s : string) :
  length (list_ascii_of_string s) = String.length s.
Proof. induction s as [|c s IH]; cbn; [reflexivity | rewrite IH; reflexivity]. Qed.

Lemma levenshteinDistance_bound (a b : string) :
  (levenshteinDistance a b <= Nat.max (String.length a) (String.length b))%nat.
Proof.
  rewrite levenshteinDistance_spec.
  etransitivity; [apply lev_spec_bound|].
  rewrite !length_rev, !length_list_ascii. lia.
Qed.

Lemma stringSimilarity_unit (a b : string) :
  0 <= stringSimilarity a b /\ stringSimilarity a b <= 1.
Proof.
  unfold stringSimilarity.
  destruct (String.eqb (normalizeString a) (normalizeString b));
    [split; discriminate|].
  destruct ((String.length (normalizeString a) =? 0)%nat
            || (String.length (normalizeString b) =? 0)%nat) eqn:E0;
    [split; discriminate|].
  apply orb_false_elim in E0. destruct E0 as [Ea _].
  apply Nat.eqb_neq in Ea.
  destruct (ratio_in_unit
              (levenshteinDistance (normalizeString a) (normalizeString b))
              (Nat.max (String.length (normalizeString a))
                       (String.length (normalizeString b))))
    as [H0 H1]; [apply levenshteinDistance_bound | lia |].
  split; lra.
Qed.

Lemma token_gain_unit (tokenA : string) (tokensB : list string) :
  0 <= token_gain tokenA tokensB /\ token_gain tokenA tokensB <= 1.
Proof.
  induction tokensB as [|tokenB more IH]; cbn [token_gain];
    [split; discriminate|].
  destruct (String.eqb tokenA tokenB); [split; discriminate|].
  destruct ((4 <? String.length tokenA)%nat && (4 <? String.length tokenB)%nat);
    [|exact IH].
  destruct (Qgt_bool (stringSimilarity tokenA tokenB) (8 # 10)); [|exact IH].
  apply stringSimilarity_unit.
Qed.

Lemma Q_of_nat_S (n : nat) : Q_of_nat (S n) == Q_of_nat n + 1.
Proof. unfold Q_of_nat, Qeq, Qplus. cbn [Qnum Qden inject_Z]. lia. Qed.

Lemma match_count_bound (tokensA tokensB : list string) :
  0 <= match_count tokensA tokensB
  /\ match_count tokensA tokensB <= Q_of_nat (length tokensA).
Proof.
  induction tokensA as [|tokenA more IH]; cbn [match_count length].
  - split; discriminate.
  - destruct (token_gain_unit tokenA tokensB) as [G0 G1].
    destruct IH as [M0 M1]. rewrite Q_of_nat_S. split; lra.
Qed.

Lemma set_add_all_In (x : string) (xs : list string) :
  forall acc, In x (set_add_all acc xs) <-> In x acc \/ In x xs.
Proof.
  induction xs as [|y xs IH]; intro acc; cbn [set_add_all In].
  - tauto.
  - rewrite IH. destruct (mem_string y acc) eqn:E.
    + apply mem_string_iff in E. split; [tauto|].
      intros [H|[<-|H]]; tauto.
    + rewrite in_app_iff. cbn [In]. tauto.
Qed.

(** Distinct tokens of the first title are all counted among the
    distinct tokens of both. *)
Lemma distinct_tokens_counted (tokensA tokensB : list string) :
  NoDup tokensA ->
  (length tokensA <= length (new_Set (tokensA ++ tokensB)))%nat.
Proof.
  intro H. apply NoDup_incl_length; [exact H|].
  intros x Hx. apply set_add_all_In. right. apply in_or_app. left. exact Hx.
Qed.

Lemma tokenSimilarity_unit (a b : string) :
  NoDup (tokens a) ->
  0 <= tokenSimilarity a b /\ tokenSimilarity a b <= 1.
Proof.
  intro Hnd. unfold tokenSimilarity.
  destruct ((length (tokens a) =? 0)%nat || (length (tokens b) =? 0)%nat) eqn:E0;
    [split; discriminate|].
  apply orb_false_elim in E0. destruct E0 as [Ea _].
  apply Nat.eqb_neq in Ea.
  destruct (match_count_bound (tokens a) (tokens b)) as [M0 M1].
  pose proof (distinct_tokens_counted (tokens a) (tokens b) Hnd) as Hlen.
  assert (Hpos : 0 < Q_of_nat (length (new_Set (tokens a ++ tokens b))))
    by (apply Q_of_nat_pos; lia).
  split.
  - apply Qle_shift_div_l; [exact Hpos|]. rewrite Qmult_0_l. exact M0.
  - apply Qle_shift_div_r; [exact Hpos|]. rewrite Qmult_1_l.
    eapply Qle_trans; [exact M1|]. apply Q_of_nat_le, Hlen.
Qed.

(** The interval claimed for the similarity scores holds whenever the
    first title repeats no token: the excess of C1 comes from counting
    repeated tokens against distinct ones and from nothing else. *)
Lemma titleSimilarity_unit_without_repeats (a b : string) :
  NoDup (tokens a) ->
  0 <= titleSimilarity a b /\ titleSimilarity a b <= 1.
Proof.
  intro Hnd. unfold titleSimilarity.
  destruct (String.eqb (normalizeTitle a) (normalizeTitle b));
    [split; discriminate|].
  destruct ((String.length (normalizeTitle a) =? 0)%nat
            || (String.length (normalizeTitle b) =? 0)%nat) eqn:E0;
    [split; discriminate|].
  apply orb_false_elim in E0. destruct E0 as [Ea Eb].
  apply Nat.eqb_neq in Ea. apply Nat.eqb_neq in Eb.
  destruct (includes (normalizeTitle a) (normalizeTitle b)
            || includes (normalizeTitle b) (normalizeTitle a)).
  - apply ratio_in_unit; lia.
  - unfold combinedSimilarity, Qmax_js.
    destruct (Qle_bool (stringSimilarity a b) (tokenSimilarity a b));
      [apply tokenSimilarity_unit, Hnd | apply stringSimilarity_unit].
Qed.

End BoundFacts.

(** ** The reference parser (C5, C6) *)

Module ParserFacts.

Import JS Regex Reading Sample.
Import RegexExtractor.

(** C5 (amended).  On the bibliography text of the specification's
    example, with any fallback page number, the bracketed strategy
    [extractBracketedReferences] finds exactly 2 entries, numbered 1 and
    2, titled "A Great Title" and "Another Title", dated "2020" and
    "2019"; two entries are fewer than the three a strategy needs to win,
    no other strategy reaches three either, and
    [extractReferencesWithRegex] returns the empty list. *)
Theorem bracketed_example (page : nat) :
  map summary
      (extractBracketedReferences (normalizeBibliographyText bracketed_text) page)
  = [(Some 1, "A Great Title", "2020"); (Some 2, "Another Title", "2019")]
  /\ extractReferencesWithRegex bracketed_text page = [].
Proof. split; vm_compute; reflexivity. Qed.

(** C5 fails as stated: the parser does not return 2 entries. *)
Lemma parser_drops_two_entry_bibliography :
  length (extractReferencesWithRegex bracketed_text 1) <> 2.
Proof. vm_compute. discriminate. Qed.

Lemma renumber_numbers (results : list ExtractedReferenceWithIndex) :
  forall index,
    map citation_number (renumber index results)
    = map Some (seq (S index) (length results)).
Proof.
  induction results as [|r results IH]; intro index; [reflexivity|].
  cbn [renumber map length seq citation_number set_citation_number].
  rewrite IH, Nat.add_1_r. reflexivity.
Qed.

Lemma renumber_length (results : list ExtractedReferenceWithIndex) :
  forall index, length (renumber index results) = length results.
Proof.
  induction results as [|r results IH]; intro index; [reflexivity|].
  cbn [renumber length]. rewrite IH. reflexivity.
Qed.

Lemma two_column_numbers (text : string) (page : nat) :
  map citation_number (extractTwoColumnReferences text page)
  = map Some (seq 1 (length (extractTwoColumnReferences text page))).
Proof.
  unfold extractTwoColumnReferences.
  rewrite renumber_numbers, renumber_length. reflexivity.
Qed.

(** C6 (amended).  The list produced by the two-column strategy is
    numbered 1..N in list order for every text, and so is the list
    returned by [extractReferencesWithRegex] whenever that strategy is the
    one that answers (fewer than 3 bracketed entries, at least 3
    two-column entries); the bracketed strategy hands each entry the
    number read between its brackets. *)
Theorem two_column_numbers_contiguous (text : string) (page : nat) :
  let normalizedText := normalizeBibliographyText text in
  map citation_number (extractTwoColumnReferences normalizedText page)
  = map Some (seq 1 (length (extractTwoColumnReferences normalizedText page)))
  /\ (length (extractBracketedReferences normalizedText page) < 3 ->
      3 <= length (extractTwoColumnReferences normalizedText page) ->
      map citation_number (extractReferencesWithRegex text page)
      = map Some (seq 1 (length (extractReferencesWithRegex text page))))
  /\ map citation_number (extractBracketedReferences normalizedText page)
     = map (fun m => Some (number_of (group 1 m)))
           (matchAll BRACKETED_REF_PATTERN normalizedText).
Proof.
  intro normalizedText. split; [apply two_column_numbers|]. split.
  - intros Hb Ht. unfold extractReferencesWithRegex.
    fold normalizedText.
    apply Nat.leb_gt in Hb. apply Nat.leb_le in Ht.
    rewrite Hb, Ht. apply two_column_numbers.
  - unfold extractBracketedReferences. rewrite map_map. reflexivity.
Qed.

Lemma two_column_numbers_witness :
  let normalizedText := normalizeBibliographyText two_column_text in
  length (extractBracketedReferences normalizedText 1) < 3
  /\ 3 <= length (extractTwoColumnReferences normalizedText 1)
  /\ map citation_number (extractReferencesWithRegex two_column_text 1)
     = [Some 1; Some 2; Some 3].
Proof.
  intro normalizedText.
  assert (Hb : length (extractBracketedReferences normalizedText 1) < 3)
    by (vm_compute; lia).
  assert (Ht : 3 <= length (extractTwoColumnReferences normalizedText 1))
    by (vm_compute; lia).
  split; [exact Hb|]. split; [exact Ht|].
  rewrite (proj1 (proj2 (two_column_numbers_contiguous two_column_text 1)) Hb Ht).
  vm_compute. reflexivity.
Defined.

(** C6 fails as stated: bracketed labels 5, 7, 9 are returned as they
    are, not renumbered 1, 2, 3. *)
Lemma bracketed_labels_not_contiguous :
  map citation_number (extractReferencesWithRegex gapped_brackets 1)
  <> map Some (seq 1 (length (extractReferencesWithRegex gapped_brackets 1))).
Proof. vm_compute. discriminate. Qed.

End ParserFacts.

(** ** Reasoning about [async] computations *)

Module EffectFacts.

Import Effects Aux.
Local Open Scope monad_scope.

Section Combinators.
Context {A B : Type}.

Lemma returns_ret (a : A) (P : A -> Prop) : P a -> returns (ret a) P.
Proof. intros Ha h a' h' E. inversion E. subst. exact Ha. Qed.

Lemma returns_throw (msg : string) (P : A -> Prop) : returns (throw msg) P.
Proof. intros h a h' E. discriminate E. Qed.

Lemma returns_bind (m : M A) (k : A -> M B) (Q : A -> Prop) (P : B -> Prop) :
  returns m Q -> (forall a, Q a -> returns (k a) P) -> returns (bind m k) P.
Proof.
  intros Hm Hk h b h' E. unfold bind in E.
  destruct (m h) as [[a|e] h1] eqn:Em; [|discriminate E].
  exact (Hk a (Hm _ _ _ Em) _ _ _ E).
Qed.

Lemma returns_bind_any (m : M A) (k : A -> M B) (P : B -> Prop) :
  (forall a, returns (k a) P) -> returns (bind m k) P.
Proof.
  intro Hk. apply (returns_bind m k (fun _ => True)).
  - intros h a h' E. exact I.
  - intros a _. apply Hk.
Qed.

Lemma returns_try_catch (m : M A) (handler : string -> M A) (P : A -> Prop) :
  returns m P -> (forall e, returns (handler e) P) ->
  returns (try_catch m handler) P.
Proof.
  intros Hm Hh h a h' E. unfold try_catch in E.
  destruct (m h) as [[a0|e] h1] eqn:Em.
  - inversion E. subst. exact (Hm _ _ _ Em).
  - exact (Hh e _ _ _ E).
Qed.

Lemma total_ret (a : A) : total (ret a).
Proof. intro h. exists a, h. reflexivity. Qed.

Lemma total_bind (m : M A) (k : A -> M B) :
  total m -> (forall a, total (k a)) -> total (bind m k).
Proof.
  intros Hm Hk h. destruct (Hm h) as (a & h1 & Em).
  destruct (Hk a h1) as (b & h2 & Ek).
  exists b, h2. unfold bind. rewrite Em. exact Ek.
Qed.

Lemma total_try_catch (m : M A) (handler : string -> M A) :
  (forall e, total (handler e)) -> total (try_catch m handler).
Proof.
  intros Hh h. unfold try_catch.
  destruct (m h) as [[a|e] h1] eqn:Em.
  - exists a, h1. reflexivity.
  - apply Hh.
Qed.

Lemma appends_ret (P : Event -> Prop) (a : A) : appends P (ret a).
Proof. intro h. exists []. rewrite app_nil_r. split; [reflexivity|constructor]. Qed.

Lemma appends_throw (P : Event -> Prop) (msg : string) :
  appends P (@throw A msg).
Proof. intro h. exists []. rewrite app_nil_r. split; [reflexivity|constructor]. Qed.

Lemma appends_bind (P : Event -> Prop) (m : M A) (k : A -> M B) :
  appends P m -> (forall a, appends P (k a)) -> appends P (bind m k).
Proof.
  intros Hm Hk h. destruct (Hm h) as (n1 & E1 & F1). unfold bind.
  destruct (m h) as [[a|e] h1]; cbn [snd] in E1; subst h1.
  - destruct (Hk a (h ++ n1)) as (n2 & E2 & F2).
    exists (n1 ++ n2). rewrite E2, app_assoc.
    split; [reflexivity | apply Forall_app; split; assumption].
  - exists n1. split; [reflexivity | exact F1].
Qed.

Lemma appends_try_catch (P : Event -> Prop) (m : M A)
      (handler : string -> M A) :
  appends P m -> (forall e, appends P (handler e)) ->
  appends P (try_catch m handler).
Proof.
  intros Hm Hh h. destruct (Hm h) as (n1 & E1 & F1). unfold try_catch.
  destruct (m h) as [[a|e] h1]; cbn [snd] in E1; subst h1.
  - exists n1. split; [reflexivity | exact F1].
  - destruct (Hh e (h ++ n1)) as (n2 & E2 & F2).
    exists (n1 ++ n2). rewrite E2, app_assoc.
    split; [reflexivity | apply Forall_app; split; assumption].
Qed.

Lemma appends_remote (P : Event -> Prop) (e : Event)
      (oracle : History -> Fetch A) :
  P e -> appends P (remote e oracle).
Proof.
  intros He h. exists [e]. unfold remote.
  destruct (oracle h); (split; [reflexivity | repeat constructor; exact He]).
Qed.
End Combinators.

Lemma total_emit (e : Event) : total (emit e).
Proof. intro h. exists tt, (h ++ [e]). reflexivity. Qed.

Lemma appends_emit (P : Event -> Prop) (e : Event) : P e -> appends P (emit e).
Proof.
  intros He h. exists [e]. split; [reflexivity | repeat constructor; exact He].
Qed.

Lemma appends_weaken {A} (P Q : Event -> Prop) (m : M A) :
  (forall e, P e -> Q e) -> appends P m -> appends Q m.
Proof.
  intros HPQ Hm h. destruct (Hm h) as (new & E & F).
  exists new. split; [exact E|]. revert F. apply Forall_impl, HPQ.
Qed.

(** An event emitted first is still in the history at the end. *)
Lemma emitted_stays {A} (e : Event) (k : M A) :
  appends (fun _ => True) k ->
  forall h, In e (snd (bind (emit e) (fun _ => k) h)).
Proof.
  intros Hk h. unfold bind, emit.
  destruct (Hk (h ++ [e])) as (new & E & _). rewrite E.
  apply in_or_app. left. apply in_or_app. right. left. reflexivity.
Qed.

(** The three views of one run. *)
Lemma run_view {A} (m : M A) (P : Event -> Prop) (Q : A -> Prop) :
  total m -> appends P m -> returns m Q ->
  forall h, exists a new, m h = (Returned a, h ++ new) /\ Forall P new /\ Q a.
Proof.
  intros Ht Ha Hr h. destruct (Ht h) as (a & h' & E).
  destruct (Ha h) as (new & En & F). rewrite E in En. cbn [snd] in En. subst h'.
  exists a, new. split; [exact E|]. split; [exact F | exact (Hr _ _ _ E)].
Qed.

End EffectFacts.

(** ** The connectors: contract of a source that was not found (C7) *)

Module ConnectorFacts.

Import JS Num Effects Aux EffectFacts Connectors Agents WebSearchAgent.
Import Reading Sample.
Local Open Scope Q_scope.

Ltac returns_steps :=
  repeat first
    [ apply returns_ret
    | apply returns_throw
    | apply returns_try_catch
    | apply returns_bind_any
    | match goal with
      | |- returns (match ?x with _ => _ end) _ => destruct x
      | |- forall _, _ => intro
      end ].

Ltac appends_steps :=
  repeat first
    [ apply appends_ret
    | apply appends_throw
    | apply appends_try_catch
    | apply appends_bind
    | apply appends_remote
    | apply appends_emit
    | reflexivity
    | match goal with
      | |- appends _ (match ?x with _ => _ end) => destruct x
      | |- forall _, _ => intro
      end ].

Lemma blank_not_found (n : SourceName) (msg : string) :
  absent_is_blank (not_found_in n msg).
Proof. intros _. split; reflexivity. Qed.

Lemma blank_found (n : SourceName) (data : Work) (score : Q) :
  absent_is_blank (found_with n data score).
Proof. intro H. discriminate H. Qed.

Lemma blank_rejected (n : SourceName) (step : option Step) (msg : string) :
  absent_is_blank (rejected n step msg).
Proof. intros _. split; reflexivity. Qed.

Lemma blank_with_step (st : Step) (s : ValidationSource.t) :
  absent_is_blank s -> absent_is_blank (ValidationSource.with_step st s).
Proof. intros H F. exact (H F). Qed.

#[local] Hint Resolve blank_not_found blank_found blank_rejected : core.

Section WithWorld.
Variable W : World.






Lemma appends_all {A} (P : Event -> Prop) (promises : list (M A)) :
  Forall (appends P) promises -> appends P (all promises).
Proof.
  induction 1 as [|p ps Hp Hps IH]; cbn [all].
  - apply appends_ret.
  - apply appends_bind; [exact Hp|]. intro a.
    apply appends_bind; [exact IH|]. intro rs. apply appends_ret.
Qed.



(** The API stage issues requests and nothing else. *)
Lemma connectors_quiet (reference : Reference.t) (apiKey : string) :
  appends (fun e => escalation e = false) (validateWithCrossRef W reference)
  /\ appends (fun e => escalation e = false)
             (validateWithSemanticScholar W reference apiKey)
  /\ appends (fun e => escalation e = false) (validateWithOpenAlex W reference)
  /\ appends (fun e => escalation e = false) (validateWithArxiv W reference).
Proof.
  repeat split;
    unfold validateWithCrossRef, validateWithSemanticScholar,
      validateWithOpenAlex, validateWithArxiv, crossref_searchByTitle,
      arxiv_lookupById, arxiv_searchByTitle, quiet_lookup, quiet_search;
    appends_steps.
Qed.


End WithWorld.

(** C7 (the code departs from the claim).  When Perplexity answers with a
    record whose title has nothing in common with the reference, the
    confidence is 0 and [searchWebForReference] returns a source with
    [found = false] and [matchScore = 0] whose [retrievedData] is that
    record, not [null]. *)
Theorem web_search_keeps_data_when_not_found :
  exists source h,
    searchWebForReference barren abc_reference (settings_of agent_based) []
    = (Returned source, h)
    /\ ValidationSource.name source = web_search
    /\ ValidationSource.found source = false
    /\ ValidationSource.matchScore source == 0
    /\ ValidationSource.retrievedData source = Some unrelated_data.
Proof.
  eexists. eexists. split; [vm_compute; reflexivity|].
  repeat split; reflexivity.
Qed.

End ConnectorFacts.

(** ** The analyzer: best source, unverified results, status rules
       (C4, C2) *)

Module AnalyzerFacts.

Import JS Num StringMatching AuthorNormalization Connectors Analyzer.
Import NumFacts Reading Sample.
Local Open Scope Q_scope.

Lemma insert_In (x y : ValidationSource.t) (l : list ValidationSource.t) :
  In y (Sorting.insert by_score_desc x l) <-> y = x \/ In y l.
Proof.
  induction l as [|z l IH]; cbn [Sorting.insert].
  - cbn. intuition congruence.
  - destruct (by_score_desc x z); cbn [In] in *; [intuition congruence|].
    rewrite IH. intuition congruence.
Qed.

Lemma sort_In (y : ValidationSource.t) (l : list ValidationSource.t) :
  In y (Sorting.sort by_score_desc l) <-> In y l.
Proof.
  induction l as [|x l IH]; cbn [Sorting.sort]; [reflexivity|].
  rewrite insert_In, IH. cbn [In]. intuition congruence.
Qed.


Lemma found_sources_In (s : ValidationSource.t) (sources : list ValidationSource.t) :
  In s (found_sources sources)
  <-> In s sources /\ ValidationSource.found s = true /\ 0 < ValidationSource.matchScore s.
Proof.
  unfold found_sources. rewrite filter_In, andb_true_iff, Qgt_bool_iff.
  reflexivity.
Qed.


Lemma best_source_none (sources : list ValidationSource.t) :
  (forall s, In s sources -> ~ (ValidationSource.found s = true /\ 0 < ValidationSource.matchScore s)) ->
  best_source sources = None.
Proof.
  intro H. unfold best_source.
  assert (E : found_sources sources = []).
  { destruct (found_sources sources) as [|s l] eqn:E; [reflexivity|].
    exfalso. assert (Hs : In s (found_sources sources)) by (rewrite E; left; reflexivity).
    apply found_sources_In in Hs. destruct Hs as (Hin & Hf & Hp).
    exact (H s Hin (conj Hf Hp)). }
  rewrite E. reflexivity.
Qed.

(** C4 (amended).  When no source has [found = true] with a positive
    [matchScore], both analyzers return status [unverified] and no best
    match; the agent-based analyzer returns an empty issue list, the
    api-only analyzer returns a single warning-severity [not_found]
    issue. *)
Theorem unverified_when_nothing_found (reference : Reference.t)
        (sources : list ValidationSource.t) :
  (forall s, In s sources -> ~ (ValidationSource.found s = true /\ 0 < ValidationSource.matchScore s)) ->
  AgentValidationOrchestrator.analyzeResults reference sources
  = mkAnalysis unverified [] None 0
  /\ ValidationOrchestrator.analyzeResults reference sources
     = mkAnalysis unverified
         [ValidationIssue.mk not_found sev_warning
            "Reference not found in any database"
            (or_else (Reference.title reference) EmptyString) EmptyString]
         None 0.
Proof.
  intro H. apply best_source_none in H.
  unfold AgentValidationOrchestrator.analyzeResults,
    ValidationOrchestrator.analyzeResults.
  rewrite H. split; reflexivity.
Qed.

Lemma unverified_when_nothing_found_witness :
  (forall s, In s [not_found_in crossref "Reference not found in CrossRef"] ->
             ~ (ValidationSource.found s = true /\ 0 < ValidationSource.matchScore s))
  /\ status (AgentValidationOrchestrator.analyzeResults abc_reference
               [not_found_in crossref "Reference not found in CrossRef"])
     = unverified
  /\ issues (ValidationOrchestrator.analyzeResults abc_reference
               [not_found_in crossref "Reference not found in CrossRef"])
     = [ValidationIssue.mk not_found sev_warning
          "Reference not found in any database" "abc" EmptyString].
Proof.
  assert (H : forall s,
             In s [not_found_in crossref "Reference not found in CrossRef"] ->
             ~ (ValidationSource.found s = true /\ 0 < ValidationSource.matchScore s)).
  { intros s [<-|[]] [F _]. discriminate F. }
  split; [exact H|].
  destruct (unverified_when_nothing_found abc_reference _ H) as [Ea Eb].
  rewrite Ea, Eb. split; reflexivity.
Defined.

(** C4 fails as stated: in api-only mode the issue list is not empty. *)
Lemma api_only_unverified_has_issue :
  (forall s, In s (@nil ValidationSource.t) ->
             ~ (ValidationSource.found s = true /\ 0 < ValidationSource.matchScore s))
  /\ issues (ValidationOrchestrator.analyzeResults abc_reference []) <> [].
Proof. split; [intros s []|]. vm_compute. discriminate. Qed.

Lemma claimed_status_is_decide_status (t a : Q) (y : bool) (b : Q) :
  claimed_status t a y b = decide_status t a y b.
Proof. reflexivity. Qed.








End AnalyzerFacts.

(** ** The staged orchestrator: early exit after the API stage (C3) *)

Module StagedFacts.

Import JS Num Effects Aux EffectFacts Connectors Agents WebSearchAgent Analyzer.
Import AgentValidationOrchestrator.
Import NumFacts ConnectorFacts AnalyzerFacts Reading Sample.
Local Open Scope Q_scope.

Section WithWorld.
Variable W : World.



(** The web-search agent catches whatever its calls throw. *)
Lemma searchWebForReference_total (reference : Reference.t)
      (settings : AppSettings.t) :
  total (searchWebForReference W reference settings).
Proof.
  unfold searchWebForReference.
  apply total_bind; [apply total_emit|]. intros _.
  apply total_try_catch. intro. apply total_ret.
Qed.

Lemma total_all {A} (promises : list (M A)) :
  Forall total promises -> total (all promises).
Proof.
  induction 1 as [|p ps Hp Hps IH]; cbn [all]; [apply total_ret|].
  apply total_bind; [exact Hp|]. intro a.
  apply total_bind; [exact IH|]. intro rs. apply total_ret.
Qed.

(** The API stage never throws: every promise carries its own handler. *)
Lemma apiAgent_total (reference : Reference.t) (settings : AppSettings.t) :
  total (validateWithAPIAgent W reference settings).
Proof.
  unfold validateWithAPIAgent.
  apply total_bind; [|intro; apply total_ret].
  apply total_all. unfold enabled_promises.
  apply Forall_app; split;
    [|apply Forall_app; split; [|apply Forall_app; split]];
    (match goal with |- Forall _ (if ?c then _ else _) => destruct c end;
     [apply Forall_cons; [|apply Forall_nil] | apply Forall_nil]);
    apply total_try_catch; intro; apply total_ret.
Qed.



Lemma try_queries_appends (reference : Reference.t) (settings : AppSettings.t)
      (enhancedQueries : list EnhancedQuery) :
  forall allSources,
    appends (fun _ => True)
            (try_queries W reference settings enhancedQueries allSources).
Proof.
  induction enhancedQueries as [|q more IH]; intro allSources;
    cbn [try_queries]; [apply appends_ret|].
  apply appends_bind.
  - apply appends_all. unfold enabled_promises.
    destruct (connectors_quiet W (enhance reference q)
                (AppSettings.key_semanticScholar settings))
      as (Hc & Hs & Ho & Ha).
    apply Forall_app; split;
      [|apply Forall_app; split; [|apply Forall_app; split]];
      (match goal with |- Forall _ (if ?c then _ else _) => destruct c end;
       [apply Forall_cons; [|apply Forall_nil] | apply Forall_nil]);
      (apply appends_try_catch;
       [ eapply appends_weaken; [|eassumption]; intros; exact I
       | intro; apply appends_ret ]).
  - intro rs. destruct (existsb _ _); [apply appends_ret | apply IH].
Qed.

(** Entering either escalation stage leaves its mark in the history, so
    a history without such marks is one in which they did not run. *)
Lemma escalation_leaves_a_trace (reference : Reference.t)
      (settings : AppSettings.t) (h : History) :
  In (Invoked QueryEnhancement (Reference.id reference))
     (snd (retryAPIsWithEnhancedQueries W reference settings h))
  /\ In (Invoked WebSearch (Reference.id reference))
        (snd (searchWebForReference W reference settings h)).
Proof.
  split.
  - apply emitted_stays.
    unfold enhanceQueriesWithLLM. appends_steps; try exact I.
    apply try_queries_appends.
  - apply emitted_stays. appends_steps; exact I.
Qed.

End WithWorld.


End StagedFacts.

(** ** Batch validation: one result per reference (C10) *)

Module BatchFacts.

Import JS Num Effects Aux EffectFacts Connectors Agents WebSearchAgent Analyzer.
Import ConnectorFacts Reading Sample.
Import ValidationOrchestrator.
Local Open Scope monad_scope.

Section WithWorld.
Variable W : World.

Lemma finalize_id (reference : Reference.t)
      (allSources : list ValidationSource.t) (settings : AppSettings.t) :
  returns (AgentValidationOrchestrator.finalize W reference allSources settings)
          (fun r => ValidationResult.referenceId r = Reference.id reference).
Proof.
  unfold AgentValidationOrchestrator.finalize.
  apply returns_bind_any. intro. apply returns_ret. reflexivity.
Qed.

Lemma web_search_step_id (reference : Reference.t)
      (allSources : list ValidationSource.t) (settings : AppSettings.t) :
  returns (AgentValidationOrchestrator.web_search_step W reference allSources
             settings)
          (fun r => ValidationResult.referenceId r = Reference.id reference).
Proof.
  unfold AgentValidationOrchestrator.web_search_step.
  apply (returns_bind _ _
           (fun after => match after with
                         | inl r => ValidationResult.referenceId r
                                    = Reference.id reference
                         | inr _ => True
                         end)).
  - apply returns_try_catch; [|intro; apply returns_ret; exact I].
    apply returns_bind_any. intro ws.
    destruct (ValidationSource.found ws); [|apply returns_ret; exact I].
    destruct (ValidationSource.confidence ws) as [c|];
      [|apply returns_ret; exact I].
    destruct (negb (Qeq_bool c 0)
              && Qge_bool c WEB_SEARCH_CONFIDENCE_THRESHOLD);
      [|apply returns_ret; exact I].
    eapply returns_bind; [apply finalize_id|].
    intros r Hr. apply returns_ret. exact Hr.
  - intros [r|srcs] Hafter; [apply returns_ret; exact Hafter|].
    apply finalize_id.
Qed.

(** Whatever [validateReference] returns carries the reference's id. *)
Lemma validateReference_id (reference : Reference.t) (settings : AppSettings.t) :
  returns (validateReference W reference settings)
          (fun r => ValidationResult.referenceId r = Reference.id reference).
Proof.
  unfold validateReference. destruct (AppSettings.mode settings).
  - repeat (apply returns_bind_any; intro).
    apply returns_ret. reflexivity.
  - unfold AgentValidationOrchestrator.validateReferenceWithAgents.
    apply returns_bind_any. intro apiSources.
    destruct (AgentValidationOrchestrator.strong _); [apply finalize_id|].
    apply returns_bind_any. intro enhancedSources.
    destruct (AgentValidationOrchestrator.strong _); [apply finalize_id|].
    apply web_search_step_id.
Qed.

Lemma errorResult_accounts (reference : Reference.t) (settings : AppSettings.t)
      (msg : string) (hi hi' : History) :
  validateReference W reference settings hi = (Threw msg, hi') ->
  accounts_for W settings reference (errorResult reference msg).
Proof.
  intro E. split; [reflexivity|]. exists hi, hi'. right. exists msg.
  repeat split; try reflexivity. exact E.
Qed.

Section Callbacks.
Variable onProgress : Callback ValidationProgress.t.
Variable onResult : Callback ValidationResult.t.
Hypothesis progress_returns : returns_normally onProgress.
Hypothesis result_returns : returns_normally onResult.

(** With callbacks that return, the loop returns, and extends [results]
    by one accounted-for entry per remaining reference, in order. *)
Lemma validate_from_spec (settings : AppSettings.t) (total : nat)
      (references : list Reference.t) :
  forall (i : nat) (results : list ValidationResult.t) (h : History),
  exists out h',
    validate_from W total i references settings onProgress onResult results h
    = (Returned (results ++ out), h')
    /\ Forall2 (accounts_for W settings) references out.
Proof.
  induction references as [|reference more IH]; intros i results h.
  - exists [], h. rewrite app_nil_r. split; [reflexivity|constructor].
  - cbn [validate_from]. unfold bind at 1. unfold call at 1.
    rewrite progress_returns.
    unfold bind at 1. unfold try_catch at 1. unfold bind at 1.
    set (h1 := h ++ [Progressed _]).
    destruct (validateReference W reference settings h1)
      as [[result|msg] h2] eqn:Erun.
    + unfold ret at 1. unfold bind at 1, try_catch at 1, bind at 1, call at 1.
      rewrite result_returns. unfold ret at 1.
      destruct (IH (S i) (results ++ [result]) (h2 ++ [Reported result]))
        as (out & h' & Eout & Hout).
      exists (result :: out), h'. rewrite Eout, <- app_assoc.
      split; [reflexivity|]. constructor; [|exact Hout].
      split; [exact (validateReference_id reference settings _ _ _ Erun)|].
      exists h1, h2. left. exact Erun.
    + unfold ret at 1. unfold bind at 1, substitute at 1, bind at 1, call at 1.
      rewrite result_returns. unfold ret at 1.
      destruct (IH (S i) (results ++ [errorResult reference msg])
                   (h2 ++ [Reported (errorResult reference msg)]))
        as (out & h' & Eout & Hout).
      exists (errorResult reference msg :: out), h'.
      rewrite Eout, <- app_assoc.
      split; [reflexivity|]. constructor; [|exact Hout].
      exact (errorResult_accounts reference settings msg h1 h2 Erun).
Qed.

End Callbacks.

(** C10.  For every list of references and any settings, and for
    [onProgress] and [onResult] callbacks that return normally at every
    call, [validateAllReferences] returns exactly one result per
    reference, in input order, each carrying its reference's id; an entry
    is either the result [validateReference] returned or, when it threw,
    the substitute with status [unverified], no sources, no best match and
    a single error-severity [not_found] issue; an exception for one
    reference does not stop the others from being processed. *)
Theorem validateAllReferences_one_result_each
        (references : list Reference.t) (settings : AppSettings.t)
        (onProgress : Callback ValidationProgress.t)
        (onResult : Callback ValidationResult.t) (h : History) :
  returns_normally onProgress ->
  returns_normally onResult ->
  exists results h',
    validateAllReferences W references settings onProgress onResult h
    = (Returned results, h')
    /\ length results = length references
    /\ map ValidationResult.referenceId results = map Reference.id references
    /\ Forall2 (accounts_for W settings) references results.
Proof.
  intros Hprogress Hresult.
  destruct (validate_from_spec onProgress onResult Hprogress Hresult settings
              (length references) references 0 [] h)
    as (out & h' & Eout & Hout).
  exists out. eexists.
  unfold validateAllReferences, bind at 1. rewrite Eout. cbn [app].
  unfold bind at 1, call at 1. rewrite Hprogress. unfold ret.
  split; [reflexivity|].
  split; [symmetry; exact (Forall2_length Hout)|].
  split; [|exact Hout].
  clear Eout. induction Hout as [|r res rs ress [Hid _] _ IH];
    [reflexivity|].
  cbn [map]. rewrite Hid, IH. reflexivity.
Qed.

End WithWorld.

Lemma validateAllReferences_one_result_each_witness :
  returns_normally (@returning ValidationProgress.t)
  /\ returns_normally (@returning ValidationResult.t)
  /\ exists results h',
       validateAllReferences barren [abc_reference; full_reference]
         (settings_of agent_based) returning returning []
       = (Returned results, h')
       /\ length results = length [abc_reference; full_reference]
       /\ map ValidationResult.referenceId results
          = map Reference.id [abc_reference; full_reference]
       /\ Forall2 (accounts_for barren (settings_of agent_based))
                  [abc_reference; full_reference] results.
Proof.
  split; [intros a h; reflexivity|].
  split; [intros a h; reflexivity|].
  apply (validateAllReferences_one_result_each barren
           [abc_reference; full_reference] (settings_of agent_based)
           returning returning []).
  - intros a h. reflexivity.
  - intros a h. reflexivity.
Defined.

(** The substitute result is reachable: when the LLM drops [authors] from
    a query variant, agent-based validation throws and the batch goes on. *)
Example batch_survives_exception :
  fst (validateAllReferences barren [abc_reference; abc_reference]
         (settings_of agent_based) returning returning [])
  = Returned
      [errorResult abc_reference
         "Cannot read properties of undefined (reading 'slice')";
       errorResult abc_reference
         "Cannot read properties of undefined (reading 'slice')"].
Proof. vm_compute. reflexivity. Qed.

(** A callback that throws breaks the count.  [onResult] is called inside
    the [try], after [results.push(result)]: when it throws at its first
    call, the [catch] pushes a substitute for the same reference, and the
    one reference has two results, the second contradicting the first.
    [onProgress] is called outside the [try]: when it throws, the batch
    throws and returns nothing. *)
Lemma throwing_callback_breaks_one_result_each :
  (exists result,
      fst (validateReference generous full_reference (settings_of api_only)
             [Progressed (ValidationProgress.mk 1 0 (Some "Deep Learning"))])
      = Returned result
      /\ ValidationResult.status result = verified
      /\ fst (validateAllReferences generous [full_reference]
                (settings_of api_only) returning throws_once [])
         = Returned [result; errorResult full_reference "callback failed"])
  /\ fst (validateAllReferences generous [full_reference]
            (settings_of api_only) throws_always returning [])
     = Threw "callback failed".
Proof.
  split; [|vm_compute; reflexivity].
  eexists. split; [vm_compute; reflexivity|].
  split; vm_compute; reflexivity.
Qed.

End BatchFacts.

(** ** Edit distance and the similarity measures built on it *)

Module DistanceFacts.

Import JS Num StringMatching WordSets AuthorNormalization Aux.
Import NumFacts SymmetryFacts AuthorFacts BoundFacts.
Local Open Scope Q_scope.

Lemma lev_spec_lower (xs ys : list ascii) :
  (length xs - length ys <= lev_spec xs ys)%nat.
Proof.
  revert ys. induction xs as [|x xs IHxs]; intro ys.
  - cbn [length]. lia.
  - induction ys as [|y ys IHys].
    + rewrite lev_spec_nil_r. lia.
    + rewrite lev_spec_cons. pose proof (IHxs ys). pose proof (IHxs (y :: ys)).
      cbn [length] in *. destruct (Ascii.eqb x y); lia.
Qed.

Lemma lev_spec_zero (xs ys : list ascii) : lev_spec xs ys = 0%nat <-> xs = ys.
Proof.
  revert ys. induction xs as [|x xs IHxs]; intro ys.
  - rewrite lev_spec_nil_l. destruct ys; cbn [length]; split; congruence.
  - destruct ys as [|y ys].
    + rewrite lev_spec_nil_r. cbn [length]. split; congruence.
    + rewrite lev_spec_cons. destruct (Ascii.eqb x y) eqn:E.
      * apply Ascii.eqb_eq in E. subst y. rewrite IHxs. split; congruence.
      * apply Ascii.eqb_neq in E. split; [lia | congruence].
Qed.

Lemma list_ascii_inj (a b : string) :
  list_ascii_of_string a = list_ascii_of_string b -> a = b.
Proof.
  intro H. rewrite <- (string_of_list_ascii_of_string a),
             <- (string_of_list_ascii_of_string b), H. reflexivity.
Qed.

Lemma rev_inj {A} (l1 l2 : list A) : List.rev l1 = List.rev l2 -> l1 = l2.
Proof. intro H. rewrite <- (rev_involutive l1), H. apply rev_involutive. Qed.

Lemma levenshteinDistance_zero (a b : string) :
  levenshteinDistance a b = 0%nat <-> a = b.
Proof.
  rewrite levenshteinDistance_spec, lev_spec_zero. split.
  - intro H. symmetry. apply list_ascii_inj, rev_inj, H.
  - intros ->. reflexivity.
Qed.

(** X1.  [levenshteinDistance] is symmetric, is 0 exactly when the two
    strings are the same, lies between the difference and the larger of
    the two lengths, and equals the length of the other string when one of
    the two is empty. *)
Theorem levenshteinDistance_symmetric_and_bounded (a b : string) :
  levenshteinDistance a b = levenshteinDistance b a
  /\ (levenshteinDistance a b = 0%nat <-> a = b)
  /\ (Nat.max (String.length a) (String.length b)
      - Nat.min (String.length a) (String.length b)
      <= levenshteinDistance a b)%nat
  /\ (levenshteinDistance a b
      <= Nat.max (String.length a) (String.length b))%nat
  /\ levenshteinDistance a EmptyString = String.length a
  /\ levenshteinDistance EmptyString b = String.length b.
Proof.
  split; [apply levenshteinDistance_sym|].
  split; [apply levenshteinDistance_zero|].
  split.
  { pose proof (lev_spec_lower (List.rev (list_ascii_of_string a))
                               (List.rev (list_ascii_of_string b))) as H1.
    pose proof (lev_spec_lower (List.rev (list_ascii_of_string b))
                               (List.rev (list_ascii_of_string a))) as H2.
    rewrite !length_rev, !length_list_ascii in H1, H2.
    rewrite (levenshteinDistance_spec a b).
    rewrite lev_spec_sym in H1. lia. }
  split; [apply levenshteinDistance_bound|].
  split.
  - rewrite levenshteinDistance_spec. cbn [list_ascii_of_string List.rev].
    rewrite lev_spec_nil_l, length_rev, length_list_ascii. reflexivity.
  - rewrite levenshteinDistance_spec. cbn [list_ascii_of_string List.rev].
    rewrite lev_spec_nil_r, length_rev, length_list_ascii. reflexivity.
Qed.

(** X2.  [stringSimilarity] is symmetric, stays within 0 and 1, and is 1
    exactly when the two strings have the same normal form under
    [normalizeString]. *)
Theorem stringSimilarity_one_iff_same_normal_form (a b : string) :
  stringSimilarity a b == stringSimilarity b a
  /\ 0 <= stringSimilarity a b <= 1
  /\ (stringSimilarity a b == 1 <-> normalizeString a = normalizeString b).
Proof.
  split; [rewrite stringSimilarity_sym; reflexivity|].
  split; [apply stringSimilarity_unit|].
  unfold stringSimilarity.
  destruct (String.eqb (normalizeString a) (normalizeString b)) eqn:E.
  - apply String.eqb_eq in E. split; [intros _; exact E | reflexivity].
  - apply String.eqb_neq in E.
    split; [|intro H; contradiction].
    intro H. exfalso.
    destruct ((String.length (normalizeString a) =? 0)%nat
              || (String.length (normalizeString b) =? 0)%nat) eqn:E0;
      [discriminate H|].
    apply orb_false_elim in E0. destruct E0 as [Ea _].
    apply Nat.eqb_neq in Ea.
    set (d := levenshteinDistance (normalizeString a) (normalizeString b)) in *.
    set (m := Nat.max (String.length (normalizeString a))
                      (String.length (normalizeString b))) in *.
    assert (Hm : 0 < Q_of_nat m) by (apply Q_of_nat_pos; lia).
    assert (Hd : (0 < d)%nat).
    { destruct d eqn:Ed; [|lia]. exfalso. apply E.
      apply levenshteinDistance_zero. exact Ed. }
    assert (Hq : 0 < Q_of_nat d / Q_of_nat m).
    { apply Qlt_shift_div_l; [exact Hm|]. rewrite Qmult_0_l.
      apply Q_of_nat_pos, Hd. }
    lra.
Qed.

Lemma NoDup_filter_string (f : string -> bool) (l : list string) :
  NoDup l -> NoDup (filter f l).
Proof. apply NoDup_filter. Qed.

Lemma new_Set_In (x : string) (xs : list string) : In x (new_Set xs) <-> In x xs.
Proof. unfold new_Set. rewrite set_add_all_In. cbn [In]. tauto. Qed.

Lemma same_members_same_length (l1 l2 : list string) :
  NoDup l1 -> NoDup l2 -> (forall x, In x l1 <-> In x l2) ->
  length l1 = length l2.
Proof.
  intros H1 H2 H. apply Nat.le_antisymm; apply NoDup_incl_length; trivial;
    intros x Hx; apply H; exact Hx.
Qed.

(** A set built from a list without repetition is that list. *)
Lemma set_add_all_fresh (xs : list string) :
  forall acc, NoDup (acc ++ xs) -> set_add_all acc xs = (acc ++ xs)%list.
Proof.
  induction xs as [|x xs IH]; intros acc H; cbn [set_add_all].
  - rewrite app_nil_r. reflexivity.
  - destruct (mem_string x acc) eqn:E.
    + apply mem_string_iff in E. exfalso.
      apply NoDup_remove_2 in H. apply H. apply in_or_app. left. exact E.
    + replace (acc ++ x :: xs)%list with ((acc ++ [x]) ++ xs)%list in *
        by (rewrite <- app_assoc; reflexivity).
      apply IH, H.
Qed.

Lemma new_Set_NoDup_id (xs : list string) : NoDup xs -> new_Set xs = xs.
Proof. intro H. unfold new_Set. rewrite set_add_all_fresh; [reflexivity | exact H]. Qed.

Lemma intersection_sym (S1 S2 : list string) :
  NoDup S1 -> NoDup S2 ->
  length (filter (fun n => mem_string n S2) S1)
  = length (filter (fun n => mem_string n S1) S2).
Proof.
  intros H1 H2. apply same_members_same_length;
    try (apply NoDup_filter; assumption).
  intro x. rewrite !filter_In, !mem_string_iff. tauto.
Qed.

(** X3.  [wordSetSimilarity] is symmetric and stays within 0 and 1; it
    is 0 when a string has no word longer than two characters and 1 when a
    string that has such a word is compared to itself. *)
Theorem wordSetSimilarity_symmetric_unit (a b : string) :
  wordSetSimilarity a b == wordSetSimilarity b a
  /\ 0 <= wordSetSimilarity a b <= 1
  /\ (tokens a = [] -> wordSetSimilarity a b == 0)
  /\ (tokens a <> [] -> wordSetSimilarity a a == 1).
Proof.
  assert (Hempty : forall xs, (length (new_Set xs) =? 0)%nat = true <-> xs = []).
  { intro xs. rewrite Nat.eqb_eq. destruct xs as [|x xs].
    - split; reflexivity.
    - pose proof (new_Set_nonempty x xs). split; [lia | discriminate]. }
  unfold wordSetSimilarity.
  set (A := new_Set (tokens a)). set (B := new_Set (tokens b)).
  assert (HA : NoDup A) by apply new_Set_NoDup.
  assert (HB : NoDup B) by apply new_Set_NoDup.
  rewrite (new_Set_NoDup_id (filter (fun w => mem_string w B) A))
    by (apply NoDup_filter; assumption).
  rewrite (new_Set_NoDup_id (filter (fun w => mem_string w A) B))
    by (apply NoDup_filter; assumption).
  rewrite (new_Set_NoDup_id (filter (fun w => mem_string w A) A))
    by (apply NoDup_filter; assumption).
  split; [|split; [|split]].
  - rewrite (orb_comm (length B =? 0)%nat).
    destruct ((length A =? 0)%nat || (length B =? 0)%nat); [reflexivity|].
    rewrite (intersection_sym A B HA HB).
    rewrite (same_members_same_length (new_Set (A ++ B)) (new_Set (B ++ A)));
      [reflexivity | apply new_Set_NoDup | apply new_Set_NoDup |].
    intro x. rewrite !new_Set_In, !in_app_iff. tauto.
  - destruct ((length A =? 0)%nat || (length B =? 0)%nat) eqn:E0;
      [split; discriminate|].
    apply orb_false_elim in E0. destruct E0 as [Ea _].
    apply Nat.eqb_neq in Ea.
    apply ratio_in_unit.
    + etransitivity; [apply (intersection_small A B HA)|].
      etransitivity; [apply Nat.le_min_l|].
      apply NoDup_incl_length; [exact HA|].
      intros x Hx. apply new_Set_In, in_or_app. left. exact Hx.
    + assert (length A <= length (new_Set (A ++ B)))%nat; [|lia].
      apply NoDup_incl_length; [exact HA|].
      intros x Hx. apply new_Set_In, in_or_app. left. exact Hx.
  - intro Ht. unfold A. rewrite Ht. reflexivity.
  - intro Ht.
    assert (Ea : (length (new_Set (tokens a)) =? 0)%nat = false).
    { destruct (length (new_Set (tokens a)) =? 0)%nat eqn:E; [|reflexivity].
      apply Hempty in E. contradiction. }
    clear B HB. fold A in Ea. rewrite Ea. cbn [orb].
    rewrite intersection_self.
    rewrite (same_members_same_length (new_Set (A ++ A)) A);
      [ apply ratio_self; apply Nat.eqb_neq in Ea; lia
      | apply new_Set_NoDup | exact HA |].
    intro x. rewrite new_Set_In, in_app_iff. tauto.
Qed.

Lemma wordSetSimilarity_symmetric_unit_witness :
  tokens "deep learning" <> []
  /\ wordSetSimilarity "deep learning" "deep learning" == 1
  /\ tokens "a of" = []
  /\ wordSetSimilarity "a of" "deep learning" == 0.
Proof.
  assert (H1 : tokens "deep learning" <> []) by (vm_compute; discriminate).
  assert (H2 : tokens "a of" = []) by (vm_compute; reflexivity).
  split; [exact H1|].
  split; [apply (wordSetSimilarity_symmetric_unit "deep learning" "deep learning"), H1|].
  split; [exact H2|].
  apply (wordSetSimilarity_symmetric_unit "a of" "deep learning"), H2.
Defined.

(** X4.  [titleSimilarity] stays within 0 and 1 whenever the words
    longer than two characters of its first argument are pairwise
    distinct. *)
Theorem titleSimilarity_in_unit_interval (a b : string) :
  NoDup (tokens a) -> 0 <= titleSimilarity a b <= 1.
Proof. apply titleSimilarity_unit_without_repeats. Qed.

Lemma titleSimilarity_in_unit_interval_witness :
  NoDup (tokens "Attention is all you need")
  /\ 0 <= titleSimilarity "Attention is all you need" "Attention is what you need" <= 1.
Proof.
  assert (H : NoDup (tokens "Attention is all you need")).
  { vm_compute. repeat constructor; cbn; intuition discriminate. }
  split; [exact H|].
  apply (titleSimilarity_in_unit_interval "Attention is all you need"
           "Attention is what you need" H).
Defined.

(** X5.  [titleSimilarity] of a title with itself is 1, also for the
    empty title, and it is 0 in both directions when exactly one of the
    two titles has an empty normal form under [normalizeTitle]. *)
Theorem titleSimilarity_identity_and_empty (a b : string) :
  titleSimilarity a a == 1
  /\ (normalizeTitle a = EmptyString -> normalizeTitle b <> EmptyString ->
      titleSimilarity a b == 0 /\ titleSimilarity b a == 0).
Proof.
  split.
  - unfold titleSimilarity. rewrite String.eqb_refl. reflexivity.
  - intros Ha Hb. unfold titleSimilarity. rewrite Ha.
    apply String.eqb_neq in Hb. rewrite Hb.
    rewrite String.eqb_sym in Hb. rewrite Hb.
    cbn [String.length Nat.eqb orb]. rewrite orb_true_r.
    split; reflexivity.
Qed.

Lemma titleSimilarity_identity_and_empty_witness :
  normalizeTitle "?!" = EmptyString
  /\ normalizeTitle "Deep Learning" <> EmptyString
  /\ titleSimilarity "?!" "Deep Learning" == 0
  /\ titleSimilarity "Deep Learning" "?!" == 0.
Proof.
  assert (H1 : normalizeTitle "?!" = EmptyString) by (vm_compute; reflexivity).
  assert (H2 : normalizeTitle "Deep Learning" <> EmptyString)
    by (vm_compute; discriminate).
  split; [exact H1|]. split; [exact H2|].
  apply (titleSimilarity_identity_and_empty "?!" "Deep Learning"); assumption.
Defined.

(** X6.  [compareAuthorLists] does not depend on the order of its two
    arguments. *)
Theorem compareAuthorLists_symmetric (authors1 authors2 : list string) :
  compareAuthorLists authors1 authors2 == compareAuthorLists authors2 authors1.
Proof.
  unfold compareAuthorLists.
  rewrite (orb_comm (length authors2 =? 0)%nat).
  destruct ((length authors1 =? 0)%nat || (length authors2 =? 0)%nat);
    [reflexivity|].
  rewrite (intersection_sym _ _ (new_Set_NoDup _) (new_Set_NoDup _)).
  rewrite Nat.min_comm. reflexivity.
Qed.

End DistanceFacts.

(** ** Invariants of the reference parser *)

Module ParserInvariants.

Import JS Regex RegexExtractor Shapes.

Lemma filter_sequential_climbs (ms : list boundary) :
  forall lastAcceptedNumber,
    climbs lastAcceptedNumber (map number (filter_sequential lastAcceptedNumber ms)).
Proof.
  induction ms as [|m more IH]; intro lastAccepted; cbn [filter_sequential].
  - exact I.
  - destruct ((lastAccepted + 1 <=? number m) && (number m <=? lastAccepted + 3))
      eqn:E.
    + apply andb_true_iff in E. destruct E as [E1 E2].
      apply Nat.leb_le in E1. apply Nat.leb_le in E2.
      cbn [map climbs]. repeat split; [exact E1 | exact E2 | apply IH].
    + apply IH.
Qed.

Lemma filter_sequential_incl (ms : list boundary) :
  forall lastAcceptedNumber m,
    In m (filter_sequential lastAcceptedNumber ms) -> In m ms.
Proof.
  induction ms as [|m0 more IH]; intros lastAccepted m; cbn [filter_sequential].
  - intros [].
  - destruct ((lastAccepted + 1 <=? number m0) && (number m0 <=? lastAccepted + 3)).
    + intros [<-|H]; [left; reflexivity | right; eapply IH, H].
    + intro H. right. eapply IH, H.
Qed.

(** The labels kept by a run that starts from [prev] lie between
    [prev + k] and [prev + 3 k] at position [k] (counted from 1). *)
Lemma climbs_nth (labels : list nat) :
  forall prev k n,
    climbs prev labels -> nth_error labels k = Some n ->
    prev + (k + 1) <= n /\ n <= prev + 3 * (k + 1).
Proof.
  induction labels as [|l more IH]; intros prev k n Hc Hn.
  - destruct k; discriminate.
  - cbn [climbs] in Hc. destruct Hc as (H1 & H2 & Hc).
    destruct k as [|k]; cbn [nth_error] in Hn.
    + injection Hn as <-. lia.
    + destruct (IH l k n Hc Hn). lia.
Qed.

(** X7.  The labels accepted by the sequence filter of
    [extractTwoColumnReferences] are detections of the input, the first
    one exceeds the number the filter started from by 1 to 3, every next
    one exceeds its predecessor by 1 to 3, and so the label at position
    [k] (from 0) lies between [k + 1] and [3 (k + 1)] above the start. *)
Theorem filter_sequential_accepts_small_steps
        (lastAcceptedNumber : nat) (ms : list boundary) :
  climbs lastAcceptedNumber
         (map number (filter_sequential lastAcceptedNumber ms))
  /\ (forall m, In m (filter_sequential lastAcceptedNumber ms) -> In m ms)
  /\ (forall k n,
        nth_error (map number (filter_sequential lastAcceptedNumber ms)) k
        = Some n ->
        lastAcceptedNumber + (k + 1) <= n
        /\ n <= lastAcceptedNumber + 3 * (k + 1)).
Proof.
  split; [apply filter_sequential_climbs|].
  split; [apply filter_sequential_incl|].
  intros k n. apply climbs_nth, filter_sequential_climbs.
Qed.

Lemma meaningful_set_citation_number (n : nat) (r : ExtractedReferenceWithIndex) :
  meaningful (set_citation_number n r) = meaningful r.
Proof. reflexivity. Qed.

Lemma renumber_meaningful (results : list ExtractedReferenceWithIndex) :
  forall index,
    Forall (fun r => meaningful r = true) results ->
    Forall (fun r => meaningful r = true) (renumber index results).
Proof.
  induction results as [|r more IH]; intros index H; cbn [renumber].
  - constructor.
  - inversion H; subst. constructor; [assumption | apply IH; assumption].
Qed.

Lemma slice_entries_meaningful (text : string) (startPage : nat) (strip : regex)
      (label : nat -> boundary -> nat) (ms : list boundary) :
  forall i,
    Forall (fun r => meaningful r = true)
           (slice_entries text startPage strip label i ms).
Proof.
  induction ms as [|m more IH]; intro i; cbn [slice_entries].
  - constructor.
  - apply Forall_app. split; [|apply IH].
    destruct (20 <=? _); [|constructor].
    destruct (meaningful _) eqn:E; [|constructor].
    constructor; [exact E | constructor].
Qed.

Lemma author_year_entries_meaningful (text : string) (startPage : nat)
      (entries : list string) :
  forall currentIndex index,
    Forall (fun r => meaningful r = true)
           (author_year_entries text startPage currentIndex index entries).
Proof.
  induction entries as [|entry more IH]; intros currentIndex index;
    cbn [author_year_entries].
  - constructor.
  - destruct (50 <? _); [|apply IH].
    destruct (indexOf _ _ _); [|apply IH].
    apply Forall_app. split; [|apply IH].
    destruct (meaningful _) eqn:E; [|constructor].
    constructor; [exact E | constructor].
Qed.

(** X8.  Every entry returned by the two-column, the period-numbered,
    the author-year and the fallback strategy has a title or at least one
    author. *)
Theorem later_strategies_return_meaningful_entries
        (text : string) (startPage : nat) :
  Forall (fun r => meaningful r = true)
         (extractTwoColumnReferences text startPage)
  /\ Forall (fun r => meaningful r = true)
            (extractPeriodNumberedReferences text startPage)
  /\ Forall (fun r => meaningful r = true)
            (extractAuthorYearReferences text startPage)
  /\ Forall (fun r => meaningful r = true)
            (extractFallbackReferences text startPage).
Proof.
  split; [|split; [|split]].
  - unfold extractTwoColumnReferences. apply renumber_meaningful.
    destruct (3 <=? _); [apply slice_entries_meaningful | constructor].
  - unfold extractPeriodNumberedReferences.
    apply Forall_flat_map, Forall_forall. intros m _.
    destruct (_ <? 20); [constructor|].
    destruct (_ && _); [|constructor].
    destruct (meaningful _) eqn:E; [|constructor].
    constructor; [exact E | constructor].
  - apply author_year_entries_meaningful.
  - unfold extractFallbackReferences.
    destruct (3 <=? _); [apply slice_entries_meaningful|].
    destruct (3 <=? _); [apply slice_entries_meaningful | constructor].
Qed.

Lemma last_filter_default {A} (f : A -> bool) (l : list A) (d : A) :
  last (filter f l) d = d \/ f (last (filter f l) d) = true.
Proof.
  destruct (filter f l) as [|x rest] eqn:E; [left; reflexivity|].
  right.
  assert (H : In (last (x :: rest) d) (filter f l)).
  { rewrite E. clear E. revert x. induction rest as [|y rest IH]; intro x.
    - left. reflexivity.
    - right. apply (IH y). }
  apply filter_In in H. apply H.
Qed.

Lemma extractYear_plausible (cleanText : string) :
  extractYear cleanText = EmptyString
  \/ plausible_year (extractYear cleanText) = true.
Proof. unfold extractYear. apply last_filter_default. Qed.

Lemma parseReferenceText_well_formed (text : string)
      (citationNumber pageNumber relativeIndex : nat) :
  well_formed pageNumber
    (parseReferenceText text citationNumber pageNumber relativeIndex).
Proof.
  unfold well_formed, parseReferenceText.
  cbn [page_number authors citation_number year].
  split; [reflexivity|]. split.
  - unfold extractAuthorsFromReference. rewrite length_firstn. lia.
  - split; [discriminate | apply extractYear_plausible].
Qed.

Lemma set_citation_number_well_formed (page n : nat)
      (r : ExtractedReferenceWithIndex) :
  well_formed page r -> well_formed page (set_citation_number n r).
Proof.
  unfold well_formed. cbn [set_citation_number page_number authors
                             citation_number year].
  intros (H1 & H2 & _ & H4). repeat split; try assumption. discriminate.
Qed.

Lemma renumber_well_formed (page : nat)
      (results : list ExtractedReferenceWithIndex) :
  forall index,
    Forall (well_formed page) results ->
    Forall (well_formed page) (renumber index results).
Proof.
  induction results as [|r more IH]; intros index H; cbn [renumber].
  - constructor.
  - inversion H; subst.
    constructor; [apply set_citation_number_well_formed; assumption
                 | apply IH; assumption].
Qed.

Lemma slice_entries_well_formed (text : string) (startPage : nat)
      (strip : regex) (label : nat -> boundary -> nat) (ms : list boundary) :
  forall i,
    Forall (well_formed startPage)
           (slice_entries text startPage strip label i ms).
Proof.
  induction ms as [|m more IH]; intro i; cbn [slice_entries].
  - constructor.
  - apply Forall_app. split; [|apply IH].
    destruct (20 <=? _); [|constructor].
    destruct (meaningful _); [|constructor].
    constructor; [apply parseReferenceText_well_formed | constructor].
Qed.

Lemma author_year_entries_well_formed (text : string) (startPage : nat)
      (entries : list string) :
  forall currentIndex index,
    Forall (well_formed startPage)
           (author_year_entries text startPage currentIndex index entries).
Proof.
  induction entries as [|entry more IH]; intros currentIndex index;
    cbn [author_year_entries].
  - constructor.
  - destruct (50 <? _); [|apply IH].
    destruct (indexOf _ _ _); [|apply IH].
    apply Forall_app. split; [|apply IH].
    destruct (meaningful _); [|constructor].
    constructor; [apply parseReferenceText_well_formed | constructor].
Qed.

Lemma strategies_well_formed (text : string) (startPage : nat) :
  Forall (well_formed startPage) (extractBracketedReferences text startPage)
  /\ Forall (well_formed startPage) (extractTwoColumnReferences text startPage)
  /\ Forall (well_formed startPage)
            (extractPeriodNumberedReferences text startPage)
  /\ Forall (well_formed startPage)
            (extractAuthorYearReferences text startPage)
  /\ Forall (well_formed startPage) (extractFallbackReferences text startPage).
Proof.
  split; [|split; [|split; [|split]]].
  - unfold extractBracketedReferences. apply Forall_map, Forall_forall.
    intros m _. apply parseReferenceText_well_formed.
  - unfold extractTwoColumnReferences. apply renumber_well_formed.
    destruct (3 <=? _); [apply slice_entries_well_formed | constructor].
  - unfold extractPeriodNumberedReferences.
    apply Forall_flat_map, Forall_forall. intros m _.
    destruct (_ <? 20); [constructor|].
    destruct (_ && _); [|constructor].
    destruct (meaningful _); [|constructor].
    constructor; [apply parseReferenceText_well_formed | constructor].
  - apply author_year_entries_well_formed.
  - unfold extractFallbackReferences.
    destruct (3 <=? _); [apply slice_entries_well_formed|].
    destruct (3 <=? _); [apply slice_entries_well_formed | constructor].
Qed.

(** X9.  Whatever strategy wins, every entry returned by
    [extractReferencesWithRegex] carries the fallback page number it was
    called with, at most 10 authors, a citation number, and a year that is
    either empty or a number from 1900 to 2099 (with an optional letter);
    and the function returns either nothing or at least three entries
    unless the fallback strategy produced the result. *)
Theorem extracted_entries_are_well_formed
        (bibliographyText : string) (startPage : nat) :
  Forall (well_formed startPage)
         (extractReferencesWithRegex bibliographyText startPage)
  /\ (3 <= length (extractReferencesWithRegex bibliographyText startPage)
      \/ extractReferencesWithRegex bibliographyText startPage
         = extractFallbackReferences
             (normalizeBibliographyText bibliographyText) startPage).
Proof.
  unfold extractReferencesWithRegex.
  destruct (strategies_well_formed
              (normalizeBibliographyText bibliographyText) startPage)
    as (H1 & H2 & H3 & H4 & H5).
  destruct (3 <=? length (extractBracketedReferences _ _)) eqn:E1;
    [apply Nat.leb_le in E1; split; [exact H1 | left; exact E1]|].
  destruct (3 <=? length (extractTwoColumnReferences _ _)) eqn:E2;
    [apply Nat.leb_le in E2; split; [exact H2 | left; exact E2]|].
  destruct (3 <=? length (extractPeriodNumberedReferences _ _)) eqn:E3;
    [apply Nat.leb_le in E3; split; [exact H3 | left; exact E3]|].
  destruct (3 <=? length (extractAuthorYearReferences _ _)) eqn:E4;
    [apply Nat.leb_le in E4; split; [exact H4 | left; exact E4]|].
  split; [exact H5 | right; reflexivity].
Qed.

End ParserInvariants.

(** ** The match scores of the connectors *)

Module ScoreFacts.

Import JS Num StringMatching AuthorNormalization Connectors WebSearchAgent.
Import NumFacts AuthorFacts BoundFacts Shapes.
Local Open Scope Q_scope.

Lemma best_candidate_loop (score_of : Work -> Q) (threshold : Q) :
  0 <= threshold ->
  forall items seen bestMatch bestScore,
    loop_state score_of threshold seen bestMatch bestScore ->
    exists bestScore',
      loop_state score_of threshold (seen ++ items)
        (best_candidate score_of threshold items bestMatch bestScore)
        bestScore'.
Proof.
  intro Ht. induction items as [|item more IH];
    intros seen bestMatch bestScore Hs; cbn [best_candidate].
  - rewrite app_nil_r. exists bestScore. exact Hs.
  - replace (seen ++ item :: more)%list with ((seen ++ [item]) ++ more)%list
      by (rewrite <- app_assoc; reflexivity).
    destruct (Qgt_bool (score_of item) bestScore
              && Qgt_bool (score_of item) threshold) eqn:E.
    + apply andb_true_iff in E. destruct E as [E1 E2].
      apply Qgt_bool_iff in E1. apply Qgt_bool_iff in E2.
      apply IH. unfold loop_state.
      split; [reflexivity|]. split; [apply in_or_app; right; left; reflexivity|].
      split; [exact E2|].
      intros x Hx. apply in_app_or in Hx. destruct Hx as [Hx|[<-|[]]].
      * destruct bestMatch as [b|]; unfold loop_state in Hs.
        -- destruct Hs as (Hb & _ & _ & Hall). specialize (Hall x Hx). lra.
        -- destruct Hs as (_ & Hall). specialize (Hall x Hx). lra.
      * lra.
    + apply IH.
      assert (Hle : score_of item <= bestScore \/ score_of item <= threshold).
      { apply andb_false_iff in E. destruct E as [E|E]; [left|right];
          destruct (Qlt_le_dec bestScore (score_of item)) as [L|L];
          try (apply Qgt_bool_iff in L; congruence); try exact L;
          destruct (Qlt_le_dec threshold (score_of item)) as [L'|L'];
          try (apply Qgt_bool_iff in L'; congruence); exact L'. }
      destruct bestMatch as [b|]; unfold loop_state in *.
      * destruct Hs as (Hb & Hin & Hth & Hall).
        split; [exact Hb|]. split; [apply in_or_app; left; exact Hin|].
        split; [exact Hth|].
        intros x Hx. apply in_app_or in Hx. destruct Hx as [Hx|[<-|[]]].
        -- apply Hall, Hx.
        -- destruct Hle; lra.
      * destruct Hs as (Hb & Hall). split; [exact Hb|].
        intros x Hx. apply in_app_or in Hx. destruct Hx as [Hx|[<-|[]]].
        -- apply Hall, Hx.
        -- destruct Hle; lra.
Qed.

(** X10.  For a threshold that is not negative, the candidate loop of the
    connectors' title searches returns [null] exactly when no candidate
    scores above the threshold, and otherwise one of the candidates, which
    scores above the threshold and at least as high as every other
    candidate. *)
Theorem best_candidate_is_the_best_above_threshold
        (score_of : Work -> Q) (threshold : Q) (items : list Work) :
  0 <= threshold ->
  match best_candidate score_of threshold items None 0 with
  | None => forall x, In x items -> score_of x <= threshold
  | Some b =>
      In b items /\ threshold < score_of b
      /\ forall x, In x items -> score_of x <= score_of b
  end.
Proof.
  intro Ht.
  destruct (best_candidate_loop score_of threshold Ht items [] None 0)
    as [bs Hs].
  { unfold loop_state. split; [reflexivity | intros x []]. }
  cbn [app] in Hs. unfold loop_state in Hs. unfold Work in *. revert Hs.
  match goal with
  | |- match ?t with _ => _ end -> _ => destruct t as [b|]
  end; intro Hs.
  - destruct Hs as (_ & H1 & H2 & H3). auto.
  - apply Hs.
Qed.

Lemma best_candidate_is_the_best_witness :
  0 <= 6 # 10
  /\ best_candidate
       (fun item => titleSimilarity "Deep Learning"
                      (RetrievedReferenceData.title item))
       (6 # 10) [Sample.unrelated_data; Sample.full_data] None 0
     = Some Sample.full_data.
Proof.
  assert (H : 0 <= 6 # 10) by (vm_compute; discriminate).
  split; [exact H|].
  pose proof (best_candidate_is_the_best_above_threshold
                (fun item => titleSimilarity "Deep Learning"
                               (RetrievedReferenceData.title item))
                (6 # 10) [Sample.unrelated_data; Sample.full_data] H) as B.
  destruct (best_candidate _ _ _ None 0) as [b|] eqn:E.
  - destruct B as ([<-|[<-|[]]] & Hb & _).
    + exfalso. revert Hb. vm_compute. discriminate.
    + reflexivity.
  - exfalso. specialize (B Sample.full_data (or_intror (or_introl eq_refl))).
    revert B. vm_compute. intro B. apply B. reflexivity.
Defined.

Lemma balanced_start : balanced (0, 0).
Proof. split; cbn [fst snd]; lra. Qed.

Lemma balanced_step (acc : Q * Q) (x w : Q) :
  0 <= x /\ x <= 1 -> 0 <= w -> balanced acc ->
  balanced (fst acc + x * w, snd acc + w).
Proof.
  intros [H0 H1] Hw [A0 A1]. split; cbn [fst snd].
  - assert (0 <= x * w) by (apply Qmult_le_0_compat; assumption). lra.
  - assert (x * w <= 1 * w) by (apply Qmult_le_compat_r; assumption). lra.
Qed.

Lemma balanced_mean (acc : Q * Q) :
  balanced acc ->
  0 <= (if Qgt_bool (snd acc) 0 then fst acc / snd acc else 0)
  /\ (if Qgt_bool (snd acc) 0 then fst acc / snd acc else 0) <= 1.
Proof.
  intros [A0 A1]. destruct (Qgt_bool (snd acc) 0) eqn:E; [|split; lra].
  apply Qgt_bool_iff in E. split.
  - apply Qle_shift_div_l; [exact E | lra].
  - apply Qle_shift_div_r; [exact E | lra].
Qed.

Lemma year_score_unit (d : Z) : 0 <= year_score d /\ year_score d <= 1.
Proof.
  unfold year_score.
  destruct (d =? 0)%Z; [split; discriminate|].
  destruct (d =? 1)%Z; [split; discriminate|].
  destruct (d =? 2)%Z; split; discriminate.
Qed.

Lemma compareAuthorLists_unit (A B : list string) :
  0 <= compareAuthorLists A B /\ compareAuthorLists A B <= 1.
Proof.
  unfold compareAuthorLists.
  destruct ((length A =? 0)%nat || (length B =? 0)%nat) eqn:E0;
    [split; discriminate|].
  apply orb_false_elim in E0. destruct E0 as [Ea Eb].
  apply Nat.eqb_neq in Ea. apply Nat.eqb_neq in Eb.
  destruct A as [|a A]; [contradiction|]. destruct B as [|b B]; [contradiction|].
  apply ratio_in_unit.
  - apply intersection_small, new_Set_NoDup.
  - pose proof (new_Set_nonempty (extractLastName a) (map extractLastName A)).
    pose proof (new_Set_nonempty (extractLastName b) (map extractLastName B)).
    cbn [map]. lia.
Qed.

Lemma new_Set_map_pos (f : string -> string) (l : list string) :
  (0 <? length l)%nat = true -> (0 < length (new_Set (map f l)))%nat.
Proof.
  destruct l as [|x l]; [discriminate|]. intros _. cbn [map].
  apply new_Set_nonempty.
Qed.

Ltac balance :=
  repeat first
    [ apply balanced_start
    | match goal with
      | |- balanced (if ?c then _ else _) => destruct c eqn:?
      | |- balanced (match ?x with Some _ => _ | None => _ end) => destruct x
      end
    | apply balanced_step; [ | discriminate | ] ].

Ltac parts :=
  repeat match goal with
    | |- context [match ?x with Some _ => _ | None => _ end] => destruct x
    | |- context [if ?c then _ else _] => destruct c
    end; split; discriminate.

(** X11.  The match score of the arXiv connector always lies within 0
    and 1. *)
Theorem arxiv_calculateMatchScore_in_unit_interval
        (reference : Reference.t) (retrieved : Work) :
  0 <= arxiv_calculateMatchScore reference retrieved <= 1.
Proof.
  unfold arxiv_calculateMatchScore. apply balanced_mean. cbv zeta.
  balance.
  all: try apply stringSimilarity_unit.
  all: try solve [parts].
  all: match goal with
       | E : (_ && _)%bool = true |- _ =>
           apply andb_true_iff in E; destruct E as [E1 E2]
       end;
       apply ratio_in_unit;
       [ etransitivity;
         [ apply intersection_small, new_Set_NoDup
         | etransitivity; [apply Nat.le_min_l | apply Nat.le_max_l] ]
       | pose proof (new_Set_map_pos arxiv_last_word _ E1); lia ].
Qed.

Lemma filter_length_le {A} (f : A -> bool) (l : list A) :
  (length (filter f l) <= length l)%nat.
Proof.
  induction l as [|x l IH]; cbn [filter length]; [lia|].
  destruct (f x); cbn [length]; lia.
Qed.

(** X12.  The match score shared by the CrossRef, Semantic Scholar and
    OpenAlex connectors and the confidence of the web search agent lie
    within 0 and 1 whenever the words longer than two characters of the
    reference's title are pairwise distinct. *)
Theorem calculateMatchScore_in_unit_interval
        (reference : Reference.t) (retrieved : Work) :
  NoDup (tokens (Reference.title reference)) ->
  0 <= calculateMatchScore reference retrieved <= 1
  /\ 0 <= calculateConfidence reference retrieved <= 1.
Proof.
  intro Hnd. split.
  - unfold calculateMatchScore. apply balanced_mean. cbv zeta.
    balance.
    all: try (apply titleSimilarity_unit_without_repeats; exact Hnd).
    all: try apply year_score_unit.
    all: match goal with
         | E : (_ && _)%bool = true |- _ =>
             apply andb_true_iff in E; destruct E as [E1 E2]
         end;
         apply ratio_in_unit;
         [ etransitivity; [apply filter_length_le | apply Nat.le_max_l]
         | rewrite !length_map; apply Nat.ltb_lt in E1; lia ].
  - unfold calculateConfidence. apply balanced_mean. cbv zeta.
    balance.
    all: try (apply titleSimilarity_unit_without_repeats; exact Hnd).
    all: try apply year_score_unit.
    all: apply compareAuthorLists_unit.
Qed.

Lemma calculateMatchScore_in_unit_interval_witness :
  NoDup (tokens (Reference.title Sample.full_reference))
  /\ 0 <= calculateMatchScore Sample.full_reference Sample.full_data <= 1
  /\ 0 <= calculateConfidence Sample.full_reference Sample.full_data <= 1.
Proof.
  assert (H : NoDup (tokens (Reference.title Sample.full_reference))).
  { vm_compute. repeat constructor; cbn; intuition discriminate. }
  split; [exact H|].
  apply (calculateMatchScore_in_unit_interval Sample.full_reference
           Sample.full_data H).
Defined.

End ScoreFacts.

(** ** What the analyzers guarantee about a result *)

Module VerdictFacts.

Import JS Num StringMatching AuthorNormalization Connectors Analyzer.
Import NumFacts AnalyzerFacts Reading Shapes.
Local Open Scope Q_scope.

Lemma best_source_found (sources : list ValidationSource.t)
      (best : ValidationSource.t) :
  best_source sources = Some best ->
  In best sources /\ ValidationSource.found best = true
  /\ 0 < ValidationSource.matchScore best.
Proof.
  unfold best_source.
  destruct (Sorting.sort by_score_desc (found_sources sources)) as [|b rest] eqn:E;
    [discriminate|].
  intro H. injection H as <-.
  apply found_sources_In, sort_In. rewrite E. left. reflexivity.
Qed.

Lemma decide_status_cases (t a : Q) (y : bool) (b : Q) :
  (decide_status t a y b = verified
   /\ TITLE_MATCH_THRESHOLD <= t /\ AUTHOR_MATCH_THRESHOLD <= a /\ y = true)
  \/ decide_status t a y b = warning
  \/ (decide_status t a y b = error
      /\ t < TITLE_MATCH_THRESHOLD /\ a < AUTHOR_MATCH_THRESHOLD /\ b <= 5 # 10).
Proof.
  unfold decide_status, TITLE_MATCH_THRESHOLD, AUTHOR_MATCH_THRESHOLD.
  destruct (Qge_bool t (70 # 100)) eqn:Et; destruct (Qge_bool a (60 # 100)) eqn:Ea;
    destruct y; cbn [andb orb].
  - left. apply Qge_bool_iff in Et. apply Qge_bool_iff in Ea. auto.
  - right. left.
    assert (Qge_bool t (5 # 10) = true)
      by (apply Qge_bool_iff; apply Qge_bool_iff in Et; lra).
    rewrite H. reflexivity.
  - right. left.
    assert (Qge_bool t (5 # 10) = true)
      by (apply Qge_bool_iff; apply Qge_bool_iff in Et; lra).
    rewrite H. reflexivity.
  - right. left.
    assert (Qge_bool t (5 # 10) = true)
      by (apply Qge_bool_iff; apply Qge_bool_iff in Et; lra).
    rewrite H. reflexivity.
  - right. left.
    assert (Qge_bool a (5 # 10) = true)
      by (apply Qge_bool_iff; apply Qge_bool_iff in Ea; lra).
    rewrite H, orb_true_r. reflexivity.
  - right. left.
    assert (Qge_bool a (5 # 10) = true)
      by (apply Qge_bool_iff; apply Qge_bool_iff in Ea; lra).
    rewrite H, orb_true_r. reflexivity.
  - destruct (Qgt_bool b (5 # 10)) eqn:Eb; [right; left; reflexivity|].
    right. right. split; [reflexivity|].
    assert (Ht : t < 70 # 100).
    { apply Qnot_le_lt. intro L. apply Qge_bool_iff in L. congruence. }
    assert (Ha : a < 60 # 100).
    { apply Qnot_le_lt. intro L. apply Qge_bool_iff in L. congruence. }
    assert (Hb : b <= 5 # 10).
    { apply Qnot_lt_le. intro L. apply Qgt_bool_iff in L. congruence. }
    auto.
  - destruct (Qgt_bool b (5 # 10)) eqn:Eb; [right; left; reflexivity|].
    right. right. split; [reflexivity|].
    assert (Ht : t < 70 # 100).
    { apply Qnot_le_lt. intro L. apply Qge_bool_iff in L. congruence. }
    assert (Ha : a < 60 # 100).
    { apply Qnot_le_lt. intro L. apply Qge_bool_iff in L. congruence. }
    assert (Hb : b <= 5 # 10).
    { apply Qnot_lt_le. intro L. apply Qgt_bool_iff in L. congruence. }
    auto.
Qed.

Lemma title_check_issues (reference : Reference.t)
      (bm : RetrievedReferenceData.t) :
  (TITLE_MATCH_THRESHOLD <= fst (title_check reference bm) ->
   snd (title_check reference bm) = [])
  /\ Forall (fun i => ValidationIssue.type i = title_mismatch)
            (snd (title_check reference bm)).
Proof.
  unfold title_check.
  destruct (truthy (Reference.title reference)
            && truthy (RetrievedReferenceData.title bm)).
  - cbn [fst snd].
    destruct (Qlt_bool (titleSimilarity _ _) TITLE_MATCH_THRESHOLD) eqn:E.
    + split; [|repeat constructor].
      intro L. apply Qlt_bool_iff in E. lra.
    + split; [reflexivity | constructor].
  - destruct (truthy (Reference.title reference)
              && negb (truthy (RetrievedReferenceData.title bm)));
      cbn [fst snd]; split; try reflexivity; constructor.
Qed.

Lemma author_check_issues (reference : Reference.t)
      (bm : RetrievedReferenceData.t) :
  (AUTHOR_MATCH_THRESHOLD <= fst (author_check reference bm) ->
   snd (author_check reference bm) = [])
  /\ (fst (author_check reference bm) < AUTHOR_MATCH_THRESHOLD ->
      exists i, snd (author_check reference bm) = [i]
                /\ ValidationIssue.type i = author_mismatch)
  /\ Forall (fun i => ValidationIssue.type i = author_mismatch)
            (snd (author_check reference bm)).
Proof.
  unfold author_check.
  destruct ((0 <? length (Reference.authors reference))%nat
            && (0 <? length (RetrievedReferenceData.authors bm))%nat).
  - cbn [fst snd].
    destruct (Qlt_bool (compareAuthorLists _ _) AUTHOR_MATCH_THRESHOLD) eqn:E.
    + split; [intro L; apply Qlt_bool_iff in E; lra|].
      split; [intros _; eexists; split; reflexivity | repeat constructor].
    + split; [reflexivity|]. split; [|constructor].
      intro L. apply Qlt_bool_iff in L. congruence.
  - cbn [fst snd]. split; [reflexivity|]. split; [|constructor].
    unfold AUTHOR_MATCH_THRESHOLD. intro L. exfalso. revert L.
    vm_compute. discriminate.
Qed.

Lemma year_check_issues (reference : Reference.t)
      (bm : RetrievedReferenceData.t) :
  Forall (fun i => ValidationIssue.type i = year_mismatch
                   /\ ValidationIssue.severity i = sev_warning)
         (snd (year_check reference bm))
  /\ (length (snd (year_check reference bm)) <= 1)%nat.
Proof.
  unfold year_check.
  destruct (truthy (Reference.year reference)
            && truthy (RetrievedReferenceData.year bm));
    [|cbn; split; [constructor | lia]].
  destruct (parseInt (Reference.year reference));
    [|cbn; split; [constructor | lia]].
  destruct (parseInt (RetrievedReferenceData.year bm));
    [|cbn; split; [constructor | lia]].
  cbn [snd]. destruct (0 <? _)%Z; cbn [length]; split;
    try lia; repeat constructor.
Qed.

(** [detailed] in terms of the three checks. *)
Lemma detailed_view (reference : Reference.t) (best : ValidationSource.t)
      (bm : RetrievedReferenceData.t) :
  let t := title_check reference bm in
  let a := author_check reference bm in
  let y := year_check reference bm in
  status (detailed reference best bm [])
  = decide_status (fst t) (fst a) (fst y) (ValidationSource.matchScore best)
  /\ issues (detailed reference best bm []) = (snd t ++ snd a ++ snd y)%list
  /\ bestMatch (detailed reference best bm []) = Some bm
  /\ confidence (detailed reference best bm [])
     = fst t * (5 # 10) + fst a * (3 # 10) + (if fst y then 2 # 10 else 0).
Proof.
  unfold detailed.
  destruct (title_check reference bm) as [t ti].
  destruct (author_check reference bm) as [a ai].
  destruct (year_check reference bm) as [y yi].
  cbn. repeat split; reflexivity.
Qed.

(** The shapes a result of either analyzer can take. *)
Lemma analysis_shapes (mode : ValidationMode) (reference : Reference.t)
      (sources : list ValidationSource.t) :
  let a := analyzer_of mode reference sources in
  (status a = unverified /\ bestMatch a = None /\ confidence a = 0
   /\ Forall (fun i => ValidationIssue.type i = not_found) (issues a))
  \/ (exists best bm c,
        best_source sources = Some best
        /\ ValidationSource.retrievedData best = Some bm
        /\ status a = warning /\ bestMatch a = Some bm /\ confidence a = c
        /\ ValidationSource.confidence best = Some c
        /\ web_special_case best = true
        /\ exists i, issues a = [i] /\ ValidationIssue.type i = not_found
                     /\ ValidationIssue.severity i = sev_warning)
  \/ (exists best bm,
        best_source sources = Some best
        /\ ValidationSource.retrievedData best = Some bm
        /\ a = detailed reference best bm []).
Proof.
  destruct mode; cbv zeta; unfold analyzer_of; [|].
  2: { unfold AgentValidationOrchestrator.analyzeResults.
    destruct (best_source sources) as [best|] eqn:Eb;
      [|left; cbn; repeat split; constructor].
    destruct (ValidationSource.retrievedData best) as [bm|] eqn:Ed;
      [|left; cbn; repeat split; constructor].
    destruct (ValidationSource.confidence best) as [c|] eqn:Ec.
    + destruct (AgentValidationOrchestrator.is_web_search _ && Qgt_bool c 0
                && Qlt_bool c WEB_SEARCH_CONFIDENCE_THRESHOLD) eqn:Ew.
      * right. left. exists best, bm, c. cbn [status bestMatch confidence issues].
        repeat split; try assumption; try reflexivity.
        -- unfold web_special_case. rewrite Ec. exact Ew.
        -- eexists. repeat split; reflexivity.
      * right. right. exists best, bm. auto.
    + right. right. exists best, bm. auto. }
  - unfold ValidationOrchestrator.analyzeResults.
    destruct (best_source sources) as [best|] eqn:Eb;
      [|left; cbn; repeat split; repeat constructor].
    destruct (ValidationSource.retrievedData best) as [bm|] eqn:Ed;
      [|left; cbn; repeat split; constructor].
    right. right. exists best, bm. auto.
Qed.

Lemma analyzer_status_cases (mode : ValidationMode) (reference : Reference.t)
      (sources : list ValidationSource.t) :
  status (analyzer_of mode reference sources) <> pending.
Proof.
  destruct (analysis_shapes mode reference sources)
    as [(Hs & _)|[(best & bm & c & _ & _ & Hs & _)|(best & bm & _ & _ & Ea)]];
    try congruence.
  rewrite Ea. destruct (detailed_view reference best bm) as (Hs & _).
  rewrite Hs.
  destruct (decide_status_cases (fst (title_check reference bm))
              (fst (author_check reference bm))
              (fst (year_check reference bm))
              (ValidationSource.matchScore best))
    as [(E & _)|[E|(E & _)]]; congruence.
Qed.

(** X13.  The two analyzers (one per validation mode) never answer [pending]; they answer
    [unverified] exactly when they hand out no best match, and then with
    confidence 0; a best match they hand out is the record of the best
    source, one that was found with a positive score. *)
Theorem unverified_exactly_without_best_match
        (mode : ValidationMode) (reference : Reference.t)
        (sources : list ValidationSource.t) :
  let a := analyzer_of mode reference sources in
  status a <> pending
  /\ (status a = unverified <-> bestMatch a = None)
  /\ (bestMatch a = None -> confidence a = 0)
  /\ (forall bm, bestMatch a = Some bm ->
        exists best,
          best_source sources = Some best
          /\ In best sources /\ ValidationSource.found best = true
          /\ 0 < ValidationSource.matchScore best
          /\ ValidationSource.retrievedData best = Some bm).
Proof.
  intro a. subst a.
  destruct (analysis_shapes mode reference sources)
    as [(Hs & Hb & Hc & _)
       |[(best & bm & c & Eb & Ed & Hs & Hb & Hc & _)
        |(best & bm & Eb & Ed & Ea)]]; [| |rewrite Ea].
  - rewrite Hs, Hb, Hc. repeat split; try discriminate; auto.
  - rewrite Hs, Hb. repeat split; try discriminate.
    intros bm' E. injection E as <-.
    exists best. destruct (best_source_found _ _ Eb) as (H1 & H2 & H3). auto.
  - destruct (detailed_view reference best bm) as (Hs & _ & Hb & _).
    rewrite Hs, Hb.
    assert (Hst : forall st,
               decide_status (fst (title_check reference bm))
                 (fst (author_check reference bm))
                 (fst (year_check reference bm))
                 (ValidationSource.matchScore best) = st ->
               st = verified \/ st = warning \/ st = error).
    { intros st <-.
      destruct (decide_status_cases (fst (title_check reference bm))
                  (fst (author_check reference bm))
                  (fst (year_check reference bm))
                  (ValidationSource.matchScore best))
        as [(E & _)|[E|(E & _)]]; auto. }
    split; [intro E; apply Hst in E; destruct E as [E|[E|E]]; discriminate|].
    split; [split; [intro E; apply Hst in E; destruct E as [E|[E|E]]; discriminate
                   | discriminate]|].
    split; [discriminate|].
    intros bm' E. injection E as <-.
    exists best. destruct (best_source_found _ _ Eb) as (H1 & H2 & H3). auto.
Qed.

(** X14.  A result that the analyzer of either mode marks [verified] has a
    confidence of at least 0.73 and no issue other than at most one
    year-mismatch warning; its best match is present. *)
Theorem verified_means_confident
        (mode : ValidationMode) (reference : Reference.t)
        (sources : list ValidationSource.t) :
  let a := analyzer_of mode reference sources in
  status a = verified ->
  73 # 100 <= confidence a
  /\ Forall (fun i => ValidationIssue.type i = year_mismatch
                      /\ ValidationIssue.severity i = sev_warning)
            (issues a)
  /\ (length (issues a) <= 1)%nat
  /\ bestMatch a <> None.
Proof.
  intros a Hv. subst a.
  destruct (analysis_shapes mode reference sources)
    as [(Hs & _)
       |[(best & bm & c & _ & _ & Hs & _)
        |(best & bm & Eb & Ed & Ea)]]; try congruence.
  rewrite Ea in *.
  destruct (detailed_view reference best bm) as (Hs & Hi & Hb & Hc).
  rewrite Hs in Hv. rewrite Hi, Hb, Hc.
  destruct (decide_status_cases (fst (title_check reference bm))
              (fst (author_check reference bm))
              (fst (year_check reference bm))
              (ValidationSource.matchScore best))
    as [(_ & Ht & Hau & Hy)|[E|(E & _)]]; try congruence.
  destruct (title_check_issues reference bm) as (Hti & _).
  destruct (author_check_issues reference bm) as (Hai & _).
  destruct (year_check_issues reference bm) as (Hyi & Hyl).
  rewrite (Hti Ht), (Hai Hau), Hy. cbn [app].
  unfold TITLE_MATCH_THRESHOLD, AUTHOR_MATCH_THRESHOLD in *.
  repeat split; try assumption; try discriminate. lra.
Qed.

Lemma verified_means_confident_witness :
  let sources := [Sample.api_source crossref (98 # 100) Sample.full_data] in
  let a := analyzer_of api_only Sample.full_reference sources in
  status a = verified
  /\ 73 # 100 <= confidence a
  /\ (length (issues a) <= 1)%nat.
Proof.
  intros sources a.
  assert (H : status a = verified) by (vm_compute; reflexivity).
  split; [exact H|].
  destruct (verified_means_confident api_only Sample.full_reference sources H)
    as (H1 & _ & H3 & _).
  split; assumption.
Defined.

(** X15.  A result that the analyzer of either mode marks [error] rests on a best
    source whose match score is at most 0.5, and its issues include an
    author mismatch: the title score is then below 0.7 and the author
    overlap below 0.6. *)
Theorem error_means_weak_source_and_author_mismatch
        (mode : ValidationMode) (reference : Reference.t)
        (sources : list ValidationSource.t) :
  let a := analyzer_of mode reference sources in
  status a = error ->
  exists best bm,
    best_source sources = Some best
    /\ bestMatch a = Some bm
    /\ ValidationSource.matchScore best <= 5 # 10
    /\ fst (title_check reference bm) < TITLE_MATCH_THRESHOLD
    /\ fst (author_check reference bm) < AUTHOR_MATCH_THRESHOLD
    /\ exists i, In i (issues a) /\ ValidationIssue.type i = author_mismatch.
Proof.
  intros a He. subst a.
  destruct (analysis_shapes mode reference sources)
    as [(Hs & _)
       |[(best & bm & c & _ & _ & Hs & _)
        |(best & bm & Eb & Ed & Ea)]]; try congruence.
  rewrite Ea in *.
  destruct (detailed_view reference best bm) as (Hs & Hi & Hb & Hc).
  rewrite Hs in He. rewrite Hi, Hb.
  destruct (decide_status_cases (fst (title_check reference bm))
              (fst (author_check reference bm))
              (fst (year_check reference bm))
              (ValidationSource.matchScore best))
    as [(E & _)|[E|(_ & Ht & Hau & Hbest)]]; try congruence.
  exists best, bm. repeat split; try assumption.
  destruct (author_check_issues reference bm) as (_ & Hai & _).
  destruct (Hai Hau) as (i & Ei & Hty).
  exists i. split; [|exact Hty].
  rewrite Ei. apply in_or_app. right. left. reflexivity.
Qed.

Lemma error_means_weak_source_witness :
  let reference :=
    Sample.reference_of "Deep Learning" ["Y LeCun"] "2015" in
  let sources :=
    [Sample.api_source openalex (3 # 10)
       (Sample.data_of "Graph Theory" ["P Erdos"] "1960")] in
  let a := analyzer_of agent_based reference sources in
  status a = error
  /\ exists best, best_source sources = Some best
                  /\ ValidationSource.matchScore best <= 5 # 10.
Proof.
  intros reference sources a.
  assert (H : status a = error) by (vm_compute; reflexivity).
  split; [exact H|].
  destruct (error_means_weak_source_and_author_mismatch agent_based reference
              sources H) as (best & bm & H1 & _ & H3 & _).
  exists best. split; assumption.
Defined.

(** X16.  The analyzers of the two modes return the same analysis
    whenever some source was found with a positive score and the best
    source is not a web-search source with a confidence strictly between
    0 and 0.7. *)
Theorem analyzers_agree_on_found_sources
        (reference : Reference.t) (sources : list ValidationSource.t)
        (best : ValidationSource.t) :
  best_source sources = Some best ->
  web_special_case best = false ->
  analyzer_of agent_based reference sources
  = analyzer_of api_only reference sources.
Proof.
  intros Eb Hw. unfold analyzer_of,
    AgentValidationOrchestrator.analyzeResults,
    ValidationOrchestrator.analyzeResults.
  rewrite Eb. destruct (ValidationSource.retrievedData best) as [bm|];
    [|reflexivity].
  unfold web_special_case in Hw.
  destruct (ValidationSource.confidence best) as [c|]; [|reflexivity].
  rewrite Hw. reflexivity.
Qed.

Lemma analyzers_agree_witness :
  let sources := [Sample.api_source crossref (98 # 100) Sample.full_data] in
  best_source sources
  = Some (Sample.api_source crossref (98 # 100) Sample.full_data)
  /\ analyzer_of agent_based Sample.full_reference sources
     = analyzer_of api_only Sample.full_reference sources.
Proof.
  intro sources.
  assert (H : best_source sources
              = Some (Sample.api_source crossref (98 # 100) Sample.full_data))
    by reflexivity.
  split; [exact H|].
  apply (analyzers_agree_on_found_sources Sample.full_reference sources _ H).
  reflexivity.
Defined.

Lemma sort_head_first_max (l : list ValidationSource.t) :
  match Sorting.sort by_score_desc l with
  | [] => l = []
  | b :: _ =>
      exists before after,
        l = (before ++ b :: after)%list
        /\ (forall y, In y before ->
              ValidationSource.matchScore y < ValidationSource.matchScore b)
        /\ (forall y, In y after ->
              ValidationSource.matchScore y <= ValidationSource.matchScore b)
  end.
Proof.
  induction l as [|x l IH]; cbn [Sorting.sort]; [reflexivity|].
  destruct (Sorting.sort by_score_desc l) as [|b rest].
  - subst l. cbn [Sorting.insert]. exists [], [].
    split; [reflexivity|]. split; intros y [].
  - destruct IH as (before & after & -> & Hbefore & Hafter).
    cbn [Sorting.insert]. destruct (by_score_desc x b) eqn:Ex.
    + exists [], (before ++ b :: after)%list. split; [reflexivity|].
      split; [intros y []|].
      apply Qle_bool_iff in Ex.
      intros y Hy. apply in_app_or in Hy. destruct Hy as [Hy|[<-|Hy]].
      * specialize (Hbefore y Hy). lra.
      * exact Ex.
      * specialize (Hafter y Hy). lra.
    + exists (x :: before), after. split; [reflexivity|].
      split; [|exact Hafter].
      intros y [<-|Hy]; [|apply Hbefore, Hy].
      apply Qnot_le_lt. intro L. apply Qle_bool_iff in L.
      unfold by_score_desc in Ex. congruence.
Qed.

(** X17.  The best source picked by the analyzers is the first one, in
    the order of the source list, among the found sources with the highest
    positive match score: every found source before it scores strictly
    less and every found source after it scores at most as much; no best
    source is picked exactly when no source was found with a positive
    score. *)
Theorem best_source_is_first_of_the_highest
        (sources : list ValidationSource.t) :
  match best_source sources with
  | None => found_sources sources = []
  | Some best =>
      exists before after,
        found_sources sources = (before ++ best :: after)%list
        /\ (forall y, In y before ->
              ValidationSource.matchScore y < ValidationSource.matchScore best)
        /\ (forall y, In y after ->
              ValidationSource.matchScore y <= ValidationSource.matchScore best)
  end.
Proof.
  unfold best_source.
  pose proof (sort_head_first_max (found_sources sources)) as H.
  destruct (Sorting.sort by_score_desc (found_sources sources)); exact H.
Qed.

End VerdictFacts.

(** ** Runs of the agents and of the orchestrators *)

Module RunFacts.

Import JS Num Effects Aux EffectFacts Connectors Agents WebSearchAgent Analyzer.
Import AgentValidationOrchestrator.
Import NumFacts ConnectorFacts StagedFacts VerdictFacts BatchFacts Runs Shapes.
Local Open Scope monad_scope.

Section Rules.
Context {A B : Type}.

Lemma yields_ret (a : A) (Q : Outcome A -> list Event -> Prop) :
  Q (Returned a) [] -> yields (ret a) Q.
Proof. intros H h. exists (Returned a), []. rewrite app_nil_r. auto. Qed.

Lemma yields_throw (msg : string) (Q : Outcome A -> list Event -> Prop) :
  Q (Threw msg) [] -> yields (throw msg) Q.
Proof. intros H h. exists (Threw msg), []. rewrite app_nil_r. auto. Qed.

Lemma yields_weaken (m : M A) (Q Q' : Outcome A -> list Event -> Prop) :
  yields m Q -> (forall o new, Q o new -> Q' o new) -> yields m Q'.
Proof.
  intros H HQ h. destruct (H h) as (o & new & E & Ho). exists o, new. auto.
Qed.

Lemma yields_bind (m : M A) (k : A -> M B)
      (Q1 : Outcome A -> list Event -> Prop)
      (Q2 : A -> Outcome B -> list Event -> Prop)
      (Q : Outcome B -> list Event -> Prop) :
  yields m Q1 ->
  (forall a, yields (k a) (Q2 a)) ->
  (forall e n, Q1 (Threw e) n -> Q (Threw e) n) ->
  (forall a n1 o n2, Q1 (Returned a) n1 -> Q2 a o n2 -> Q o (n1 ++ n2)) ->
  yields (bind m k) Q.
Proof.
  intros Hm Hk Hthrow Hseq h. unfold bind.
  destruct (Hm h) as (o1 & n1 & E1 & H1). rewrite E1.
  destruct o1 as [a|e].
  - destruct (Hk a (h ++ n1)) as (o2 & n2 & E2 & H2).
    exists o2, (n1 ++ n2). rewrite E2, app_assoc. eauto.
  - exists (Threw e), n1. auto.
Qed.

Lemma yields_try_catch (m : M A) (handler : string -> M A)
      (Q1 : Outcome A -> list Event -> Prop)
      (Q2 : string -> Outcome A -> list Event -> Prop)
      (Q : Outcome A -> list Event -> Prop) :
  yields m Q1 ->
  (forall e, yields (handler e) (Q2 e)) ->
  (forall a n, Q1 (Returned a) n -> Q (Returned a) n) ->
  (forall e n1 o n2, Q1 (Threw e) n1 -> Q2 e o n2 -> Q o (n1 ++ n2)) ->
  yields (try_catch m handler) Q.
Proof.
  intros Hm Hh Hret Hseq h. unfold try_catch.
  destruct (Hm h) as (o1 & n1 & E1 & H1). rewrite E1.
  destruct o1 as [a|e].
  - exists (Returned a), n1. auto.
  - destruct (Hh e (h ++ n1)) as (o2 & n2 & E2 & H2).
    exists o2, (n1 ++ n2). rewrite E2, app_assoc. eauto.
Qed.

(** A computation that never throws, described by what it returns and by
    what it appends. *)
Lemma yields_of_view (m : M A) (P : Event -> Prop) (R : A -> Prop) :
  total m -> appends P m -> returns m R ->
  yields m (fun o new => exists a, o = Returned a /\ R a /\ Forall P new).
Proof.
  intros Ht Ha Hr h.
  destruct (run_view m P R Ht Ha Hr h) as (a & new & E & F & Ra).
  exists (Returned a), new. split; [exact E|]. exists a. auto.
Qed.

End Rules.

Lemma yields_emit (e : Event) (Q : Outcome unit -> list Event -> Prop) :
  Q (Returned tt) [e] -> yields (emit e) Q.
Proof. intros H h. exists (Returned tt), [e]. auto. Qed.

Lemma returns_and {A} (m : M A) (P Q : A -> Prop) :
  returns m P -> returns m Q -> returns m (fun a => P a /\ Q a).
Proof. intros HP HQ h a h' E. split; [eapply HP | eapply HQ]; exact E. Qed.

Lemma returns_impl {A} (m : M A) (P Q : A -> Prop) :
  (forall a, P a -> Q a) -> returns m P -> returns m Q.
Proof. intros H HP h a h' E. eapply H, HP, E. Qed.

Ltac appends_by tac :=
  repeat match goal with
    | |- appends _ (ret _) => apply appends_ret
    | |- appends _ (throw _) => apply appends_throw
    | |- appends _ (try_catch _ _) => apply appends_try_catch
    | |- appends _ (bind _ _) => apply appends_bind
    | |- appends _ (remote _ _) => apply appends_remote
    | |- appends _ (emit _) => apply appends_emit
    | |- appends _ (match ?x with _ => _ end) => destruct x
    | |- forall _, _ => intro
    | |- _ => tac
    end.

Ltac total_steps :=
  repeat first
    [ apply total_ret
    | apply total_emit
    | apply total_try_catch
    | apply total_bind
    | match goal with
      | |- total (match ?x with _ => _ end) => destruct x
      | |- forall _, _ => intro
      end ].

Lemma source_of_not_found (n : SourceName) (msg : string) :
  source_of n (not_found_in n msg).
Proof.
  split; [reflexivity|]. split; [apply blank_not_found | discriminate].
Qed.

Lemma source_of_found (n : SourceName) (data : Work) (score : Q) :
  source_of n (found_with n data score).
Proof.
  split; [reflexivity|]. split; [apply blank_found|].
  intros _. split; [discriminate | reflexivity].
Qed.

Lemma source_of_rejected (n : SourceName) (step : option Step) (msg : string) :
  source_of n (rejected n step msg).
Proof.
  split; [reflexivity|]. split; [apply blank_rejected | discriminate].
Qed.

Lemma source_of_with_step (n : SourceName) (st : Step) (s : ValidationSource.t) :
  source_of n s -> source_of n (ValidationSource.with_step st s).
Proof.
  intros (H1 & H2 & H3). split; [exact H1|].
  split; [apply blank_with_step, H2 | exact H3].
Qed.

#[local] Hint Resolve source_of_not_found source_of_found source_of_rejected
  : core.

Section WithWorld.
Variable W : World.

Section Events.
Variable P : Event -> Prop.
Hypothesis requests : forall ep arg, P (Requested ep arg).

Lemma connectors_append (reference : Reference.t) (apiKey : string) :
  appends P (validateWithCrossRef W reference)
  /\ appends P (validateWithSemanticScholar W reference apiKey)
  /\ appends P (validateWithOpenAlex W reference)
  /\ appends P (validateWithArxiv W reference).
Proof.
  split; [|split; [|split]];
    unfold validateWithCrossRef, validateWithSemanticScholar,
      validateWithOpenAlex, validateWithArxiv, crossref_searchByTitle,
      arxiv_lookupById, arxiv_searchByTitle, quiet_lookup, quiet_search;
    appends_by ltac:(apply requests).
Qed.

Lemma enabled_promises_append (reference : Reference.t)
      (settings : AppSettings.t) (step : option Step) :
  Forall (appends P) (enabled_promises W reference settings step).
Proof.
  unfold enabled_promises.
  destruct (connectors_append reference (AppSettings.key_semanticScholar settings))
    as (Hc & Hs & Ho & Ha).
  apply Forall_app; split;
    [|apply Forall_app; split; [|apply Forall_app; split]];
    (match goal with |- Forall _ (if ?c then _ else _) => destruct c end;
     [apply Forall_cons; [|apply Forall_nil] | apply Forall_nil]);
    (apply appends_try_catch; [assumption | intro; apply appends_ret]).
Qed.

Lemma try_queries_append (reference : Reference.t) (settings : AppSettings.t)
      (enhancedQueries : list EnhancedQuery) :
  forall allSources,
    appends P (try_queries W reference settings enhancedQueries allSources).
Proof.
  induction enhancedQueries as [|q more IH]; intro allSources;
    cbn [try_queries]; [apply appends_ret|].
  apply appends_bind; [apply appends_all, enabled_promises_append|].
  intro rs. destruct (existsb _ _); [apply appends_ret | apply IH].
Qed.

End Events.

Lemma connectors_total (reference : Reference.t) (apiKey : string) :
  total (validateWithCrossRef W reference)
  /\ total (validateWithSemanticScholar W reference apiKey)
  /\ total (validateWithOpenAlex W reference)
  /\ total (validateWithArxiv W reference).
Proof.
  split; [|split; [|split]]; apply total_try_catch; intro; apply total_ret.
Qed.

Lemma connectors_sources (reference : Reference.t) (apiKey : string) :
  returns (validateWithCrossRef W reference) (source_of crossref)
  /\ returns (validateWithSemanticScholar W reference apiKey)
             (source_of semantic_scholar)
  /\ returns (validateWithOpenAlex W reference) (source_of openalex)
  /\ returns (validateWithArxiv W reference) (source_of arxiv).
Proof.
  split; [|split; [|split]];
    unfold validateWithCrossRef, validateWithSemanticScholar,
      validateWithOpenAlex, validateWithArxiv;
    returns_steps; auto.
Qed.

Lemma returns_all_pointwise {A} (promises : list (M A))
      (Rs : list (A -> Prop)) :
  Forall2 (fun p R => returns p R) promises Rs ->
  returns (all promises) (fun l => Forall2 (fun R a => R a) Rs l).
Proof.
  induction 1 as [|p R ps Rs' Hp Hps IH]; cbn [all].
  - apply returns_ret. constructor.
  - apply (returns_bind p _ R); [exact Hp|]. intros a Ha.
    apply (returns_bind (all ps) _ (fun l => Forall2 (fun R a => R a) Rs' l));
      [exact IH|].
    intros rs Hrs. apply returns_ret. constructor; assumption.
Qed.

Lemma enabled_promises_sources (reference : Reference.t)
      (settings : AppSettings.t) (step : option Step) :
  Forall2 (fun p R => returns p R)
          (enabled_promises W reference settings step)
          (map source_of (enabled_names settings)).
Proof.
  unfold enabled_promises, enabled_names.
  destruct (connectors_sources reference (AppSettings.key_semanticScholar settings))
    as (Hc & Hs & Ho & Ha).
  rewrite !map_app.
  apply Forall2_app; [|apply Forall2_app; [|apply Forall2_app]];
    (match goal with
     | |- Forall2 _ (if ?c then _ else _) _ => destruct c
     end;
     [apply Forall2_cons; [|apply Forall2_nil] | apply Forall2_nil]);
    (apply returns_try_catch;
     [assumption | intro; apply returns_ret; auto]).
Qed.

Lemma enabled_promises_total (reference : Reference.t)
      (settings : AppSettings.t) (step : option Step) :
  Forall total (enabled_promises W reference settings step).
Proof.
  unfold enabled_promises.
  apply Forall_app; split;
    [|apply Forall_app; split; [|apply Forall_app; split]];
    (match goal with |- Forall _ (if ?c then _ else _) => destruct c end;
     [apply Forall_cons; [|apply Forall_nil] | apply Forall_nil]);
    apply total_try_catch; intro; apply total_ret.
Qed.

Lemma tagged_round (settings : AppSettings.t) (st : Step)
      (rs : list ValidationSource.t) :
  Forall2 (fun R a => R a) (map source_of (enabled_names settings)) rs ->
  round_of settings st (map (ValidationSource.with_step st) rs).
Proof.
  unfold round_of. generalize (enabled_names settings). intros names H.
  remember (map source_of names) as Rs eqn:E. revert names E.
  induction H as [|R a Rs rs Ha Hrest IH]; intros names E.
  - destruct names; [|discriminate]. split; [reflexivity | constructor].
  - destruct names as [|n names]; [discriminate|].
    cbn [map] in E. injection E as -> ->.
    destruct (IH names eq_refl) as [IH1 IH2].
    destruct Ha as (Hn & Hb & Hf).
    split; cbn [map].
    + rewrite IH1. cbn [ValidationSource.with_step ValidationSource.name].
      rewrite Hn. reflexivity.
    + constructor; [|exact IH2].
      split; [reflexivity|]. split; [apply blank_with_step, Hb|].
      intro F. apply Hf, F.
Qed.

(** X18.  From any history, [validateWithAPIAgent] returns without
    throwing one source per enabled connector, in the order CrossRef,
    Semantic Scholar, OpenAlex, arXiv; every source is tagged with the
    step [api], has score 0 and no data when it was not found and has data
    when it was found; and the run adds nothing to the history but
    requests to the databases. *)
Theorem apiAgent_returns_one_source_per_enabled_connector
        (reference : Reference.t) (settings : AppSettings.t) (h : History) :
  exists sources new,
    validateWithAPIAgent W reference settings h = (Returned sources, h ++ new)
    /\ map ValidationSource.name sources = enabled_names settings
    /\ Forall (fun s => ValidationSource.step s = Some step_api
                        /\ absent_is_blank s
                        /\ (ValidationSource.found s = true ->
                            ValidationSource.retrievedData s <> None))
              sources
    /\ Forall (fun e => is_request e = true) new.
Proof.
  destruct (run_view (validateWithAPIAgent W reference settings)
              (fun e => is_request e = true)
              (round_of settings step_api)) with (h := h)
    as (sources & new & E & F & H1 & H2).
  - apply apiAgent_total.
  - unfold validateWithAPIAgent.
    apply appends_bind; [|intro; apply appends_ret].
    apply appends_all, enabled_promises_append. reflexivity.
  - unfold validateWithAPIAgent.
    eapply returns_bind;
      [apply returns_all_pointwise, enabled_promises_sources|].
    intros rs Hrs. apply returns_ret, tagged_round, Hrs.
  - exists sources, new. auto.
Qed.

(** X19.  From any history, [searchWebForReference] returns without
    throwing, after exactly one entry into the web-search capability and
    one call to Perplexity, a source named [web_search] and tagged with
    the step [web_search] whose [confidence] is its [matchScore]; the
    source counts as found exactly when that score is positive, a found
    source carries data and no error, and a source without data has score
    0 and an error message. *)
Theorem searchWebForReference_reports_its_confidence
        (reference : Reference.t) (settings : AppSettings.t) (h : History) :
  exists s,
    searchWebForReference W reference settings h
    = (Returned s,
       h ++ [Invoked WebSearch (Reference.id reference); AskedLLM WebSearch])
    /\ ValidationSource.name s = web_search
    /\ ValidationSource.step s = Some step_web_search
    /\ ValidationSource.confidence s = Some (ValidationSource.matchScore s)
    /\ (ValidationSource.found s = true
        <-> (0 < ValidationSource.matchScore s)%Q)
    /\ (ValidationSource.found s = true ->
        ValidationSource.retrievedData s <> None
        /\ ValidationSource.errors s = [])
    /\ (ValidationSource.retrievedData s = None ->
        (ValidationSource.matchScore s == 0)%Q
        /\ ValidationSource.errors s <> []).
Proof.
  unfold searchWebForReference, bind, emit, try_catch, remote, ret.
  destruct (perplexity W reference
              (h ++ [Invoked WebSearch (Reference.id reference)]))
    as [[data|]|msg];
    eexists; (split; [rewrite <- app_assoc; reflexivity|]);
    cbn [ValidationSource.name ValidationSource.step
         ValidationSource.confidence ValidationSource.matchScore
         ValidationSource.found ValidationSource.retrievedData
         ValidationSource.errors web_blank];
    (split; [reflexivity|]); (split; [reflexivity|]);
    (split; [reflexivity|]).
  - split; [apply Qgt_bool_iff|].
    split; [intros _; split; [discriminate | reflexivity] | discriminate].
  - split; [split; [discriminate | intro L; discriminate L]|].
    split; [discriminate | intros _; split; [reflexivity | discriminate]].
  - split; [split; [discriminate | intro L; discriminate L]|].
    split; [discriminate | intros _; split; [reflexivity | discriminate]].
Qed.

Lemma enhance_fallback (reference : Reference.t) :
  forall q, In q (fallback_query reference) -> enhance reference q = reference.
Proof.
  intros q [<-|[]]. destruct reference as [id raw title authors year venue doi
                                           urls page box number].
  unfold enhance.
  cbn [q_title q_authors q_year Reference.id Reference.raw_text Reference.title
       Reference.authors Reference.year Reference.venue Reference.doi
       Reference.urls Reference.page_number Reference.bounding_box
       Reference.citation_number].
  f_equal.
  - unfold or_else. destruct (truthy title) eqn:E; cbn [truthy]; [|].
    + rewrite E. reflexivity.
    + cbn. reflexivity.
  - destruct (0 <? length authors); reflexivity.
  - unfold or_else. destruct (truthy year); reflexivity.
Qed.

(** X20.  Without a key for the preferred LLM, the second stage makes
    no LLM call and tries a single variant, the reference as it is: it
    enters the capability, runs one round over the enabled connectors on
    the unchanged reference and returns that round's sources tagged with
    the step [query_enhanced]. *)
Theorem retry_without_llm_key_repeats_the_api_round
        (reference : Reference.t) (settings : AppSettings.t) :
  truthy (AppSettings.llm_key settings) = false ->
  forall h,
    retryAPIsWithEnhancedQueries W reference settings h
    = plain_retry W reference settings h.
Proof.
  intros Hkey h.
  unfold retryAPIsWithEnhancedQueries, plain_retry, enhanceQueriesWithLLM.
  rewrite Hkey.
  unfold bind at 1 2. unfold emit at 1, ret at 1.
  cbn [fallback_query existsb q_authors orb try_queries].
  rewrite (enhance_fallback reference _ (or_introl eq_refl)).
  unfold bind at 3. unfold emit.
  unfold bind.
  destruct (all (enabled_promises W reference settings (Some step_query_enhanced))
              (h ++ [Invoked QueryEnhancement (Reference.id reference)]))
    as [[rs|e] h1]; [|reflexivity].
  cbn [app]. destruct (existsb _ _); reflexivity.
Qed.

Lemma yields_of_appends {A} (m : M A) (P : Event -> Prop) :
  appends P m -> yields m (fun _ new => Forall P new).
Proof.
  intros H h. destruct (H h) as (new & E & F).
  exists (fst (m h)), new. split; [|exact F].
  rewrite <- E. apply surjective_pairing.
Qed.

Lemma quiet_has_no_entry (id : string) (new : list Event) :
  Forall (fun e => is_explanation e = false) new ->
  ~ In (Invoked Explanation id) new.
Proof.
  intros F Hin. rewrite Forall_forall in F. specialize (F _ Hin). discriminate.
Qed.

Lemma explains_after (id : string) (o : Outcome ValidationResult.t)
      (n1 n2 : list Event) :
  ~ In (Invoked Explanation id) n1 -> explains id o n2 ->
  explains id o (n1 ++ n2).
Proof.
  intros H1. destruct o as [r|e]; cbn [explains]; rewrite in_app_iff; tauto.
Qed.

Lemma explains_or_defers_after (id : string)
      (o : Outcome (ValidationResult.t + list ValidationSource.t))
      (n1 n2 : list Event) :
  ~ In (Invoked Explanation id) n1 -> explains_or_defers id o n2 ->
  explains_or_defers id o (n1 ++ n2).
Proof.
  intros H1. destruct o as [[r|l]|e]; cbn [explains_or_defers];
    rewrite ?in_app_iff; tauto.
Qed.

Lemma retry_appends_no_explanation (reference : Reference.t)
      (settings : AppSettings.t) :
  appends (fun e => is_explanation e = false)
          (retryAPIsWithEnhancedQueries W reference settings).
Proof.
  unfold retryAPIsWithEnhancedQueries, enhanceQueriesWithLLM.
  appends_by ltac:(first [reflexivity | apply try_queries_append; reflexivity]).
Qed.

Lemma searchWeb_appends_no_explanation (reference : Reference.t)
      (settings : AppSettings.t) :
  appends (fun e => is_explanation e = false)
          (searchWebForReference W reference settings).
Proof. unfold searchWebForReference. appends_by ltac:(reflexivity). Qed.

Lemma apiAgent_appends_no_explanation (reference : Reference.t)
      (settings : AppSettings.t) :
  appends (fun e => is_explanation e = false)
          (validateWithAPIAgent W reference settings).
Proof.
  unfold validateWithAPIAgent.
  apply appends_bind; [|intro; apply appends_ret].
  apply appends_all, enabled_promises_append. reflexivity.
Qed.

Lemma generateExplanation_enters (reference : Reference.t)
      (settings : AppSettings.t) :
  yields (generateExplanation W reference settings)
         (fun o new => o = Returned tt
                       /\ In (Invoked Explanation (Reference.id reference)) new).
Proof.
  intro h. unfold generateExplanation, bind, emit, try_catch, remote, ret.
  destruct (truthy (AppSettings.llm_key settings)).
  - destruct (llm_explanation W reference _);
      eexists; eexists; (split; [rewrite <- app_assoc; reflexivity|]);
      (split; [reflexivity | left; reflexivity]).
  - eexists; eexists. split; [reflexivity|].
    split; [reflexivity | left; reflexivity].
Qed.

Lemma finalize_explains (reference : Reference.t)
      (allSources : list ValidationSource.t) (settings : AppSettings.t) :
  yields (finalize W reference allSources settings)
         (fun o new =>
            o = Returned (result_of reference allSources
                            (analyzeResults reference allSources))
            /\ explains (Reference.id reference) o new).
Proof.
  unfold finalize, buildValidationExplanation.
  pose proof (analyzer_status_cases agent_based reference allSources) as Hp.
  cbn [analyzer_of] in Hp.
  destruct (status (analyzeResults reference allSources)) eqn:Es;
    try contradiction.
  1-3: intro h; exists (Returned (result_of reference allSources
                                   (analyzeResults reference allSources))), [];
       unfold bind, ret; rewrite app_nil_r;
       (split; [reflexivity|]); (split; [reflexivity|]);
       cbn [explains result_of ValidationResult.status]; rewrite Es;
       split; [intros [] | discriminate].
  eapply yields_bind.
  - apply generateExplanation_enters.
  - intro u. apply yields_ret.
    instantiate (1 := fun _ o n =>
      o = Returned (result_of reference allSources
                      (analyzeResults reference allSources)) /\ n = []).
    split; reflexivity.
  - intros e n [E _]. discriminate E.
  - intros a n1 o n2 [_ Hin] [-> ->]. rewrite app_nil_r.
    split; [reflexivity|].
    cbn [explains result_of ValidationResult.status]. rewrite Es.
    split; [reflexivity | intros _; exact Hin].
Qed.

Lemma web_search_step_explains (reference : Reference.t)
      (allSources : list ValidationSource.t) (settings : AppSettings.t) :
  yields (web_search_step W reference allSources settings)
         (explains (Reference.id reference)).
Proof.
  unfold web_search_step.
  eapply yields_bind with (Q1 := explains_or_defers (Reference.id reference))
    (Q2 := fun after o n =>
             match after with
             | inl r => o = Returned r /\ n = []
             | inr _ => explains (Reference.id reference) o n
             end).
  - eapply yields_try_catch
      with (Q1 := explains_or_defers (Reference.id reference))
           (Q2 := fun _ _ _ => True).
    + eapply yields_bind
        with (Q1 := fun o n => exists a, o = Returned a /\ True
                       /\ Forall (fun e => is_explanation e = false) n)
             (Q2 := fun _ => explains_or_defers (Reference.id reference)).
      * apply yields_of_view;
          [ apply searchWebForReference_total
          | apply searchWeb_appends_no_explanation
          | intros h a h' _; exact I ].
      * intro w.
        assert (Hdefer : forall l : list ValidationSource.t,
                   yields (ret (inr l : ValidationResult.t + list ValidationSource.t))
                          (explains_or_defers (Reference.id reference))).
        { intro l. apply yields_ret. cbn. tauto. }
        destruct (ValidationSource.found w); [|apply Hdefer].
        destruct (ValidationSource.confidence w) as [c|]; [|apply Hdefer].
        destruct (negb (Qeq_bool c 0) && Qge_bool c WEB_SEARCH_CONFIDENCE_THRESHOLD);
          [|apply Hdefer].
        eapply yields_bind
          with (Q2 := fun r o n => o = Returned (inl r) /\ n = []).
        -- apply finalize_explains.
        -- intro r. apply yields_ret. split; reflexivity.
        -- intros e n [E _]. discriminate E.
        -- intros a n1 o n2 [_ H1] [-> ->].
           rewrite app_nil_r. exact H1.
      * intros e n (a & E & _). discriminate E.
      * intros a n1 o n2 (a' & _ & _ & F) H2.
        apply explains_or_defers_after;
          [apply quiet_has_no_entry, F | exact H2].
    + intros e h. exists (Returned (inr allSources)), [].
      rewrite app_nil_r. split; [reflexivity | exact I].
    + intros a n H. exact H.
    + intros e n1 o n2 [].
  - intros [r|l].
    + apply yields_ret. split; reflexivity.
    + eapply yields_weaken; [apply finalize_explains|].
      intros o new [_ H]. exact H.
  - intros e n [].
  - intros [r|l] n1 o n2 H1 H2.
    + destruct H2 as [-> ->]. rewrite app_nil_r. exact H1.
    + apply explains_after; assumption.
Qed.

(** X21.  In a run of [validateReferenceWithAgents] the explanation
    capability is entered for the reference exactly when the result comes
    back [unverified]; a run that throws has not entered it. *)
Theorem explanation_is_requested_exactly_for_unverified
        (reference : Reference.t) (settings : AppSettings.t) :
  yields (validateReferenceWithAgents W reference settings)
         (explains (Reference.id reference)).
Proof.
  unfold validateReferenceWithAgents.
  eapply yields_bind
    with (Q1 := fun o n => exists a, o = Returned a /\ True
                   /\ Forall (fun e => is_explanation e = false) n)
         (Q2 := fun _ => explains (Reference.id reference)).
  - apply yields_of_view;
      [ apply apiAgent_total
      | apply apiAgent_appends_no_explanation
      | intros h a h' _; exact I ].
  - intro apiSources.
    destruct (strong (findBestMatch apiSources)).
    + eapply yields_weaken; [apply finalize_explains|].
      intros o new [_ H]. exact H.
    + eapply yields_bind
        with (Q1 := fun _ n => Forall (fun e => is_explanation e = false) n)
             (Q2 := fun _ => explains (Reference.id reference)).
      * apply yields_of_appends, retry_appends_no_explanation.
      * intro enhancedSources.
        destruct (strong (findBestMatch enhancedSources)).
        -- eapply yields_weaken; [apply finalize_explains|].
           intros o new [_ H]. exact H.
        -- apply web_search_step_explains.
      * intros e n F. cbn [explains]. apply quiet_has_no_entry, F.
      * intros a n1 o n2 F H2.
        apply explains_after; [apply quiet_has_no_entry, F | exact H2].
  - intros e n (a & E & _). discriminate E.
  - intros a n1 o n2 (a' & _ & _ & F) H2.
    apply explains_after; [apply quiet_has_no_entry, F | exact H2].
Qed.

Lemma sequence_post_app (names1 names2 : list SourceName) (delay : nat)
      (before middle : list ValidationSource.t)
      (o : Outcome (list ValidationSource.t)) (n1 n2 : list Event) :
  sequence_post names1 delay before (Returned middle) n1 ->
  sequence_post names2 delay middle o n2 ->
  sequence_post (names1 ++ names2) delay before o (n1 ++ n2).
Proof.
  intros (a1 & E1 & N1 & T1 & R1 & S1) (a2 & E2 & N2 & T2 & R2 & S2).
  injection E1 as ->. exists (a1 ++ a2)%list.
  split; [rewrite E2, app_assoc; reflexivity|].
  split; [rewrite map_app, N1, N2; reflexivity|].
  split; [apply Forall_app; split; assumption|].
  split; [apply Forall_app; split; assumption|].
  rewrite filter_app, S1, S2, map_app. reflexivity.
Qed.

Lemma sequential_call_run (enabled : bool) (call : M ValidationSource.t)
      (n : SourceName) (delay : nat) (sources : list ValidationSource.t) :
  total call -> appends (fun e => is_request e = true) call ->
  returns call (source_of n) ->
  yields (ValidationOrchestrator.sequential_call enabled call delay sources)
         (sequence_post (if enabled then [n] else []) delay sources).
Proof.
  intros Ht Ha Hr h. unfold ValidationOrchestrator.sequential_call.
  destruct enabled.
  - destruct (run_view call _ _ Ht Ha Hr h) as (r & reqs & E & F & Hn & Hb & Hf).
    unfold bind, try_catch, emit, ret. rewrite E.
    exists (Returned (sources ++ [ValidationSource.with_step step_api r])),
           (reqs ++ [Slept delay]).
    split; [rewrite app_assoc; reflexivity|].
    exists [ValidationSource.with_step step_api r].
    split; [reflexivity|].
    split; [cbn; rewrite Hn; reflexivity|].
    split.
    { constructor; [|constructor].
      split; [reflexivity|]. split; [apply blank_with_step, Hb|].
      intro F'. apply Hf, F'. }
    split.
    { apply Forall_app. split.
      - revert F. apply Forall_impl. intros e He. left. exact He.
      - constructor; [right; reflexivity | constructor]. }
    rewrite filter_app. cbn [filter is_sleep map].
    replace (filter is_sleep reqs) with (@nil Event); [reflexivity|].
    symmetry. clear E. induction F as [|e reqs He F IH]; [reflexivity|].
    cbn [filter]. destruct e; try discriminate He. exact IH.
  - exists (Returned sources), []. unfold ret. rewrite app_nil_r.
    split; [reflexivity|]. exists [].
    rewrite app_nil_r. repeat split; constructor.
Qed.

(** X22.  In api-only mode [validateReference] never throws: it calls
    the enabled connectors one after the other in the order CrossRef,
    Semantic Scholar, OpenAlex, arXiv, keeps one source per connector
    tagged with the step [api], sleeps for the configured delay once after
    every call, adds nothing else to the history, and returns the analysis
    of those sources under the id of the reference. *)
Theorem api_only_validation_calls_each_enabled_connector_once
        (reference : Reference.t) (settings : AppSettings.t) :
  AppSettings.mode settings = api_only ->
  yields (ValidationOrchestrator.validateReference W reference settings)
         (fun o new =>
            exists sources,
              o = Returned (api_only_result reference sources)
              /\ sequence_post (enabled_names settings)
                   (AppSettings.rateLimitDelay settings) [] (Returned sources)
                   new).
Proof.
  intro Hmode. unfold ValidationOrchestrator.validateReference.
  rewrite Hmode.
  destruct (connectors_total reference (AppSettings.key_semanticScholar settings))
    as (Tc & Ts & To & Ta).
  destruct (connectors_append (fun e => is_request e = true)
              (fun _ _ => eq_refl) reference
              (AppSettings.key_semanticScholar settings))
    as (Ac & As & Ao & Aa).
  destruct (connectors_sources reference (AppSettings.key_semanticScholar settings))
    as (Rc & Rs & Ro & Ra).
  set (delay := AppSettings.rateLimitDelay settings).
  assert (Hthrow : forall names before e n,
             sequence_post names delay before (Threw e) n -> False).
  { intros names before e n (a & E & _). discriminate E. }
  pose (R := fun (names : list SourceName) (before : list ValidationSource.t)
                 (o : Outcome ValidationResult.t) (new : list Event) =>
              exists sources,
                o = Returned (api_only_result reference sources)
                /\ sequence_post names delay before (Returned sources) new).
  assert (Hseq : forall names1 names2 before mid o n1 n2,
             sequence_post names1 delay before (Returned mid) n1 ->
             R names2 mid o n2 ->
             R (names1 ++ names2)%list before o (n1 ++ n2)).
  { intros names1 names2 before mid o n1 n2 H1 (sources & E & H2).
    exists sources. split; [exact E|].
    eapply sequence_post_app; eassumption. }
  change (yields
            (sources <- ValidationOrchestrator.sequential_call
                          (AppSettings.enableCrossRef settings)
                          (validateWithCrossRef W reference) delay [] ;;
             sources <- ValidationOrchestrator.sequential_call
                          (AppSettings.enableSemanticScholar settings)
                          (validateWithSemanticScholar W reference
                             (AppSettings.key_semanticScholar settings))
                          delay sources ;;
             sources <- ValidationOrchestrator.sequential_call
                          (AppSettings.enableOpenAlex settings)
                          (validateWithOpenAlex W reference) delay sources ;;
             sources <- ValidationOrchestrator.sequential_call
                          (AppSettings.enableArxiv settings)
                          (validateWithArxiv W reference) delay sources ;;
             ret (api_only_result reference sources))
            (R (enabled_names settings) [])).
  unfold enabled_names.
  eapply yields_bind
    with (Q1 := sequence_post _ delay [])
         (Q2 := fun s => R _ s);
    [ apply (sequential_call_run _ _ crossref delay []); assumption
    | | intros e n H; destruct (Hthrow _ _ _ _ H)
    | intros a n1 o n2 H1 H2; eapply Hseq; eassumption ].
  intro s1.
  eapply yields_bind
    with (Q1 := sequence_post _ delay s1)
         (Q2 := fun s => R _ s);
    [ apply (sequential_call_run _ _ semantic_scholar delay s1); assumption
    | | intros e n H; destruct (Hthrow _ _ _ _ H)
    | intros a n1 o n2 H1 H2; eapply Hseq; eassumption ].
  intro s2.
  eapply yields_bind
    with (Q1 := sequence_post _ delay s2)
         (Q2 := fun s => R _ s);
    [ apply (sequential_call_run _ _ openalex delay s2); assumption
    | | intros e n H; destruct (Hthrow _ _ _ _ H)
    | intros a n1 o n2 H1 H2; eapply Hseq; eassumption ].
  intro s3.
  eapply yields_bind
    with (Q1 := sequence_post _ delay s3)
         (Q2 := fun s => R [] s);
    [ apply (sequential_call_run _ _ arxiv delay s3); assumption
    | | intros e n H; destruct (Hthrow _ _ _ _ H)
    | intros a n1 o n2 H1 H2;
      rewrite <- (app_nil_r (if AppSettings.enableArxiv settings
                             then [arxiv] else []));
      eapply Hseq; eassumption ].
  intro s4. apply yields_ret. exists s4. split; [reflexivity|].
  exists []. rewrite app_nil_r. repeat split; constructor.
Qed.

Section Quiet.
Variable P : Event -> Prop.
Hypothesis no_callback : forall e, is_callback e = false -> P e.

Lemma finalize_appends (reference : Reference.t)
      (allSources : list ValidationSource.t) (settings : AppSettings.t) :
  appends P (finalize W reference allSources settings).
Proof.
  unfold finalize, buildValidationExplanation, generateExplanation.
  appends_by ltac:(apply no_callback; reflexivity).
Qed.

Lemma validateReferenceWithAgents_appends (reference : Reference.t)
      (settings : AppSettings.t) :
  appends P (validateReferenceWithAgents W reference settings).
Proof.
  assert (Hreq : forall ep arg, P (Requested ep arg))
    by (intros; apply no_callback; reflexivity).
  unfold validateReferenceWithAgents, web_search_step, validateWithAPIAgent,
    retryAPIsWithEnhancedQueries, enhanceQueriesWithLLM, searchWebForReference.
  appends_by ltac:(first
    [ apply no_callback; reflexivity
    | apply finalize_appends
    | apply try_queries_append; exact Hreq
    | apply appends_all, enabled_promises_append; exact Hreq ]).
Qed.

Lemma validateReference_appends (reference : Reference.t)
      (settings : AppSettings.t) :
  appends P (ValidationOrchestrator.validateReference W reference settings).
Proof.
  assert (Hreq : forall ep arg, P (Requested ep arg))
    by (intros; apply no_callback; reflexivity).
  destruct (connectors_append P Hreq reference
              (AppSettings.key_semanticScholar settings))
    as (Ac & As & Ao & Aa).
  unfold ValidationOrchestrator.validateReference,
    ValidationOrchestrator.sequential_call.
  destruct (AppSettings.mode settings);
    [|apply validateReferenceWithAgents_appends].
  appends_by ltac:(first [assumption | apply no_callback; reflexivity]).
Qed.

End Quiet.

Lemma filter_quiet (n : list Event) :
  Forall (fun e => is_callback e = false) n -> filter is_callback n = [].
Proof.
  induction 1 as [|e n He F IH]; [reflexivity|].
  cbn [filter]. rewrite He. exact IH.
Qed.

Section Callbacks.
Variable onProgress : Callback ValidationProgress.t.
Variable onResult : Callback ValidationResult.t.
Hypothesis progress_returns : returns_normally onProgress.
Hypothesis result_returns : returns_normally onResult.

Lemma validate_from_callbacks (settings : AppSettings.t) (total : nat)
      (references : list Reference.t) :
  forall (i : nat) (results : list ValidationResult.t),
    yields (ValidationOrchestrator.validate_from W total i references settings
              onProgress onResult results)
           (fun o new =>
              exists out,
                o = Returned (results ++ out)
                /\ map ValidationResult.referenceId out
                   = map Reference.id references
                /\ filter is_callback new = callbacks total i references out).
Proof.
  induction references as [|reference more IH]; intros i results h;
    cbn [ValidationOrchestrator.validate_from].
  - exists (Returned results), []. rewrite app_nil_r.
    split; [reflexivity|]. exists []. rewrite app_nil_r. auto.
  - set (progress :=
           Progressed
             (ValidationProgress.mk total i
                (Some (or_else (Reference.title reference)
                         ("Reference "
                          ++ Analyzer.string_of_Z (Z.of_nat (i + 1)))%string)))).
    unfold bind at 1. unfold call at 1. rewrite progress_returns.
    fold progress.
    unfold bind at 1. unfold try_catch at 1. unfold bind at 1.
    destruct (validateReference_appends (fun e => is_callback e = false)
                (fun e H => H) reference settings (h ++ [progress]))
      as (n & Hsnd & Hquiet).
    destruct (ValidationOrchestrator.validateReference W reference settings
                (h ++ [progress]))
      as [[result|msg] h2] eqn:Erun; cbn [snd] in Hsnd; subst h2.
    + unfold ret at 1. unfold bind at 1, try_catch at 1, bind at 1, call at 1.
      rewrite result_returns. unfold ret at 1.
      destruct (IH (S i) (results ++ [result])
                   (((h ++ [progress]) ++ n) ++ [Reported result]))
        as (o & new & E & out & Eo & Hids & Hcb).
      rewrite E.
      exists o, (progress :: n ++ Reported result :: new).
      split; [f_equal; rewrite <- !app_assoc; reflexivity|].
      exists (result :: out).
      split; [rewrite Eo, <- app_assoc; reflexivity|].
      split.
      * cbn [map].
        rewrite (validateReference_id W reference settings _ _ _ Erun), Hids.
        reflexivity.
      * cbn [filter is_callback callbacks]. fold progress.
        rewrite filter_app, (filter_quiet _ Hquiet).
        cbn [app filter is_callback]. rewrite Hcb. reflexivity.
    + unfold ret at 1.
      unfold bind at 1, ValidationOrchestrator.substitute at 1, bind at 1,
        call at 1.
      rewrite result_returns. unfold ret at 1.
      set (failed := ValidationOrchestrator.errorResult reference msg).
      destruct (IH (S i) (results ++ [failed])
                   (((h ++ [progress]) ++ n) ++ [Reported failed]))
        as (o & new & E & out & Eo & Hids & Hcb).
      rewrite E.
      exists o, (progress :: n ++ Reported failed :: new).
      split; [f_equal; rewrite <- !app_assoc; reflexivity|].
      exists (failed :: out).
      split; [rewrite Eo, <- app_assoc; reflexivity|].
      split.
      * cbn [map]. rewrite Hids. reflexivity.
      * cbn [filter is_callback callbacks]. fold progress.
        rewrite filter_app, (filter_quiet _ Hquiet).
        cbn [app filter is_callback]. rewrite Hcb. reflexivity.
Qed.

Lemma validateAllReferences_run
        (references : list Reference.t) (settings : AppSettings.t) :
  yields (ValidationOrchestrator.validateAllReferences W references settings
            onProgress onResult)
         (fun o new =>
            exists results,
              o = Returned results
              /\ map ValidationResult.referenceId results
                 = map Reference.id references
              /\ filter is_callback new
                 = (callbacks (length references) 0 references results
                    ++ [Progressed
                          (ValidationProgress.mk (length references)
                             (length references) None)])%list).
Proof.
  intro h. unfold ValidationOrchestrator.validateAllReferences.
  destruct (validate_from_callbacks settings (length references) references
              0 [] h) as (o & new & E & out & Eo & Hids & Hcb).
  cbn [app] in Eo. subst o.
  unfold bind at 1. rewrite E.
  unfold bind at 1, call at 1. rewrite progress_returns. unfold ret.
  exists (Returned out),
    (new ++ [Progressed (ValidationProgress.mk (length references)
                           (length references) None)]).
  split; [rewrite app_assoc; reflexivity|].
  exists out. split; [reflexivity|]. split; [exact Hids|].
  rewrite filter_app, Hcb. reflexivity.
Qed.

End Callbacks.

(** X23.  With [onProgress] and [onResult] callbacks that return normally
    at every call, a run of [validateAllReferences] returns one result
    per reference, in order and under the reference's id, and calls its
    two callbacks in a fixed pattern: before each reference the progress
    callback with the total, the number of references already done and the
    reference's title (or its position when it has no title), after each
    reference the result callback with that reference's result, and at the
    very end the progress callback once more with everything done and no
    current reference. *)
Theorem validateAllReferences_calls_back_in_order
        (references : list Reference.t) (settings : AppSettings.t)
        (onProgress : Callback ValidationProgress.t)
        (onResult : Callback ValidationResult.t) :
  returns_normally onProgress ->
  returns_normally onResult ->
  yields (ValidationOrchestrator.validateAllReferences W references settings
            onProgress onResult)
         (fun o new =>
            exists results,
              o = Returned results
              /\ map ValidationResult.referenceId results
                 = map Reference.id references
              /\ filter is_callback new
                 = (callbacks (length references) 0 references results
                    ++ [Progressed
                          (ValidationProgress.mk (length references)
                             (length references) None)])%list).
Proof.
  intros Hprogress Hresult.
  exact (validateAllReferences_run onProgress onResult Hprogress Hresult
           references settings).
Qed.

End WithWorld.

Lemma validateAllReferences_calls_back_witness :
  returns_normally (@returning ValidationProgress.t)
  /\ returns_normally (@returning ValidationResult.t)
  /\ yields (ValidationOrchestrator.validateAllReferences Sample.barren
               [Sample.abc_reference; Sample.full_reference]
               (Sample.settings_of agent_based) returning returning)
            (fun o new =>
               exists results,
                 o = Returned results
                 /\ map ValidationResult.referenceId results
                    = map Reference.id
                        [Sample.abc_reference; Sample.full_reference]
                 /\ filter is_callback new
                    = (callbacks 2 0
                         [Sample.abc_reference; Sample.full_reference] results
                       ++ [Progressed (ValidationProgress.mk 2 2 None)])%list).
Proof.
  split; [intros a h; reflexivity|].
  split; [intros a h; reflexivity|].
  apply (validateAllReferences_calls_back_in_order Sample.barren
           [Sample.abc_reference; Sample.full_reference]
           (Sample.settings_of agent_based) returning returning).
  - intros a h. reflexivity.
  - intros a h. reflexivity.
Defined.

Lemma api_only_validation_witness :
  AppSettings.mode (Sample.settings_of api_only) = api_only
  /\ exists o new,
       ValidationOrchestrator.validateReference Sample.generous
         Sample.full_reference (Sample.settings_of api_only) []
       = (o, [] ++ new)
       /\ exists sources,
            o = Returned (api_only_result Sample.full_reference sources)
            /\ sequence_post (enabled_names (Sample.settings_of api_only))
                 (AppSettings.rateLimitDelay (Sample.settings_of api_only))
                 [] (Returned sources) new.
Proof.
  split; [reflexivity|].
  exact (api_only_validation_calls_each_enabled_connector_once Sample.generous
           Sample.full_reference (Sample.settings_of api_only) eq_refl []).
Defined.

Lemma retry_without_llm_key_witness :
  let settings :=
    AppSettings.mk agent_based true true true true 100 openai
                   EmptyString EmptyString EmptyString EmptyString in
  truthy (AppSettings.llm_key settings) = false
  /\ retryAPIsWithEnhancedQueries Sample.generous Sample.full_reference
       settings []
     = plain_retry Sample.generous Sample.full_reference settings [].
Proof.
  intro settings.
  assert (H : truthy (AppSettings.llm_key settings) = false) by reflexivity.
  split; [exact H|].
  apply (retry_without_llm_key_repeats_the_api_round Sample.generous
           Sample.full_reference settings H).
Defined.

End RunFacts.

(** ** The store of the application and the rate limiter of the server *)

Module StoreFacts.

Import JS Num Effects Aux AppStore RateLimiter Runs Shapes StoreShapes.
Import EffectFacts RunFacts.

Section MapLaws.
Context {V : Type}.

Lemma get_set_same (k : string) (v : V) (m : JSMap.t V) :
  JSMap.get k (JSMap.set k v m) = Some v.
Proof.
  induction m as [|[k' v'] m IH]; cbn [JSMap.set JSMap.get].
  - rewrite String.eqb_refl. reflexivity.
  - destruct (String.eqb k k') eqn:E; cbn [JSMap.get].
    + rewrite String.eqb_refl. reflexivity.
    + rewrite E. exact IH.
Qed.

Lemma get_set_other (k k' : string) (v : V) (m : JSMap.t V) :
  k' <> k -> JSMap.get k' (JSMap.set k v m) = JSMap.get k' m.
Proof.
  intro Hne. induction m as [|[k0 v0] m IH]; cbn [JSMap.set JSMap.get].
  - apply String.eqb_neq in Hne. rewrite Hne. reflexivity.
  - destruct (String.eqb k k0) eqn:E; cbn [JSMap.get].
    + apply String.eqb_eq in E. subst k0.
      apply String.eqb_neq in Hne. rewrite Hne. reflexivity.
    + destruct (String.eqb k' k0); [reflexivity | exact IH].
Qed.

Lemma get_delete_same (k : string) (m : JSMap.t V) :
  JSMap.get k (JSMap.delete k m) = None.
Proof.
  unfold JSMap.delete.
  induction m as [|[k' v'] m IH]; cbn [filter JSMap.get fst]; [reflexivity|].
  destruct (String.eqb k k') eqn:E; cbn [negb JSMap.get]; [exact IH|].
  rewrite E. exact IH.
Qed.

Lemma get_delete_other (k k' : string) (m : JSMap.t V) :
  k' <> k -> JSMap.get k' (JSMap.delete k m) = JSMap.get k' m.
Proof.
  intro Hne. unfold JSMap.delete.
  induction m as [|[k0 v0] m IH]; cbn [filter JSMap.get fst]; [reflexivity|].
  destruct (String.eqb k k0) eqn:E; cbn [negb JSMap.get].
  - apply String.eqb_eq in E. subst k0.
    apply String.eqb_neq in Hne. rewrite Hne. exact IH.
  - destruct (String.eqb k' k0); [reflexivity | exact IH].
Qed.

End MapLaws.

Lemma get_set (k k' : string) (v : ValidationResult.t)
      (m : JSMap.t ValidationResult.t) :
  JSMap.get k' (JSMap.set k v m)
  = if String.eqb k' k then Some v else JSMap.get k' m.
Proof.
  destruct (String.eqb k' k) eqn:E.
  - apply String.eqb_eq in E. subst k'. apply get_set_same.
  - apply String.eqb_neq in E. apply get_set_other, E.
Qed.

Lemma get_delete (k k' : string) (m : JSMap.t ValidationResult.t) :
  JSMap.get k' (JSMap.delete k m)
  = if String.eqb k' k then None else JSMap.get k' m.
Proof.
  destruct (String.eqb k' k) eqn:E.
  - apply String.eqb_eq in E. subst k'. apply get_delete_same.
  - apply String.eqb_neq in E. apply get_delete_other, E.
Qed.

(** X24.  In the store, [setValidationResult] files a result under its
    reference id, replacing what was filed there and leaving every other
    entry and the reference list as they were; [updateReference] drops
    the result filed under the edited id and no other, merges the update
    into the references with that id and leaves the other references as
    they were, in place. *)
Theorem store_files_results_by_reference_id
        (s : AppState) (result : ValidationResult.t) (id other : string)
        (updates : ReferenceUpdates) :
  JSMap.get other (validationResults (setValidationResult result s))
  = (if String.eqb other (ValidationResult.referenceId result)
     then Some result
     else JSMap.get other (validationResults s))
  /\ references (setValidationResult result s) = references s
  /\ JSMap.get other (validationResults (updateReference id updates s))
     = (if String.eqb other id then None
        else JSMap.get other (validationResults s))
  /\ Forall2 (fun old new =>
                new = if String.eqb (Reference.id old) id
                      then merge old updates else old)
             (references s) (references (updateReference id updates s)).
Proof.
  split; [apply get_set|].
  split; [reflexivity|].
  split; [apply get_delete|].
  cbn [updateReference with_validationResults with_references references].
  induction (references s) as [|r refs IH]; cbn [map]; constructor;
    [reflexivity | exact IH].
Qed.








Lemma rateLimit_elsewhere (clientIp other : string) (now : nat)
      (requestCounts : Counts) :
  other <> clientIp ->
  JSMap.get other (snd (rateLimit clientIp now requestCounts))
  = JSMap.get other requestCounts.
Proof.
  intro Hne. unfold rateLimit.
  destruct (JSMap.get clientIp requestCounts) as [d|];
    [destruct (resetTime d <? now);
     [|destruct (RATE_LIMIT_MAX_REQUESTS <=? count d)]|];
    cbn [snd]; try reflexivity; apply get_set_other, Hne.
Qed.

Lemma passed_in_window (clientIp : string) (requests : list (string * nat)) :
  forall (requestCounts : Counts) (clientData : ClientData),
    JSMap.get clientIp requestCounts = Some clientData ->
    count clientData <= RATE_LIMIT_MAX_REQUESTS ->
    (forall now, In (clientIp, now) requests -> now <= resetTime clientData) ->
    passed_through clientIp requests requestCounts + count clientData
    <= RATE_LIMIT_MAX_REQUESTS.
Proof.
  induction requests as [|[ip now] more IH]; intros m d Hget Hc Hin;
    cbn [passed_through]; [exact Hc|].
  destruct (String.eqb ip clientIp) eqn:E.
  - apply String.eqb_eq in E. subst ip.
    assert (Hnow : now <= resetTime d) by (apply Hin; left; reflexivity).
    unfold rateLimit at 1. rewrite Hget.
    assert (Ex : (resetTime d <? now) = false) by (apply Nat.ltb_ge, Hnow).
    rewrite Ex.
    destruct (RATE_LIMIT_MAX_REQUESTS <=? count d) eqn:Emax.
    + cbn [andb]. apply (IH m d Hget Hc).
      intros t Ht. apply Hin. right. exact Ht.
    + apply Nat.leb_gt in Emax. cbn [andb].
      specialize (IH (JSMap.set clientIp (mkClient (count d + 1) (resetTime d)) m)
                     (mkClient (count d + 1) (resetTime d))
                     (get_set_same _ _ _)).
      cbn [count resetTime] in IH.
      assert (passed_through clientIp more
                (JSMap.set clientIp (mkClient (count d + 1) (resetTime d)) m)
              + (count d + 1) <= RATE_LIMIT_MAX_REQUESTS).
      { apply IH; [lia|]. intros t Ht. apply Hin. right. exact Ht. }
      lia.
  - destruct (rateLimit ip now m) as [passed m'] eqn:Er.
    rewrite andb_false_r. cbn [Nat.add].
    apply (IH m' d); [|exact Hc|].
    + replace m' with (snd (rateLimit ip now m)) by (rewrite Er; reflexivity).
      rewrite rateLimit_elsewhere; [exact Hget|].
      intros ->. rewrite String.eqb_refl in E. discriminate.
    + intros t Ht. apply Hin. right. exact Ht.
Qed.

(** X26.  Within one window the rate limiter lets at most 100 requests
    of a client through: if the map holds a count for the client and the
    client's requests all arrive no later than the reset time, the
    requests let through and the count add up to at most 100; and a client
    whose first request opens a window (no entry yet, or an entry that has
    expired) gets at most 100 requests through, whatever the other clients
    send in between, as long as its requests arrive within the 60 seconds
    of that window. *)
Theorem rate_limiter_passes_at_most_100_per_window
        (clientIp : string) (requests : list (string * nat))
        (requestCounts : Counts) :
  (forall clientData,
     JSMap.get clientIp requestCounts = Some clientData ->
     count clientData <= RATE_LIMIT_MAX_REQUESTS ->
     (forall now, In (clientIp, now) requests -> now <= resetTime clientData) ->
     passed_through clientIp requests requestCounts + count clientData
     <= RATE_LIMIT_MAX_REQUESTS)
  /\ (forall first,
        match JSMap.get clientIp requestCounts with
        | Some clientData => resetTime clientData < first
        | None => True
        end ->
        (forall now, In (clientIp, now) requests ->
                     now <= first + RATE_LIMIT_WINDOW_MS) ->
        passed_through clientIp ((clientIp, first) :: requests) requestCounts
        <= RATE_LIMIT_MAX_REQUESTS).
Proof.
  split; [apply passed_in_window|].
  intros first Hopen Hin. cbn [passed_through].
  assert (Er : rateLimit clientIp first requestCounts
               = (true, JSMap.set clientIp
                          (mkClient 1 (first + RATE_LIMIT_WINDOW_MS))
                          requestCounts)).
  { unfold rateLimit. destruct (JSMap.get clientIp requestCounts) as [d|];
      [|reflexivity].
    apply Nat.ltb_lt in Hopen. rewrite Hopen. reflexivity. }
  rewrite Er, String.eqb_refl. cbn [andb].
  pose proof (passed_in_window clientIp requests
                (JSMap.set clientIp (mkClient 1 (first + RATE_LIMIT_WINDOW_MS))
                           requestCounts)
                (mkClient 1 (first + RATE_LIMIT_WINDOW_MS))
                (get_set_same _ _ _)) as H.
  cbn [count resetTime] in H.
  assert (passed_through clientIp requests
            (JSMap.set clientIp (mkClient 1 (first + RATE_LIMIT_WINDOW_MS))
                       requestCounts) + 1 <= RATE_LIMIT_MAX_REQUESTS).
  { apply H; [unfold RATE_LIMIT_MAX_REQUESTS; lia | exact Hin]. }
  lia.
Qed.

Lemma rate_limiter_witness :
  let burst := repeat ("10.0.0.7", 5) 150 in
  (forall now, In ("10.0.0.7", now) burst -> now <= 0 + RATE_LIMIT_WINDOW_MS)
  /\ passed_through "10.0.0.7" (("10.0.0.7", 0) :: burst) JSMap.empty
     <= RATE_LIMIT_MAX_REQUESTS
  /\ passed_through "10.0.0.7" (("10.0.0.7", 0) :: burst) JSMap.empty = 100.
Proof.
  intro burst.
  assert (H : forall now, In ("10.0.0.7", now) burst ->
                          now <= 0 + RATE_LIMIT_WINDOW_MS).
  { intros now Hin. apply repeat_spec in Hin. injection Hin as ->.
    unfold RATE_LIMIT_WINDOW_MS. lia. }
  split; [exact H|].
  split; [|vm_compute; reflexivity].
  apply (rate_limiter_passes_at_most_100_per_window "10.0.0.7" burst
           JSMap.empty); [exact I | exact H].
Defined.

Lemma rateLimit_accounted (seen : list (string * nat)) (clientIp : string)
      (now : nat) (requestCounts : Counts) :
  (forall ip, accounted seen requestCounts ip) ->
  forall ip, accounted (seen ++ [(clientIp, now)])
                       (snd (rateLimit clientIp now requestCounts)) ip.
Proof.
  intros Hinv ip. unfold accounted.
  destruct (String.eqb ip clientIp) eqn:E.
  - apply String.eqb_eq in E. subst ip.
    specialize (Hinv clientIp). unfold accounted in Hinv.
    unfold rateLimit.
    assert (Hopen : forall m',
               match JSMap.get clientIp
                       (JSMap.set clientIp
                          (mkClient 1 (now + RATE_LIMIT_WINDOW_MS)) m') with
               | Some clientData =>
                   1 <= count clientData
                   /\ count clientData <= RATE_LIMIT_MAX_REQUESTS
                   /\ exists t, In (clientIp, t) (seen ++ [(clientIp, now)])
                                /\ resetTime clientData = t + RATE_LIMIT_WINDOW_MS
               | None => forall t, ~ In (clientIp, t) (seen ++ [(clientIp, now)])
               end).
    { intro m'. rewrite get_set_same. cbn [count resetTime].
      split; [lia|]. split; [unfold RATE_LIMIT_MAX_REQUESTS; lia|].
      exists now. split; [apply in_or_app; right; left; reflexivity | reflexivity]. }
    destruct (JSMap.get clientIp requestCounts) as [d|] eqn:Eg; [|apply Hopen].
    destruct (resetTime d <? now); [apply Hopen|].
    destruct Hinv as (H1 & H2 & t & Ht & Hr).
    destruct (RATE_LIMIT_MAX_REQUESTS <=? count d) eqn:Emax; cbn [snd].
    + rewrite Eg. split; [exact H1|]. split; [exact H2|].
      exists t. split; [apply in_or_app; left; exact Ht | exact Hr].
    + apply Nat.leb_gt in Emax. rewrite get_set_same. cbn [count resetTime].
      split; [lia|]. split; [lia|].
      exists t. split; [apply in_or_app; left; exact Ht | exact Hr].
  - apply String.eqb_neq in E.
    rewrite (rateLimit_elsewhere clientIp ip now requestCounts E).
    specialize (Hinv ip). unfold accounted in Hinv.
    destruct (JSMap.get ip requestCounts) as [d|].
    + destruct Hinv as (H1 & H2 & t & Ht & Hr).
      split; [exact H1|]. split; [exact H2|].
      exists t. split; [apply in_or_app; left; exact Ht | exact Hr].
    + intros t Ht. apply in_app_or in Ht. destruct Ht as [Ht|[Ht|[]]].
      * apply (Hinv t Ht).
      * injection Ht as Ht _. apply E. symmetry. exact Ht.
Qed.

Lemma serve_accounted (requests : list (string * nat)) :
  forall (seen : list (string * nat)) (requestCounts : Counts),
    (forall ip, accounted seen requestCounts ip) ->
    forall ip, accounted (seen ++ requests)
                         (snd (serve requests requestCounts)) ip.
Proof.
  induction requests as [|[clientIp now] more IH]; intros seen m Hinv ip.
  - rewrite app_nil_r. apply Hinv.
  - cbn [serve].
    pose proof (rateLimit_accounted seen clientIp now m Hinv) as Hstep.
    destruct (rateLimit clientIp now m) as [passed m'].
    cbn [snd] in Hstep.
    specialize (IH (seen ++ [(clientIp, now)]) m' Hstep ip).
    destruct (serve more m') as [answers m''].
    cbn [snd] in *. rewrite <- app_assoc in IH. exact IH.
Qed.

(** X27.  After any sequence of requests served from an empty map, the
    rate limiter holds an entry exactly for the clients that sent a
    request; every count it holds lies between 1 and 100 and every reset
    time is one window (60 seconds) after one of that client's requests.
    A single request never changes the entry of another client, and a
    request that is turned away leaves the whole map as it was. *)
Theorem rate_limiter_accounts_for_every_client
        (requests : list (string * nat)) (clientIp other : string) (now : nat)
        (requestCounts : Counts) :
  accounted requests (snd (serve requests JSMap.empty)) clientIp
  /\ JSMap.get other (snd (rateLimit clientIp now requestCounts))
     = (if String.eqb other clientIp
        then JSMap.get clientIp (snd (rateLimit clientIp now requestCounts))
        else JSMap.get other requestCounts)
  /\ (if fst (rateLimit clientIp now requestCounts) then True
      else snd (rateLimit clientIp now requestCounts) = requestCounts).
Proof.
  split.
  - apply (serve_accounted requests [] JSMap.empty).
    intros ip. unfold accounted. cbn. intros t [].
  - split.
    + destruct (String.eqb other clientIp) eqn:E.
      * apply String.eqb_eq in E. subst other. reflexivity.
      * apply String.eqb_neq in E. apply rateLimit_elsewhere, E.
    + unfold rateLimit.
      destruct (JSMap.get clientIp requestCounts) as [d|]; [|exact I].
      destruct (resetTime d <? now); [exact I|].
      destruct (RATE_LIMIT_MAX_REQUESTS <=? count d); [reflexivity | exact I].
Qed.

End StoreFacts.

(** ** The page layout of the extracted text *)

Module LayoutFacts.

Import JS Num PdfExtractor StoreShapes.

Lemma length_append (a b : string) :
  String.length (a ++ b) = String.length a + String.length b.
Proof. induction a as [|c a IH]; cbn; [reflexivity | rewrite IH; reflexivity]. Qed.

Lemma append_assoc (a b c : string) : ((a ++ b) ++ c = a ++ b ++ c)%string.
Proof. induction a as [|x a IH]; cbn; [reflexivity | rewrite IH; reflexivity]. Qed.

Lemma append_empty_r (a : string) : (a ++ EmptyString)%string = a.
Proof. induction a as [|x a IH]; cbn; [reflexivity | rewrite IH; reflexivity]. Qed.

Lemma drop_append (a b : string) : drop (String.length a) (a ++ b) = b.
Proof. induction a as [|c a IH]; cbn; [reflexivity | exact IH]. Qed.

Lemma take_append (a b : string) : take (String.length a) (a ++ b) = a.
Proof.
  induction a as [|c a IH]; cbn; [destruct b; reflexivity | rewrite IH; reflexivity].
Qed.

Lemma substring_middle (a b c : string) :
  substring (String.length a) (String.length a + String.length b)
            (a ++ b ++ c) = b.
Proof.
  unfold substring. rewrite drop_append.
  replace (String.length a + String.length b - String.length a)
    with (String.length b) by lia.
  apply take_append.
Qed.

Lemma extract_pages_spec (contents : list PageContent) :
  forall (i : nat) (pages : list PDFPage) (fullText : string)
         (currentIndex : nat),
    extract_pages i contents pages fullText currentIndex
    = ((pages ++ pages_from i currentIndex contents)%list,
       (fullText ++ document_text (pages_from i currentIndex contents))%string).
Proof.
  induction contents as [|page more IH]; intros i pages fullText currentIndex;
    cbn [extract_pages pages_from document_text].
  - rewrite app_nil_r, append_empty_r. reflexivity.
  - rewrite IH. cbn [text]. rewrite <- app_assoc. cbn [app].
    rewrite !append_assoc. reflexivity.
Qed.

Lemma pages_from_laid_out (contents : list PageContent) :
  forall i currentIndex,
    laid_out i currentIndex (pages_from i currentIndex contents)
    /\ map pageNumber (pages_from i currentIndex contents)
       = seq i (length contents)
    /\ map text (pages_from i currentIndex contents)
       = map (fun page => page_text (items page) EmptyString None) contents.
Proof.
  induction contents as [|page more IH]; intros i currentIndex;
    cbn [pages_from laid_out map seq length]; [auto|].
  cbn [pageNumber startIndex endIndex text].
  destruct (IH (S i) (currentIndex
                      + String.length (page_text (items page) EmptyString None)
                      + 2)) as (H1 & H2 & H3).
  rewrite H2, H3. auto.
Qed.

(** In a laid-out text every page can be read back from its offsets. *)
Lemma laid_out_read_back (pages : list PDFPage) :
  forall (i : nat) (before : string),
    laid_out i (String.length before) pages ->
    Forall (fun page =>
              substring (startIndex page) (endIndex page)
                        (before ++ document_text pages) = text page
              /\ substring (endIndex page) (endIndex page + 2)
                           (before ++ document_text pages) = (NL ++ NL)%string)
           pages.
Proof.
  induction pages as [|page more IH]; intros i before H; [constructor|].
  cbn [laid_out] in H. destruct H as (_ & Hs & He & Hrest).
  cbn [document_text]. constructor.
  - rewrite Hs, He. split; [apply substring_middle|].
    replace (String.length before + String.length (text page))
      with (String.length (before ++ text page)) by apply length_append.
    rewrite <- (append_assoc before (text page)).
    change 2 with (String.length (NL ++ NL)).
    rewrite <- (append_assoc NL NL).
    apply substring_middle.
  - specialize (IH (S i) (before ++ text page ++ NL ++ NL)%string).
    rewrite !append_assoc in IH.
    apply IH.
    rewrite !length_append. cbn [String.length NL].
    rewrite He in Hrest.
    replace (String.length before + (String.length (text page) + (1 + 1)))
      with (String.length before + String.length (text page) + 2) by lia.
    exact Hrest.
Qed.

(** X28.  [extractTextFromPDF] numbers the pages from 1, gives each page
    the text assembled from its items, and lays the pages out in the full
    text one after the other with two line feeds after each: the first
    page starts at 0, a page ends where its text ends, the next page
    starts two characters later, and the substring of the full text
    between the start and the end of a page is the text of that page. *)
Theorem extractTextFromPDF_lays_pages_out (pdf : list PageContent) :
  let doc := extractTextFromPDF pdf in
  numPages doc = length pdf
  /\ map pageNumber (pages doc) = seq 1 (length pdf)
  /\ map text (pages doc)
     = map (fun page => page_text (items page) EmptyString None) pdf
  /\ laid_out 1 0 (pages doc)
  /\ fullText doc = document_text (pages doc)
  /\ Forall (fun page =>
               substring (startIndex page) (endIndex page) (fullText doc)
               = text page
               /\ substring (endIndex page) (endIndex page + 2) (fullText doc)
                  = (NL ++ NL)%string)
            (pages doc).
Proof.
  unfold extractTextFromPDF. rewrite extract_pages_spec.
  cbn [app append numPages pages fullText].
  destruct (pages_from_laid_out pdf 1 0) as (H1 & H2 & H3).
  split; [reflexivity|]. split; [exact H2|]. split; [exact H3|].
  split; [exact H1|]. split; [reflexivity|].
  apply (laid_out_read_back (pages_from 1 0 pdf) 1 EmptyString). exact H1.
Qed.

Lemma length_document_text (page : PDFPage) (more : list PDFPage) :
  String.length (document_text (page :: more))
  = String.length (text page) + 2 + String.length (document_text more).
Proof.
  cbn [document_text]. rewrite !length_append. cbn [String.length NL]. lia.
Qed.

(** In a laid-out text an index inside the text belongs to exactly the
    first page that holds it, and an index past the text to none. *)
Lemma laid_out_find (pages : list PDFPage) :
  forall (i offset index : nat),
    laid_out i offset pages ->
    offset <= index ->
    if index <? offset + String.length (document_text pages) then
      exists k page,
        find (holds_index index) pages = Some page
        /\ nth_error pages k = Some page
        /\ pageNumber page = i + k
        /\ startIndex page <= index /\ index < endIndex page + 2
    else find (holds_index index) pages = None.
Proof.
  induction pages as [|page more IH]; intros i offset index H Hle.
  - cbn [document_text String.length find].
    destruct (index <? offset + 0) eqn:E; [|reflexivity].
    apply Nat.ltb_lt in E. lia.
  - cbn [laid_out] in H. destruct H as (Hn & Hs & He & Hrest).
    rewrite length_document_text. cbn [find]. unfold holds_index at 1 3.
    rewrite Hs, He.
    destruct (index <? offset + String.length (text page) + 2) eqn:Ein.
    + assert (Eo : (offset <=? index) = true) by (apply Nat.leb_le, Hle).
      rewrite Eo. cbn [andb].
      apply Nat.ltb_lt in Ein.
      assert (Et : (index <? offset + (String.length (text page) + 2
                                       + String.length (document_text more)))
                   = true) by (apply Nat.ltb_lt; lia).
      rewrite Et. exists 0, page.
      rewrite Hs, He. repeat split; try lia; reflexivity.
    + rewrite andb_false_r.
      apply Nat.ltb_ge in Ein.
      specialize (IH (S i) (endIndex page + 2) index Hrest).
      rewrite He in IH. specialize (IH Ein).
      replace (offset + (String.length (text page) + 2
                         + String.length (document_text more)))
        with (offset + String.length (text page) + 2
              + String.length (document_text more)) by lia.
      destruct (index <? offset + String.length (text page) + 2
                         + String.length (document_text more));
        [|exact IH].
      destruct IH as (k & p & Hf & Hk & Hp & H1 & H2).
      exists (S k), p. repeat split; try assumption. lia.
Qed.

Lemma laid_out_last (pages : list PDFPage) :
  forall i offset, laid_out i offset pages ->
    forall page, nth_error pages (length pages - 1) = Some page ->
                 pageNumber page = i + (length pages - 1).
Proof.
  induction pages as [|p more IH]; intros i offset H page Hn.
  - discriminate Hn.
  - cbn [laid_out] in H. destruct H as (Hp & _ & _ & Hrest).
    destruct more as [|q more'].
    + cbn in Hn. injection Hn as <-. cbn. lia.
    + cbn [length] in *.
      replace (S (S (length more')) - 1) with (S (length more')) in * by lia.
      cbn [nth_error] in Hn.
      specialize (IH (S i) _ Hrest page).
      replace (S (length more') - 1) with (length more') in IH by lia.
      specialize (IH Hn). lia.
Qed.

(** X29.  On the pages of an extracted document, [getPageForIndex]
    answers for an index inside the full text with the number of the one
    page whose span, separator included, holds the index, a number between
    1 and the number of pages; for an index at or past the end of the full
    text it answers with the last page, and with 1 when there is no
    page. *)
Theorem getPageForIndex_finds_the_holding_page
        (pdf : list PageContent) (index : nat) :
  let doc := extractTextFromPDF pdf in
  if index <? String.length (fullText doc) then
    exists page,
      nth_error (pages doc) (getPageForIndex (pages doc) index - 1) = Some page
      /\ pageNumber page = getPageForIndex (pages doc) index
      /\ 1 <= getPageForIndex (pages doc) index <= numPages doc
      /\ startIndex page <= index /\ index < endIndex page + 2
  else getPageForIndex (pages doc) index = Nat.max 1 (numPages doc).
Proof.
  unfold extractTextFromPDF. rewrite extract_pages_spec.
  cbn [app append numPages pages fullText].
  destruct (pages_from_laid_out pdf 1 0) as (Hlaid & Hnum & _).
  assert (Hlen : length (pages_from 1 0 pdf) = length pdf).
  { rewrite <- (length_map pageNumber), Hnum. apply length_seq. }
  pose proof (laid_out_find (pages_from 1 0 pdf) 1 0 index Hlaid (Nat.le_0_l _))
    as Hfind.
  cbn [Nat.add] in Hfind.
  unfold getPageForIndex. fold (holds_index index).
  destruct (index <? String.length (document_text (pages_from 1 0 pdf))).
  - destruct Hfind as (k & page & Hf & Hk & Hp & H1 & H2).
    rewrite Hf. cbv beta iota. exists page.
    assert (Hklt : k < length pdf).
    { rewrite <- Hlen. apply nth_error_Some. congruence. }
    rewrite Hp. replace (S k - 1) with k by lia.
    split; [exact Hk|]. split; [reflexivity|].
    split; [lia|]. split; assumption.
  - rewrite Hfind.
    destruct (pages_from 1 0 pdf) as [|p more] eqn:E.
    + cbn in Hlen. rewrite <- Hlen. reflexivity.
    + rewrite <- E in *. rewrite Hlen in *.
      assert (Hpos : 0 < length pdf) by (rewrite <- Hlen, E; cbn; lia).
      apply Nat.ltb_lt in Hpos. rewrite Hpos.
      destruct (nth_error (pages_from 1 0 pdf) (length pdf - 1)) as [page|] eqn:En.
      * pose proof (laid_out_last _ _ _ Hlaid page) as Hl.
        rewrite Hlen in Hl. specialize (Hl En).
        apply Nat.ltb_lt in Hpos. lia.
      * apply nth_error_None in En. apply Nat.ltb_lt in Hpos. lia.
Qed.

Lemma getPageForIndex_witness :
  let pdf := [mkContent [mkItem "Title" 700; mkItem "Abstract" 680] 612 792;
              mkContent [mkItem "References" 700] 612 792] in
  let doc := extractTextFromPDF pdf in
  fullText doc = ("Title" ++ NL ++ "Abstract" ++ NL ++ NL
                  ++ "References" ++ NL ++ NL)%string
  /\ getPageForIndex (pages doc) 3 = 1
  /\ getPageForIndex (pages doc) 16 = 2
  /\ getPageForIndex (pages doc) 500 = 2.
Proof.
  intros pdf doc.
  split; [vm_compute; reflexivity|].
  pose proof (getPageForIndex_finds_the_holding_page pdf 500) as H.
  split; [vm_compute; reflexivity|]. split; [vm_compute; reflexivity|].
  exact H.
Defined.

Lemma page_range_loop_spec (pages : list PDFPage) :
  forall (i offset first last startPage endPage : nat),
    laid_out i offset pages ->
    offset < last ->
    last <= offset + String.length (document_text pages) ->
    first < last ->
    let range := page_range_loop pages first last offset startPage endPage in
    (exists page, find (holds_index (last - 1)) pages = Some page
                  /\ snd range = pageNumber page)
    /\ (if offset <=? first
        then (exists page, find (holds_index first) pages = Some page
                           /\ fst range = pageNumber page)
             /\ fst range <= snd range
        else fst range = startPage)
    /\ i <= snd range < i + length pages.
Proof.
  induction pages as [|page more IH];
    intros i offset first last startPage endPage H Hoff Hlast Hfl.
  - cbn [document_text String.length] in Hlast. lia.
  - cbn [laid_out] in H. destruct H as (Hn & Hs & He & Hrest).
    rewrite length_document_text in Hlast.
    cbn [page_range_loop find length]. unfold holds_index at 1 3.
    rewrite Hs, He.
    assert (Eol : (offset <=? last) = true) by (apply Nat.leb_le; lia).
    assert (Eol1 : (offset <=? last - 1) = true) by (apply Nat.leb_le; lia).
    rewrite Eol, Eol1. cbn [andb].
    destruct (last <=? offset + String.length (text page) + 2) eqn:Ein.
    + apply Nat.leb_le in Ein.
      assert (E1 : (last - 1 <? offset + String.length (text page) + 2) = true)
        by (apply Nat.ltb_lt; lia).
      rewrite E1. cbv zeta. cbn [fst snd].
      split; [exists page; auto|].
      split; [|lia].
      destruct (offset <=? first) eqn:Eof; cbn [andb].
      * assert (E2 : (first <? offset + String.length (text page) + 2) = true)
          by (apply Nat.ltb_lt; lia).
        rewrite E2. split; [exists page; auto | lia].
      * reflexivity.
    + apply Nat.leb_gt in Ein.
      assert (E1 : (last - 1 <? offset + String.length (text page) + 2) = false)
        by (apply Nat.ltb_ge; lia).
      rewrite E1.
      specialize (IH (S i) (endIndex page + 2) first last
                     (if (offset <=? first)
                         && (first <? offset + String.length (text page) + 2)
                      then pageNumber page else startPage)
                     endPage Hrest).
      rewrite He in IH.
      assert (Hl2 : last <= offset + String.length (text page) + 2
                             + String.length (document_text more)) by lia.
      specialize (IH Ein Hl2 Hfl). cbv zeta in IH |- *.
      destruct IH as (Hep & Hsp & Hb).
      split; [exact Hep|]. split; [|lia].
      destruct (offset <=? first) eqn:Eof; cbn [andb] in *.
      * destruct (first <? offset + String.length (text page) + 2) eqn:E2.
        -- assert (E3 : (offset + String.length (text page) + 2 <=? first) = false)
             by (apply Nat.leb_gt; apply Nat.ltb_lt in E2; exact E2).
           rewrite E3 in Hsp. rewrite Hsp.
           split; [exists page; auto | lia].
        -- assert (E3 : (offset + String.length (text page) + 2 <=? first) = true)
             by (apply Nat.leb_le; apply Nat.ltb_ge in E2; exact E2).
           rewrite E3 in Hsp. exact Hsp.
      * assert (E3 : (offset + String.length (text page) + 2 <=? first) = false).
        { apply Nat.leb_gt. apply Nat.leb_gt in Eof. lia. }
        rewrite E3 in Hsp. exact Hsp.
Qed.

(** X30.  For a non-empty range of the full text of an extracted
    document, [findPageRange] answers with the page that
    [getPageForIndex] gives for the first character of the range and the
    page it gives for the last one; the start page is not after the end
    page and both are page numbers of the document. *)
Theorem findPageRange_spans_first_to_last_character
        (pdf : list PageContent) (first last : nat) :
  let doc := extractTextFromPDF pdf in
  first < last -> last <= String.length (fullText doc) ->
  findPageRange (pages doc) first last
  = (getPageForIndex (pages doc) first, getPageForIndex (pages doc) (last - 1))
  /\ 1 <= fst (findPageRange (pages doc) first last)
  /\ fst (findPageRange (pages doc) first last)
     <= snd (findPageRange (pages doc) first last)
  /\ snd (findPageRange (pages doc) first last) <= numPages doc.
Proof.
  unfold extractTextFromPDF. rewrite extract_pages_spec.
  cbn [app append numPages pages fullText]. intros Hfl Hlast.
  destruct (pages_from_laid_out pdf 1 0) as (Hlaid & Hnum & _).
  assert (Hlen : length (pages_from 1 0 pdf) = length pdf).
  { rewrite <- (length_map pageNumber), Hnum. apply length_seq. }
  assert (H0 : 0 < last) by lia.
  pose proof (page_range_loop_spec (pages_from 1 0 pdf) 1 0 first last 1
                (length (pages_from 1 0 pdf)) Hlaid H0 Hlast Hfl) as H.
  cbv zeta in H. cbn [Nat.leb] in H.
  fold (findPageRange (pages_from 1 0 pdf) first last) in H.
  destruct H as ((pe & Hfe & Hpe) & ((ps & Hfs & Hps) & Hle) & Hb).
  unfold getPageForIndex. fold (holds_index first). fold (holds_index (last - 1)).
  rewrite Hfs, Hfe, <- Hps, <- Hpe.
  split; [apply surjective_pairing|].
  pose proof (laid_out_find (pages_from 1 0 pdf) 1 0 first Hlaid (Nat.le_0_l _))
    as Hfind.
  cbn [Nat.add] in Hfind.
  assert (Ef : (first <? String.length (document_text (pages_from 1 0 pdf))) = true)
    by (apply Nat.ltb_lt; lia).
  rewrite Ef in Hfind. destruct Hfind as (k & p & Hf & _ & Hp & _).
  rewrite Hfs in Hf. injection Hf as <-.
  rewrite Hlen in Hb. lia.
Qed.

Lemma findPageRange_witness :
  let pdf := [mkContent [mkItem "Title" 700; mkItem "Abstract" 680] 612 792;
              mkContent [mkItem "References" 700] 612 792] in
  let doc := extractTextFromPDF pdf in
  16 < 26 /\ 26 <= String.length (fullText doc)
  /\ findPageRange (pages doc) 16 26 = (2, 2).
Proof.
  intros pdf doc.
  assert (H1 : 16 < 26) by lia.
  assert (H2 : 26 <= String.length (fullText doc)) by (vm_compute; lia).
  split; [exact H1|]. split; [exact H2|].
  destruct (findPageRange_spans_first_to_last_character pdf 16 26 H1 H2)
    as (E & _).
  etransitivity; [exact E | vm_compute; reflexivity].
Defined.

End LayoutFacts.
